(* ===== verification/_CoqProject ===== *)
-Q . S2P
Prelude.v
Datetime.v
Sqlite.v
Json.v
JsonText.v
Schema.v
Spec.v
Orm.v
Handlers.v
App.v
Refinement.v
Invariant.v
Responses.v
Availability.v
Server.v
Render.v
Service.v
