(* ===== verification/Prelude.v ===== *)
(** * A verification development for the FastAPI book service (src/main.py)

    The program is one Python module, [src/main.py], of 68 lines.  It
    declares an SQLAlchemy model [Book] over an SQLite table [books]
    (lines 20-27), a session factory [SessionLocal] (lines 33-36), a
    generator dependency [get_db] that opens a session and closes it in a
    [finally] block (lines 39-44), two pydantic schemas [BookCreate] and
    [BookResponse] (lines 47-54), and two FastAPI endpoints on the path
    ["/books/"]: [create_book] for POST (lines 57-63) and [get_books] for
    GET (lines 66-68).

    How the parts interact.  A request reaches the Starlette router,
    which picks the route by path and method.  FastAPI then parses the
    body as JSON, solves the dependencies (first [get_db], which creates a
    session, then the body parameter, which pydantic validates against
    [BookCreate]), runs the endpoint, validates the endpoint's result
    against the [response_model] by reading its attributes, and finally
    leaves the dependency's exit stack, which runs [db.close()].  The
    endpoint talks to SQLite only through the session: [db.add] stages an
    object, [db.commit] flushes it (an INSERT whose [published_date] is
    the Python-side default [datetime.utcnow()] and whose [id] is the
    rowid SQLite allocates) and commits, [db.refresh] reloads it by
    primary key, and [db.query(Book).all()] scans the table.

    Files of the development, in dependency order (_CoqProject):
    - [Prelude] (this file): the state-and-exception monad [M] in which
      the Python code is written (a computation maps a state to an
      [outcome], a value or a raised exception, and a new state, so that a
      [finally] block runs on both paths), its notation in [py_scope],
      the invariant judgement [preserves] with its compositional rules in
      the hint database [py], the value-tracking judgement [triple] (an
      invariant of the state and a predicate on the value returned) with
      its rules and the tactic [solve_triple], the list rewrites of
      [py_list], and the shared tactics.
    - [Datetime] (Module [Datetime]): Python's naive [datetime] (line 9;
      the type of [published_date], lines 27 and 54) with its
      constructor's checks and its order, printf-style [%0wd], the text
      SQLAlchemy's SQLite [DATETIME] stores ([encode]) and its parsing by
      [datetime.fromisoformat] ([decode]).  Library behaviour.
    - [Sqlite] (Module [Table]): the [books] table as its rows in rowid
      order; OP_NewRowid (largest rowid plus one, random probing with 100
      tries once the largest rowid is 2^63-1, SQLITE_FULL), INSERT,
      SELECT by id and the scan; the table invariant [table_wf]; the
      [published_date] column holds the stored text.
    - [Json] (Module [Json]): decoded JSON values ([json.loads]: the last
      occurrence of a duplicated key wins), pydantic 2's lax [str] check
      and its error records.  Library behaviour, marked spec_modelled.
    - [JsonText] (Module [JsonText]): the JSON text on UTF-8 bytes:
      [json.dumps] with the options of Starlette's [JSONResponse]
      (escapes of [ESCAPE_DCT], [ensure_ascii] off, separators without
      spaces) and the scanner of [json.loads] ([scanstring] with
      surrogate pairs, [_match_number], [scan_once], whitespace), fuelled
      by the length of the text.  Library behaviour.
    - [Schema] (Modules [Book], [BookCreate], [BookResponse]): the mapped
      class and its keyword constructor, [BookCreate] validation and
      [dict()], [BookResponse] validation from attributes.
    - [Spec] (Module [Spec]): the abstract book store the service
      promises, as the class [BookStore] with its laws [BookStoreLaws],
      the list instance, and the client lemma proved from the laws.
    - [Orm] (Module [Orm]): the world (committed table, heap of ORM
      instances shared by reference, sessions, clock and random oracles)
      and the session operations [session_local], [book_new], [add],
      [flush], [commit], [refresh], [query_all], [read_attrs], [close];
      the lemmas that run them on symbolic worlds.  The application
      starts ([startup]) on the files of the disk: [DATABASE_URL]'s
      [test.db] keeps its [books] table across restarts, since
      [create_all] creates it only when missing.  The INSERT binds the
      date as its storage text, and loading a row parses it back, raising
      [ValueError] on a text that does not parse.
    - [Handlers] (Module [Handlers]): [get_db] ([get_db_enter],
      [get_db_exit], [with_db]), [create_book] and [get_books],
      statement by statement.
    - [App] (Module [App]): routes, Starlette dispatch, FastAPI's
      handler (body decoding, dependency order, response validation,
      exit stack, 422/500), and the runs of each endpoint.
    - [Refinement] (Module [Refinement]): the abstraction of a world to
      a [Spec] store and the theorems at the level of HTTP requests.
    - [Invariant] (Module [Invariant]): the table invariant for every
      request, proved with [triple] over every session operation,
      handler and the pipeline.
    - [Responses] (Module [Responses]): the status and body of every
      response agree.
    - [Availability] (Module [Availability]): a second invariant (every
      stored row and every instance complete, every stored date the text
      of a valid [datetime], every date an instance holds valid), the
      GET that succeeds after any history, and the valid dates of every
      [BookResponse] the application sends.
    - [Server] (Module [Server]): requests in flight together on
      uvicorn's single event loop.  A request that reaches [get_db] has
      three phases ([task_step]): enter ([SessionLocal()] in the
      threadpool, up to [yield]), middle (body validation, the [async
      def] endpoint and response validation, atomic because nothing in
      it awaits: the SQLAlchemy calls block the loop), exit (the
      [finally] block's [db.close()] in the threadpool); other requests
      are answered in one step.  [step] is the server's transition
      relation (an arrival, or one phase of one request), [run_events]
      an executable schedule.  The middle phase runs on a session in the
      middle of the session list, so [App] proves the endpoint runs
      ([body_create], [body_insert_error], [body_get]) for a fresh
      session between those of other requests.
    - [Render] (Module [Render]): the bytes of each response body
      ([body_bytes]: a [BookResponse] as the object of its fields in
      declaration order with the date in ISO 8601, [{"detail": ...}],
      the plain text of a 500, the empty body of a 307 or a HEAD), and a
      client that reads them back ([client_book], [client_books], with
      [fromisoformat] for the date); the 422 body with pydantic's error
      entries and [client_errors] reading it.
    - [Service] (Module [Service]): the abstraction [store_of] of a
      committed table, the abstract service [answers] (a labelled step
      from a store to a store for each request and its response) and its
      runs [serves]; every reachable world implements a store, and the
      responses to any sequence of requests are a run of the abstract
      service.

    The theorems.  Refinement: a valid POST is [Spec.create] and a GET is
    [Spec.list_books] on any world refining a store ([create_refines],
    [list_refines]); from them, create-then-list, N creates with ids
    m+1..m+N, the 422 of an invalid body with the store unchanged, the
    bounds of [published_date] for a monotone clock.  Invariant: from startup, after any
    sequence of requests whatever they contain, the committed table
    and the table of every open transaction keep [table_wf]
    ([table_wf_after_requests]), also after a restart on
    a [test.db] whose table is well formed.  Type: every response
    carries the body its status announces ([app_response_typed]).
    Availability: after any history, with a clock reading valid
    datetimes, a GET lists every committed row in rowid order
    ([get_after_requests]).
    Safety: the request's session is closed on every path
    ([request_session_closed], via the [preserves] rules showing
    sessions are never removed);
    a POST whose INSERT fails is answered 500 with nothing committed
    ([insert_error_500]).
    Concurrency: every configuration the server reaches, under any
    interleaving, is a sequential run of [app] over the requests whose
    endpoint has run, in some order ([serializable]); the proof is a
    rule induction over [step] with two invariants, [sessions_wf] (a
    request at [yield] holds a fresh session, no two requests share one,
    an open session has a holder) and [serial] (the sequential run
    answers the same responses and agrees, [agree], on table, clock and
    random source).  From them: sessions are never shared, and all are
    closed once every request is answered ([sessions_unshared],
    [quiescent_sessions_closed]).  A GET in flight with a POST sees the
    new book or not depending on which endpoint body the loop runs first
    (the example [post_get_interleavings]).
    Round trips: the stored text of a valid [datetime] parses back to it
    ([decode_encode]); the JSON text of any value is read back by
    [json.loads] as that value ([loads_dumps], by induction on values
    through the items of arrays and objects, with whatever text follows
    a value that cannot extend it); every response carrying books, over
    any history from startup, is read back by a client as exactly those
    books ([responses_read_back]); and on a world refining a store, a
    client reads from the bodies of a POST and a GET the book
    [Spec.create] adds and the store's list ([wire_refines]); the 422
    to an invalid body is read back as the errors [body_param] reports
    ([invalid_body_read_back]), with the exact bytes of a missing title
    ([missing_title_bytes]) and of the Dune scenario ([dune_wire]); a
    body that is not JSON nor UTF-8 is answered 500
    ([non_utf8_body_500]).
    Whole service: every world reached from startup implements the store
    of its committed table ([reachable_refines]), and the responses to
    any sequence of requests, whatever their methods, paths and bodies,
    are a run of the abstract service from the store [test.db] holds,
    the k-th book created dated with the clock's k-th reading, and
    requests no route takes answered 404, 405 or 307 with nothing changed
    ([service_refines], a simulation lifted from one request,
    [app_answers], to runs by induction).  SQLite: a new rowid is fresh and within
    [1, 2^63-1], above every rowid while below the bound, equal to the
    documented maximum-plus-one ([new_rowid_max]: the B-tree's last key
    is the maximum over all rows), an INSERT keeps [table_wf],
    SQLITE_FULL happens only at the bound, and OP_NewRowid draws no
    random number exactly while the largest rowid is below the bound and
    stops within 100 draws ([new_rowid_draws]).  Schemas: the exact condition
    for [BookCreate] validation and the missing-field error.

    Time and randomness.  [datetime.utcnow()] reads a clock oracle at a
    tick counter that every reading advances, so a statement about the
    start and end of a request needs only that the oracle is monotone.
    A reading is a [Datetime.t]; the theorems that load a row back ask
    that the readings are valid datetimes, as every value [utcnow]
    returns is.  SQLite's random rowids are drawn from a second oracle.
    The fuels are the digit count of [%0wd], bounded by the number
    itself, which exceeds its count of digits, and the recursion depth
    of [json.loads], one more than the length of the text: [jsize_le]
    shows that the text of a value is at least as long as the fuel its
    scan needs, so [loads] never runs out on a text [dumps] wrote.
    Every loop of the program
    is structural over a list, and the random probing is bounded by
    SQLite's own 100 tries.

    Not modelled: uvicorn's HTTP parsing and sockets, several worker
    processes (uvicorn runs one by default; several would share
    [test.db] through SQLite's file locks), cancellation and timeouts,
    the decoding of request bytes into a [body] (the position and the
    message of a JSON error are inputs of the model, and a JSON body
    whose bytes are not text, answered 400 "There was an error parsing
    the body", is not a case of [body]), JSON numbers with a fraction or an
    exponent (no value of the program is one), the routes FastAPI adds for its documentation
    ([/docs], [/docs/oauth2-redirect], [/redoc], [/openapi.json]: the
    model's router knows only ["/books/"], so it answers them 404), headers,
    the connection pool (SQLAlchemy 2 gives a file database a
    [QueuePool] with [check_same_thread] off, so a connection opened on
    the loop may be closed from the threadpool), and SQLite's file
    format.  The enter and exit phases run in the threadpool; they are
    single steps because they touch only the request's own session
    ([SessionLocal()] issues no SQL, and [close] rolls back a
    transaction that holds no write).  When the response bytes leave
    (before or after the exit phase, depending on FastAPI's version)
    is not modelled: [task_result] is the response from the end of the
    middle phase on.  [fromisoformat] is modelled on the layouts
    SQLAlchemy and pydantic write; its other layouts never reach the program.  The
    indexes [ix_books_id] and [ix_books_title] (lines 24-25) change no
    result and are not modelled. *)

From stdpp Require Export base list strings decidable.
From Stdlib Require Export ZArith Lia Sorted.

Declare Scope py_scope.
Delimit Scope py_scope with py.

(** ** Outcomes and the state-and-exception monad *)

(** A Python computation ends with a value or with a raised exception. *)
Inductive outcome (E A : Type) : Type :=
| Ret (x : A)
| Raise (e : E).
Arguments Ret {E A} x.
Arguments Raise {E A} e.

(** Python code mutates shared state and raises exceptions that do not
    roll the state back: a computation returns its outcome with the state
    reached, so that a [finally] block can run after a raise. *)
Definition M (S E A : Type) : Type := S -> outcome E A * S.

Definition mret {S E A} (x : A) : M S E A := fun s => (Ret x, s).
Definition mraise {S E A} (e : E) : M S E A := fun s => (Raise e, s).
Definition mget {S E} : M S E S := fun s => (Ret s, s).
Definition mput {S E} (s : S) : M S E unit := fun _ => (Ret tt, s).
Definition mmodify {S E} (f : S -> S) : M S E unit := fun s => (Ret tt, f s).

Definition mbind {S E A B} (c : M S E A) (k : A -> M S E B) : M S E B :=
  fun s =>
    match c s with
    | (Ret x, s') => k x s'
    | (Raise e, s') => (Raise e, s')
    end.

(** [try: c finally: fin].  The block [fin] runs whatever [c] did; an
    exception raised by [fin] replaces the outcome of [c]. *)
Definition try_finally {S E A} (c : M S E A) (fin : M S E unit) : M S E A :=
  fun s =>
    match c s with
    | (o, s1) =>
        match fin s1 with
        | (Ret _, s2) => (o, s2)
        | (Raise e, s2) => (Raise e, s2)
        end
    end.

(** Raise [e] when an [option] is empty. *)
Definition of_option {S E A} (e : E) (o : option A) : M S E A :=
  match o with Some x => mret x | None => mraise e end.

(** [for x in xs: f(x)], collecting the results. *)
Fixpoint mmap {S E A B} (f : A -> M S E B) (xs : list A) : M S E (list B) :=
  match xs with
  | [] => mret []
  | x :: xs' =>
      fun s =>
        match f x s with
        | (Ret y, s1) =>
            match mmap f xs' s1 with
            | (Ret ys, s2) => (Ret (y :: ys), s2)
            | (Raise e, s2) => (Raise e, s2)
            end
        | (Raise e, s1) => (Raise e, s1)
        end
  end.

Notation "x <- c ;; k" := (mbind c (fun x => k))
  (at level 60, c at next level, right associativity) : py_scope.
Notation "c ;;; k" := (mbind c (fun _ => k))
  (at level 60, right associativity) : py_scope.

(** ** Invariants of stateful code *)

(** [preserves I c]: every run of [c] from a state satisfying [I] ends,
    with a value or with an exception, in a state satisfying [I]. *)
Definition preserves {S E A} (I : S -> Prop) (c : M S E A) : Prop :=
  forall s, I s -> I (snd (c s)).

Section Preserves.
Context {S E : Type} (I : S -> Prop).

Lemma preserves_ret {A} (x : A) : preserves (E := E) I (mret x).
Proof. intros s Hs. exact Hs. Qed.

Lemma preserves_raise {A} (e : E) : preserves (A := A) I (mraise e).
Proof. intros s Hs. exact Hs. Qed.

Lemma preserves_get : preserves (E := E) I mget.
Proof. intros s Hs. exact Hs. Qed.

Lemma preserves_modify (f : S -> S) :
  (forall s, I s -> I (f s)) -> preserves (E := E) I (mmodify f).
Proof. intros Hf s Hs. exact (Hf s Hs). Qed.

Lemma preserves_bind {A B} (c : M S E A) (k : A -> M S E B) :
  preserves I c -> (forall x, preserves I (k x)) -> preserves I (mbind c k).
Proof.
  intros Hc Hk s Hs. unfold mbind.
  specialize (Hc s Hs). destruct (c s) as [[x|e] s']; [apply Hk|]; exact Hc.
Qed.

Lemma preserves_finally {A} (c : M S E A) (fin : M S E unit) :
  preserves I c -> preserves I fin -> preserves I (try_finally c fin).
Proof.
  intros Hc Hf s Hs. unfold try_finally.
  specialize (Hc s Hs). destruct (c s) as [o s1].
  specialize (Hf s1 Hc). destruct (fin s1) as [[]s2]; exact Hf.
Qed.

Lemma preserves_of_option {A} (e : E) (o : option A) : preserves I (of_option e o).
Proof. destruct o; intros s Hs; exact Hs. Qed.

Lemma preserves_mmap {A B} (f : A -> M S E B) (xs : list A) :
  (forall x, preserves I (f x)) -> preserves I (mmap f xs).
Proof.
  intros Hf. induction xs as [|x xs IH]; intros s Hs; [exact Hs|]. simpl.
  specialize (Hf x s Hs). destruct (f x s) as [[y|e] s1]; [|exact Hf].
  specialize (IH s1 Hf). destruct (mmap f xs s1) as [[ys|e] s2]; exact IH.
Qed.
End Preserves.

Create HintDb py discriminated.
#[export] Hint Resolve preserves_ret preserves_raise preserves_get
  preserves_bind preserves_finally preserves_of_option preserves_mmap : py.

(** [triple I c V]: every run of [c] from a state satisfying [I] ends,
    with a value or with an exception, in a state satisfying [I], and a
    value it returns satisfies [V].  Unlike [preserves], the rules pass
    what is known of a value on to the code that uses it, so that an
    invariant can depend on data the program reads and writes back. *)
Definition triple {S E A} (I : S -> Prop) (c : M S E A) (V : A -> Prop) : Prop :=
  forall s, I s -> I (snd (c s)) /\ forall x, fst (c s) = Ret x -> V x.

Section Triple.
Context {S E : Type} (I : S -> Prop).

Lemma triple_ret {A} (x : A) (V : A -> Prop) : V x -> triple (E := E) I (mret x) V.
Proof. intros Hx s Hs. split; [exact Hs|]. intros y [= <-]. exact Hx. Qed.

Lemma triple_raise {A} (e : E) (V : A -> Prop) : triple I (mraise e) V.
Proof. intros s Hs. split; [exact Hs|discriminate]. Qed.

Lemma triple_get : triple (E := E) I mget I.
Proof. intros s Hs. split; [exact Hs|]. intros y [= <-]. exact Hs. Qed.

Lemma triple_modify (f : S -> S) :
  (forall s, I s -> I (f s)) -> triple (E := E) I (mmodify f) (fun _ => True).
Proof. intros Hf s Hs. split; [exact (Hf s Hs)|easy]. Qed.

Lemma triple_bind {A B} (c : M S E A) (k : A -> M S E B) (V : A -> Prop) (W : B -> Prop) :
  triple I c V -> (forall x, V x -> triple I (k x) W) -> triple I (mbind c k) W.
Proof.
  intros Hc Hk s Hs. unfold mbind.
  destruct (Hc s Hs) as [H1 H2]. destruct (c s) as [[x|e] s']; cbn in *.
  - exact (Hk x (H2 x eq_refl) s' H1).
  - split; [exact H1|discriminate].
Qed.

Lemma triple_finally {A} (c : M S E A) (fin : M S E unit) (V : A -> Prop) :
  triple I c V -> triple I fin (fun _ => True) -> triple I (try_finally c fin) V.
Proof.
  intros Hc Hf s Hs. unfold try_finally.
  destruct (Hc s Hs) as [H1 H2]. destruct (c s) as [o s1]. cbn in *.
  destruct (Hf s1 H1) as [H3 _]. destruct (fin s1) as [[]s2]; cbn in *; split; try easy.
Qed.

Lemma triple_of_option {A} (e : E) (o : option A) (V : A -> Prop) :
  (forall x, o = Some x -> V x) -> triple I (of_option e o) V.
Proof. intros Ho. destruct o as [x|]; [apply triple_ret, Ho; reflexivity|apply triple_raise]. Qed.

Lemma triple_of_option_eq {A} (e : E) (o : option A) :
  triple I (of_option e o) (fun x => o = Some x).
Proof. apply triple_of_option. easy. Qed.

(** A loop over [xs] whose body keeps the invariant on the elements of
    [xs]. *)
Lemma triple_mmap_in {A B} (f : A -> M S E B) (xs : list A) (V : B -> Prop) :
  (forall x, In x xs -> triple I (f x) V) -> triple I (mmap f xs) (Forall V).
Proof.
  induction xs as [|x xs IH]; intros Hf; [apply triple_ret; constructor|]. intros s Hs. simpl.
  destruct (Hf x (or_introl eq_refl) s Hs) as [H1 H2]. destruct (f x s) as [[y|e] s1]; cbn in *; [|split; easy].
  destruct (IH (fun x Hx => Hf x (or_intror Hx)) s1 H1) as [H3 H4].
  destruct (mmap f xs s1) as [[ys|e] s2]; cbn in *; split; try easy.
  intros zs [= <-]. constructor; [exact (H2 y eq_refl)|exact (H4 ys eq_refl)].
Qed.

Lemma triple_mmap {A B} (f : A -> M S E B) (xs : list A) (V : B -> Prop) :
  (forall x, triple I (f x) V) -> triple I (mmap f xs) (Forall V).
Proof. intros Hf. apply triple_mmap_in. intros x _. apply Hf. Qed.

Lemma triple_weaken {A} (c : M S E A) (V W : A -> Prop) :
  triple I c V -> (forall x, V x -> W x) -> triple I c W.
Proof. intros Hc HVW s Hs. destruct (Hc s Hs) as [H1 H2]. split; [exact H1|]. intros x Hx. exact (HVW x (H2 x Hx)). Qed.
End Triple.

(** Decompose a [triple] goal along the structure of the code, the
    facts on the values bound kept as hypotheses, and close the leaves
    with the tactic [leaf]. *)
Ltac solve_triple leaf :=
  repeat (intros; cbv beta in *; match goal with
    | |- triple _ (mbind _ _) _ => eapply triple_bind
    | |- triple _ (try_finally _ _) _ => apply triple_finally
    | |- triple _ (mret _) ?V =>
        first [is_evar V; refine (triple_ret _ _ (fun _ => True) I) | apply triple_ret]
    | |- triple _ (mraise _) _ => apply triple_raise
    | |- triple _ (of_option _ _) ?V =>
        first [is_evar V; apply triple_of_option_eq | apply triple_of_option]
    | |- triple _ (mmap _ _) _ => eapply triple_weaken; [apply triple_mmap|]
    | |- triple _ (match ?x with _ => _ end) _ => destruct x eqn:?
    | |- triple _ (if ?b then _ else _) _ => destruct b eqn:?
    | |- _ => solve [leaf]
    end).

(** ** Generic lemmas and tactics *)

(** The outcome of a [try_finally] is the one of its body when the
    [finally] block returns. *)
Lemma try_finally_ret {S E A} (c : M S E A) (fin : M S E unit) s o s1 s2 :
  c s = (o, s1) -> fin s1 = (Ret tt, s2) -> try_finally c fin s = (o, s2).
Proof. intros Hc Hf. unfold try_finally. rewrite Hc, Hf. reflexivity. Qed.

(** The strictly increasing sequences of integers. *)
Definition increasing (l : list Z) : Prop := StronglySorted Z.lt l.

Lemma increasing_app_single (l : list Z) (z : Z) :
  increasing l -> Forall (fun y => y < z)%Z l -> increasing (l ++ [z]).
Proof.
  unfold increasing. induction 1 as [|a l Hl IH Ha]; intros Hall; simpl.
  - repeat constructor.
  - inversion Hall as [|? ? Haz Hall']; subst. constructor; [now apply IH|].
    apply Forall_app; split; [exact Ha | now constructor].
Qed.

Lemma increasing_NoDup (l : list Z) : increasing l -> List.NoDup l.
Proof.
  induction 1 as [|a l _ IH Ha]; constructor; [|exact IH].
  intros Hin. rewrite Forall_forall in Ha. specialize (Ha a Hin). lia.
Qed.

#[export] Hint Resolve increasing_app_single : py.

(** Reading and writing the last cell of a list that grew by one. *)
Lemma lookup_snoc {A} (l : list A) (x : A) : (l ++ [x]) !! length l = Some x.
Proof. rewrite lookup_app_r by lia. rewrite Nat.sub_diag. reflexivity. Qed.

Lemma insert_snoc {A} (l : list A) (x y : A) : <[length l := y]> (l ++ [x]) = l ++ [y].
Proof. rewrite insert_app_r_alt by lia. rewrite Nat.sub_diag. reflexivity. Qed.

Lemma alter_snoc {A} (f : A -> A) (l : list A) (x : A) :
  alter f (length l) (l ++ [x]) = l ++ [f x].
Proof. induction l as [|y l IH]; [reflexivity|]. simpl. f_equal. exact IH. Qed.

(** Reading and writing a cell inside a list, at the length of the
    prefix before it. *)
Lemma lookup_mid {A} (l1 l2 : list A) (x : A) : (l1 ++ x :: l2) !! length l1 = Some x.
Proof. now apply list_lookup_middle. Qed.

Lemma insert_mid {A} (l1 l2 : list A) (x y : A) : <[length l1 := y]> (l1 ++ x :: l2) = l1 ++ y :: l2.
Proof. rewrite insert_app_r_alt by lia. rewrite Nat.sub_diag. reflexivity. Qed.

(** [omap] only looks at the elements of its list. *)
Lemma omap_ext_elem {A B} (f g : A -> option B) (l : list A) :
  (forall x, x ∈ l -> f x = g x) -> omap f l = omap g l.
Proof.
  induction l as [|x l IH]; intros H; [reflexivity|]. cbn.
  rewrite (H x) by constructor. rewrite IH by (intros y Hy; apply H; now constructor).
  reflexivity.
Qed.

(** A cell of a list splits it around the cell. *)
Lemma lookup_split {A} (l : list A) (i : nat) (x : A) :
  l !! i = Some x -> l = take i l ++ x :: drop (S i) l /\ length (take i l) = i.
Proof.
  intros H. split; [symmetry; now apply take_drop_middle|].
  rewrite length_take. pose proof (lookup_lt_Some _ _ _ H). lia.
Qed.

(** The other cells of a list that grew by one. *)
Lemma lookup_snoc_ne {A} (l : list A) (x : A) (i : nat) : i <> length l -> (l ++ [x]) !! i = l !! i.
Proof.
  intros Hi. rewrite lookup_app. destruct (l !! i) eqn:E; [reflexivity|].
  apply lookup_ge_None in E. destruct (i - length l) eqn:Ed; [lia|reflexivity].
Qed.

(** The bytes of two strings appended. *)
Lemma list_ascii_of_string_app (s1 s2 : string) :
  String.list_ascii_of_string (s1 +:+ s2) = String.list_ascii_of_string s1 ++ String.list_ascii_of_string s2.
Proof. induction s1 as [|c s1 IH]; [reflexivity|]. simpl. f_equal. exact IH. Qed.

Lemma decide_nat_refl {A} (n : nat) (x y : A) : (if decide (n = n) then x else y) = x.
Proof. destruct (decide (n = n)); congruence. Qed.

Create Rewrite HintDb py_list.
#[export] Hint Rewrite @lookup_snoc @insert_snoc @alter_snoc @lookup_mid @insert_mid @decide_nat_refl : py_list.

(** Unfold the monad's combinators and reduce. *)
Ltac py_simpl :=
  unfold mbind, mret, mraise, mget, mput, mmodify, try_finally, of_option in *; cbn in *.

(** Invert a hypothesis and clean it up. *)
Ltac invc H := inversion H; subst; clear H.
