(* ===== verification/Datetime.v ===== *)
(** * [datetime] values and their storage in SQLite

    [published_date = Column(DateTime, default=datetime.utcnow)]
    (src/main.py, line 27) holds a naive [datetime] (imported on line 9,
    and the type of [BookResponse.published_date], line 54).  SQLite has
    no date type: SQLAlchemy's SQLite [DATETIME] writes the value as the
    text of its storage format
      [%(year)04d-%(month)02d-%(day)02d %(hour)02d:%(minute)02d:%(second)02d.%(microsecond)06d]
    and reads it back with [datetime.fromisoformat].  This file holds
    - the [datetime] record with the field checks of its constructor
      ([valid]) and Python's comparison of datetimes ([le]);
    - the [%0wd] formatting of an integer ([format_int]), equal to a
      fixed-width rendering on the values a [datetime] can hold;
    - the storage string [encode] and the parser [decode], for the
      layout [fromisoformat] reads it with, and the round trip
      [decode (encode d) = Some d] on every valid [datetime].
    Python's and SQLAlchemy's code are library code, modelled from their
    documented behaviour. *)

From S2P Require Import Prelude.
From Stdlib Require Import Ascii.

Module Datetime.
Local Open Scope Z_scope.

(** A naive [datetime]: no [tzinfo] ([utcnow] gives none) and [fold] 0. *)
Record t : Type := mk {
  year : Z;
  month : Z;
  day : Z;
  hour : Z;
  minute : Z;
  second : Z;
  microsecond : Z
}.

#[export] Instance eq_dec : EqDecision t.
Proof. solve_decision. Defined.

(** ** The constructor's checks ([_check_date_fields], [_check_time_fields]) *)

Definition MINYEAR : Z := 1.
Definition MAXYEAR : Z := 9999.

Definition DAYS_IN_MONTH : list Z := [-1; 31; 28; 31; 30; 31; 30; 31; 31; 30; 31; 30; 31].

Definition is_leap (y : Z) : bool :=
  Z.eqb (y mod 4) 0 && (negb (Z.eqb (y mod 100) 0) || Z.eqb (y mod 400) 0).

Definition days_in_month (y m : Z) : Z :=
  if Z.eqb m 2 && is_leap y then 29 else nth (Z.to_nat m) DAYS_IN_MONTH 0.

(** A value Python can construct: every field within its range. *)
Definition valid (d : t) : bool :=
  (MINYEAR <=? year d) && (year d <=? MAXYEAR) &&
  (1 <=? month d) && (month d <=? 12) &&
  (1 <=? day d) && (day d <=? days_in_month (year d) (month d)) &&
  (0 <=? hour d) && (hour d <=? 23) &&
  (0 <=? minute d) && (minute d <=? 59) &&
  (0 <=? second d) && (second d <=? 59) &&
  (0 <=? microsecond d) && (microsecond d <=? 999999).

(** Naive datetimes compare as the tuples of their fields. *)
Definition cmp (d1 d2 : t) : comparison :=
  match Z.compare (year d1) (year d2) with
  | Eq =>
    match Z.compare (month d1) (month d2) with
    | Eq =>
      match Z.compare (day d1) (day d2) with
      | Eq =>
        match Z.compare (hour d1) (hour d2) with
        | Eq =>
          match Z.compare (minute d1) (minute d2) with
          | Eq =>
            match Z.compare (second d1) (second d2) with
            | Eq => Z.compare (microsecond d1) (microsecond d2)
            | c => c
            end
          | c => c
          end
        | c => c
        end
      | c => c
      end
    | c => c
    end
  | c => c
  end.

(** [d1 <= d2]. *)
Definition le (d1 d2 : t) : bool :=
  match cmp d1 d2 with Gt => false | _ => true end.

(** ** The storage string *)

Definition digit (k : Z) : ascii := ascii_of_nat (48 + Z.to_nat k).

(** The [w] last decimal digits of [n], most significant first. *)
Fixpoint fixed (w : nat) (n : Z) : string :=
  match w with
  | O => EmptyString
  | S w' => String (digit (n / 10 ^ Z.of_nat w')) (fixed w' (n mod 10 ^ Z.of_nat w'))
  end.

(** The number of decimal digits of [n >= 0]; [n] bounds the divisions. *)
Fixpoint ndigits_fuel (fuel : nat) (n : Z) : nat :=
  match fuel with
  | O => 1%nat
  | S f => if n <? 10 then 1%nat else S (ndigits_fuel f (n / 10))
  end.

Definition ndigits (n : Z) : nat := ndigits_fuel (Z.to_nat n) n.

(** [%0wd]: the digits, padded with zeros to [w] characters, the sign
    counting as one. *)
Definition format_int (w : nat) (n : Z) : string :=
  if n <? 0 then String "-" (fixed (Nat.max (w - 1) (ndigits (- n))) (- n))
  else fixed (Nat.max w (ndigits n)) n.

(** [DATETIME.bind_processor]: the storage format applied to the fields. *)
Definition encode (d : t) : string :=
  format_int 4 (year d) +:+ String "-" (
  format_int 2 (month d) +:+ String "-" (
  format_int 2 (day d) +:+ String " " (
  format_int 2 (hour d) +:+ String ":" (
  format_int 2 (minute d) +:+ String ":" (
  format_int 2 (second d) +:+ String "." (
  format_int 6 (microsecond d))))))).

(** ** [datetime.fromisoformat] on the layout of the storage format *)

Definition digit_val (c : ascii) : option Z :=
  let k := Z.of_nat (nat_of_ascii c) - 48 in
  if (0 <=? k) && (k <? 10) then Some k else None.

(** Read [w] digits after the value [acc] read so far. *)
Fixpoint read_digits (w : nat) (acc : Z) (s : string) : option (Z * string) :=
  match w with
  | O => Some (acc, s)
  | S w' =>
      match s with
      | EmptyString => None
      | String c s' =>
          match digit_val c with
          | Some k => read_digits w' (acc * 10 + k) s'
          | None => None
          end
      end
  end.

Definition expect (c : ascii) (s : string) : option string :=
  match s with
  | String c' s' => if decide (c' = c) then Some s' else None
  | EmptyString => None
  end.

(** The separator of date and time is any one character. *)
Definition skip_sep (s : string) : option string :=
  match s with String _ s' => Some s' | EmptyString => None end.

(** The value, or [None] where [fromisoformat] raises [ValueError]: a
    string of another layout, or fields out of range. *)
Definition decode (s : string) : option t :=
  '(y, s) ← read_digits 4 0 s; s ← expect "-" s;
  '(mo, s) ← read_digits 2 0 s; s ← expect "-" s;
  '(dd, s) ← read_digits 2 0 s; s ← skip_sep s;
  '(h, s) ← read_digits 2 0 s; s ← expect ":" s;
  '(mi, s) ← read_digits 2 0 s; s ← expect ":" s;
  '(se, s) ← read_digits 2 0 s; s ← expect "." s;
  '(us, s) ← read_digits 6 0 s;
  match s with
  | EmptyString => let d := mk y mo dd h mi se us in if valid d then Some d else None
  | String _ _ => None
  end.

(** ** Fixed-width digits *)

Lemma digit_val_digit (k : Z) : 0 <= k < 10 -> digit_val (digit k) = Some k.
Proof.
  intros Hk. assert (k = 0 \/ k = 1 \/ k = 2 \/ k = 3 \/ k = 4 \/ k = 5 \/ k = 6 \/ k = 7 \/
                     k = 8 \/ k = 9) as Hc by lia.
  repeat destruct Hc as [->|Hc]; try reflexivity. subst. reflexivity.
Qed.

Lemma pow10_succ (w : nat) : 10 ^ Z.of_nat (S w) = 10 * 10 ^ Z.of_nat w.
Proof. rewrite Nat2Z.inj_succ, Z.pow_succ_r by lia. reflexivity. Qed.

Lemma pow10_pos (w : nat) : 0 < 10 ^ Z.of_nat w.
Proof. apply Z.pow_pos_nonneg; lia. Qed.

Lemma string_app_cons (c : ascii) (s1 s2 : string) : String c s1 +:+ s2 = String c (s1 +:+ s2).
Proof. reflexivity. Qed.

(** Reading back [w] digits written by [fixed]. *)
Lemma read_digits_fixed (w : nat) (acc n : Z) (s : string) :
  0 <= n < 10 ^ Z.of_nat w ->
  read_digits w acc (fixed w n +:+ s) = Some (acc * 10 ^ Z.of_nat w + n, s).
Proof.
  revert acc n. induction w as [|w IH]; intros acc n Hn.
  - cbn in *. f_equal. f_equal. lia.
  - rewrite pow10_succ in Hn. pose proof (pow10_pos w) as Hp.
    assert (Hq : 0 <= n / 10 ^ Z.of_nat w < 10).
    { split; [apply Z.div_pos; lia|]. apply Z.div_lt_upper_bound; lia. }
    cbn [fixed]. rewrite string_app_cons. cbn [read_digits]. rewrite digit_val_digit by exact Hq.
    rewrite IH by (apply Z.mod_pos_bound; exact Hp).
    rewrite pow10_succ. f_equal. f_equal.
    pose proof (Z.div_mod n (10 ^ Z.of_nat w) ltac:(lia)). lia.
Qed.

Lemma ndigits_fuel_le (fuel : nat) (n : Z) (w : nat) :
  0 <= n < 10 ^ Z.of_nat w -> (1 <= w)%nat -> (ndigits_fuel fuel n <= w)%nat.
Proof.
  revert n w. induction fuel as [|f IH]; intros n w Hn Hw; cbn; [lia|].
  destruct (Z.ltb_spec n 10); [lia|].
  destruct w as [|[|w]]; [lia| cbn in Hn; lia |].
  rewrite pow10_succ in Hn.
  assert (ndigits_fuel f (n / 10) <= S w)%nat; [|lia].
  apply IH; [|lia]. split; [apply Z.div_pos; lia|]. apply Z.div_lt_upper_bound; lia.
Qed.

(** [%0wd] of a number that fits in [w] digits is the fixed-width
    rendering: the storage format writes exactly 4, 2 or 6 digits for
    every field of a valid [datetime]. *)
Lemma format_int_fixed (w : nat) (n : Z) :
  (1 <= w)%nat -> 0 <= n < 10 ^ Z.of_nat w -> format_int w n = fixed w n.
Proof.
  intros Hw Hn. unfold format_int. destruct (Z.ltb_spec n 0); [lia|].
  unfold ndigits. rewrite Nat.max_l; [reflexivity|]. now apply ndigits_fuel_le.
Qed.

(** The ranges of the fields of a valid [datetime]. *)
Lemma valid_bounds (d : t) :
  valid d = true ->
  1 <= year d <= 9999 /\ 1 <= month d <= 12 /\ 1 <= day d <= days_in_month (year d) (month d) /\
  0 <= hour d <= 23 /\ 0 <= minute d <= 59 /\ 0 <= second d <= 59 /\ 0 <= microsecond d <= 999999.
Proof. unfold valid, MINYEAR, MAXYEAR. intros H. repeat rewrite andb_true_iff, ?Z.leb_le in H. lia. Qed.

Lemma days_in_month_le (y m : Z) : 1 <= m <= 12 -> days_in_month y m <= 31.
Proof.
  intros Hm. unfold days_in_month. destruct (_ && _); [lia|].
  assert (Hd : Forall (fun x => x <= 31) DAYS_IN_MONTH) by (repeat constructor; lia).
  destruct (nth_in_or_default (Z.to_nat m) DAYS_IN_MONTH 0) as [Hin| ->]; [|lia].
  rewrite Forall_forall in Hd. exact (Hd _ Hin).
Qed.


(** The text [encode] writes for a valid datetime parses back to it. *)
Lemma decode_encode_valid (d : t) : valid d = true -> decode (encode d) = Some d.
Proof.
  intros Hv. pose proof (valid_bounds d Hv) as Hb.
  destruct d as [y mo dd h mi se us]; cbn [year month day hour minute second microsecond] in Hb.
  pose proof (days_in_month_le y mo ltac:(lia)).
  unfold encode; cbn [year month day hour minute second microsecond].
  rewrite !format_int_fixed by (cbn; lia).
  unfold decode.
  repeat (first [rewrite read_digits_fixed by (cbn; lia) | rewrite decide_True by reflexivity];
          cbn -[read_digits fixed valid]).
  change (fixed 6 us) with (fixed 6 us +:+ EmptyString).
  rewrite read_digits_fixed by (cbn; lia). cbn -[valid]. rewrite !Z.mul_0_l, !Z.add_0_l, Hv. reflexivity.
Qed.

(** C20: the round trip of the storage format: the string SQLAlchemy
    writes for a valid [datetime] is read back by [fromisoformat] as the
    same [datetime]. *)
Theorem decode_encode (d : t) : valid d = true -> decode (encode d) = Some d.
Proof. intros; eapply decode_encode_valid; eassumption. Qed.

(** ** Witnesses *)

Lemma decode_encode_witness :
  decode (encode (mk 2024 2 29 23 59 59 999999)) = Some (mk 2024 2 29 23 59 59 999999).
Proof. apply decode_encode. reflexivity. Defined.

(** ** Comparison *)

Lemma cmp_refl (d : t) : cmp d d = Eq.
Proof. unfold cmp. rewrite !Z.compare_refl. reflexivity. Qed.

Lemma le_refl (d : t) : le d d = true.
Proof. unfold le. now rewrite cmp_refl. Qed.

End Datetime.

#[export] Existing Instance Datetime.eq_dec.
