(* ===== verification/Sqlite.v ===== *)
(** * The [books] table in SQLite

    [Base.metadata.create_all] (src/main.py, line 36) creates the table
    of the model [Book] (lines 20-27): [id INTEGER NOT NULL PRIMARY KEY]
    (an alias of SQLite's rowid), and the nullable columns [title],
    [author] and [published_date].  A rowid table is a B-tree keyed by
    rowid, so the table is modelled as the list of its rows in increasing
    rowid order.  This file models the SQLite operations the ORM issues:
    the rowid allocation of an INSERT that gives no rowid (OP_NewRowid),
    the INSERT itself, [SELECT ... WHERE id = ?] and the full scan of
    [SELECT ... FROM books], with the table invariant and the facts the
    ORM relies on. *)

From S2P Require Import Prelude.

Module Table.
Local Open Scope Z_scope.

(** A row of [books]; [NULL] is [None].  SQLite has no date type: a
    [DateTime] value is stored as the text [Datetime.encode] writes. *)
Record row : Type := mkRow {
  rowid : Z;
  col_title : option string;
  col_author : option string;
  col_published : option string
}.

#[export] Instance row_eq_dec : EqDecision row.
Proof. solve_decision. Defined.

Definition table : Type := list row.

(** The largest rowid, a signed 64-bit integer. *)
Definition MAX_ROWID : Z := 2 ^ 63 - 1.

(** The number of random rowids OP_NewRowid tries before SQLITE_FULL. *)
Definition RANDOM_ROWID_TRIES : nat := 100.

Inductive sqlite_error : Type :=
| SQLITE_FULL.

Definition rowid_used (t : table) (v : Z) : bool :=
  existsb (fun r => rowid r =? v) t.

(** One random candidate: [v &= (MAX_ROWID>>1); v++]. *)
Definition random_candidate (bits : Z) : Z :=
  Z.land bits (Z.shiftr MAX_ROWID 1) + 1.

(** The probing loop: draw, and stop at the first unused candidate or
    after [tries] draws.  [k] indexes the random oracle [rand]; the new
    index is returned. *)
Fixpoint probe (tries : nat) (rand : nat -> Z) (k : nat) (t : table)
  : option Z * nat :=
  match tries with
  | O => (None, k)
  | S tries' =>
      let v := random_candidate (rand k) in
      if rowid_used t v then probe tries' rand (S k) t else (Some v, S k)
  end.

(** [sqlite3BtreeLast]: the row with the largest key. *)
Fixpoint btree_last (t : table) : option row :=
  match t with
  | [] => None
  | [r] => Some r
  | _ :: t' => btree_last t'
  end.

(** OP_NewRowid: 1 in an empty table, the largest rowid plus one while
    it is below [MAX_ROWID], random probing otherwise. *)
Definition new_rowid (rand : nat -> Z) (k : nat) (t : table)
  : option Z * nat :=
  match btree_last t with
  | None => (Some 1, k)
  | Some r =>
      if rowid r <? MAX_ROWID then (Some (rowid r + 1), k)
      else probe RANDOM_ROWID_TRIES rand k t
  end.

(** The B-tree insertion of a row at its key. *)
Fixpoint insert_row (r : row) (t : table) : table :=
  match t with
  | [] => [r]
  | r' :: t' => if rowid r <? rowid r' then r :: t else r' :: insert_row r t'
  end.

(** [INSERT INTO books (title, author, published_date) VALUES (?, ?, ?)]. *)
Definition insert (rand : nat -> Z) (k : nat) (title author : option string)
    (published : option string) (t : table)
  : (sqlite_error + (Z * table)) * nat :=
  match new_rowid rand k t with
  | (Some v, k') => (inr (v, insert_row (mkRow v title author published) t), k')
  | (None, k') => (inl SQLITE_FULL, k')
  end.

(** [SELECT ... FROM books WHERE books.id = ?]. *)
Definition select_by_id (t : table) (v : Z) : option row :=
  find (fun r => rowid r =? v) t.

(** [SELECT ... FROM books]: a scan of the rowid B-tree. *)
Definition scan (t : table) : list row := t.

(** The table invariant: rowids strictly increasing (the B-tree
    order) and within [1, MAX_ROWID]. *)
Definition table_wf (t : table) : Prop :=
  increasing (map rowid t) /\ Forall (fun r => 1 <= rowid r <= MAX_ROWID) t.

(** The rows the application writes carry a title, an author and a
    publication date. *)
Definition row_complete (r : row) : Prop :=
  is_Some (col_title r) /\ is_Some (col_author r) /\ is_Some (col_published r).

(** The reference the documentation gives for the usual new rowid:
    "one larger than the largest ROWID currently in use", the maximum
    over every row (0 in an empty table). *)
Definition max_rowid (t : table) : Z :=
  fold_right (fun r m => Z.max (rowid r) m) 0 t.


(** ** Lemmas on the B-tree order *)

Lemma insert_row_perm (r : row) (t : table) :
  Permutation (insert_row r t) (r :: t).
Proof.
  induction t as [|r' t IH]; simpl; [reflexivity|].
  destruct (rowid r <? rowid r'); [reflexivity|].
  rewrite IH. apply perm_swap.
Qed.

Lemma Forall_insert_row (P : row -> Prop) (r : row) (t : table) :
  P r -> Forall P t -> Forall P (insert_row r t).
Proof.
  intros Hr Ht. apply (Permutation_Forall (Permutation_sym (insert_row_perm r t))).
  now constructor.
Qed.

Lemma increasing_cons_iff (z : Z) (l : list Z) :
  increasing (z :: l) <-> increasing l /\ Forall (Z.lt z) l.
Proof.
  split; [intros H; now apply StronglySorted_inv in H|].
  intros [H1 H2]. now constructor.
Qed.

(** Every rowid of a sorted table is at most the one [btree_last]
    returns, and that row is in the table. *)
Lemma btree_last_spec (t : table) (r : row) :
  increasing (map rowid t) -> btree_last t = Some r ->
  In r t /\ Forall (fun r' => rowid r' <= rowid r) t.
Proof.
  induction t as [|r0 t IH]; [discriminate|].
  intros Hinc Hlast. apply increasing_cons_iff in Hinc as [Hinc Hlt].
  destruct t as [|r1 t]; simpl in Hlast.
  - invc Hlast. split; [now left|]. constructor; [lia|constructor].
  - destruct (IH Hinc Hlast) as [Hin Hall]. split; [now right|].
    constructor; [|exact Hall].
    rewrite Forall_forall in Hall. specialize (Hall r Hin).
    rewrite Forall_forall in Hlt.
    assert (In (rowid r) (map rowid (r1 :: t))) as Hm by (apply in_map; exact Hin).
    specialize (Hlt _ Hm). lia.
Qed.

Lemma rowid_used_false (t : table) (v : Z) :
  rowid_used t v = false <-> ~ In v (map rowid t).
Proof.
  unfold rowid_used. rewrite <- not_true_iff_false, existsb_exists.
  split; intros H; contradict H.
  - apply in_map_iff in H as (r & <- & Hr). exists r. split; [exact Hr|apply Z.eqb_refl].
  - destruct H as (r & Hr & Heq). apply Z.eqb_eq in Heq. subst. now apply in_map.
Qed.

Lemma random_candidate_bounds (bits : Z) :
  1 <= random_candidate bits <= 2 ^ 62.
Proof.
  unfold random_candidate, MAX_ROWID.
  assert (Hm : Z.shiftr (2 ^ 63 - 1) 1 = 2 ^ 62 - 1) by reflexivity.
  rewrite Hm. pose proof (Z.land_ones bits 62) as Hl.
  replace (Z.ones 62) with (2 ^ 62 - 1) in Hl by reflexivity.
  rewrite Hl by lia. pose proof (Z.mod_pos_bound bits (2 ^ 62)). lia.
Qed.

Lemma probe_fresh (n : nat) (rand : nat -> Z) (k : nat) (t : table) (v : Z) (k' : nat) :
  probe n rand k t = (Some v, k') ->
  ~ In v (map rowid t) /\ 1 <= v <= 2 ^ 62.
Proof.
  revert k. induction n as [|n IH]; intros k; simpl; [discriminate|].
  destruct (rowid_used t (random_candidate (rand k))) eqn:Hu; [apply IH|].
  intros H. invc H. split; [now apply rowid_used_false|apply random_candidate_bounds].
Qed.


(** The probing loop fails only when every candidate it drew is used. *)
Lemma probe_none_all_used (n : nat) (rand : nat -> Z) (k : nat) (t : table) (k' : nat) :
  probe n rand k t = (None, k') ->
  Forall (fun i => rowid_used t (random_candidate (rand (k + i)%nat)) = true) (seq 0 n).
Proof.
  revert k. induction n as [|n IH]; intros k; simpl; [constructor|].
  destruct (rowid_used t (random_candidate (rand k))) eqn:Hu; [|discriminate].
  intros Hp. constructor; [now rewrite Nat.add_0_r|].
  rewrite <- seq_shift, Forall_map.
  eapply Forall_impl; [|exact (IH (S k) Hp)]. simpl. intros i Hi.
  now rewrite <- Nat.add_succ_comm.
Qed.

Lemma btree_last_None (t : table) : btree_last t = None -> t = [].
Proof.
  induction t as [|r [|r' t] IH]; simpl; intros H; try discriminate; auto.
  specialize (IH H). discriminate.
Qed.

(** Inserting a key above every key appends the row. *)
Lemma insert_row_above (r : row) (t : table) :
  Forall (fun r' => rowid r' < rowid r) t -> insert_row r t = t ++ [r].
Proof.
  induction t as [|r' t IH]; simpl; intros Hall; [reflexivity|].
  invc Hall. destruct (Z.ltb_spec (rowid r) (rowid r')); [lia|].
  f_equal. now apply IH.
Qed.

Lemma insert_row_increasing (r : row) (t : table) :
  increasing (map rowid t) -> ~ In (rowid r) (map rowid t) ->
  increasing (map rowid (insert_row r t)).
Proof.
  induction t as [|r' t IH]; simpl; intros Hinc Hfresh.
  - repeat constructor.
  - apply increasing_cons_iff in Hinc as [Hinc Hlt].
    destruct (Z.ltb_spec (rowid r) (rowid r')).
    + simpl. apply increasing_cons_iff. split; [now apply increasing_cons_iff|].
      constructor; [exact H|].
      eapply Forall_impl; [|exact Hlt]. simpl. intros; lia.
    + apply increasing_cons_iff. split; [apply IH; tauto|].
      apply Forall_map, Forall_insert_row.
      * assert (rowid r' <> rowid r) by tauto. lia.
      * now apply Forall_map.
Qed.

(** A key absent from the table is not found. *)
Lemma select_by_id_absent (t : table) (v : Z) :
  ~ In v (map rowid t) -> select_by_id t v = None.
Proof.
  induction t as [|r t IH]; simpl; intros H; [reflexivity|].
  destruct (Z.eqb_spec (rowid r) v); [tauto|]. apply IH. tauto.
Qed.

Lemma select_by_id_insert_row (r : row) (t : table) :
  ~ In (rowid r) (map rowid t) -> select_by_id (insert_row r t) (rowid r) = Some r.
Proof.
  induction t as [|r' t IH]; simpl; intros Hfresh.
  - now rewrite Z.eqb_refl.
  - destruct (rowid r <? rowid r'); simpl.
    + now rewrite Z.eqb_refl.
    + destruct (Z.eqb_spec (rowid r') (rowid r)); [exfalso; tauto|]. apply IH. tauto.
Qed.


(** The rowid OP_NewRowid gives while the largest rowid is below
    [MAX_ROWID]: the largest plus one, or 1 in an empty table. *)
Definition next_rowid (t : table) : Z :=
  match btree_last t with
  | Some r => rowid r + 1
  | None => 1
  end.

(** Below the bound, an INSERT appends the row with the next rowid and
    draws no random number. *)
Lemma insert_below_max (rand : nat -> Z) (k : nat) (ti au : option string) (pd : option string)
    (t : table) :
  table_wf t -> (forall r, btree_last t = Some r -> rowid r < MAX_ROWID) ->
  insert rand k ti au pd t =
  (inr (next_rowid t, t ++ [mkRow (next_rowid t) ti au pd]), k).
Proof.
  intros [Hinc _] Hmax. unfold insert, new_rowid, next_rowid.
  destruct (btree_last t) as [r|] eqn:Hl.
  - specialize (Hmax r eq_refl). destruct (Z.ltb_spec (rowid r) MAX_ROWID); [|lia].
    rewrite insert_row_above; [reflexivity|]. simpl.
    destruct (btree_last_spec t r Hinc Hl) as [_ Hall].
    eapply Forall_impl; [|exact Hall]. simpl. intros; lia.
  - apply btree_last_None in Hl. subst. reflexivity.
Qed.

(** ** Properties of the SQLite operations *)


(** The rowid OP_NewRowid returns on a well-formed table is unused and in range. *)
Lemma new_rowid_unused (rand : nat -> Z) (k : nat) (t : table) (v : Z) (k' : nat) :
  table_wf t -> new_rowid rand k t = (Some v, k') ->
  ~ In v (map rowid t) /\ 1 <= v <= MAX_ROWID.
Proof.
  intros [Hinc Hb]. unfold new_rowid.
  destruct (btree_last t) as [r|] eqn:Hl.
  - destruct (btree_last_spec t r Hinc Hl) as [_ Hall].
    destruct (Z.ltb_spec (rowid r) MAX_ROWID) as [Hlt|Hge].
    + intros H. invc H. split.
      * intros Hin. apply in_map_iff in Hin as (r' & Heq & Hr').
        rewrite Forall_forall in Hall. specialize (Hall r' Hr'). lia.
      * rewrite Forall_forall in Hb. destruct t; [discriminate|].
        destruct (btree_last_spec _ r Hinc Hl) as [Hin _]. specialize (Hb r Hin). lia.
    + intros Hp. destruct (probe_fresh _ _ _ _ _ _ Hp) as [Hf Hv].
      split; [exact Hf|unfold MAX_ROWID; lia].
  - apply btree_last_None in Hl. subst. intros H. invc H.
    split; [simpl; tauto|unfold MAX_ROWID; lia].
Qed.


(** A successful INSERT on a well-formed table: the table after, its rows, and the row found by id. *)
Lemma insert_spec (rand : nat -> Z) (k : nat) (ti au : option string) (pd : option string)
    (t : table) (v : Z) (t' : table) (k' : nat) :
  table_wf t -> insert rand k ti au pd t = (inr (v, t'), k') ->
  table_wf t' /\ Permutation t' (mkRow v ti au pd :: t) /\
  select_by_id t' v = Some (mkRow v ti au pd).
Proof.
  intros Hwf. unfold insert.
  destruct (new_rowid rand k t) as [[v0|] k0] eqn:Hn; [|discriminate].
  intros H. invc H.
  destruct (new_rowid_unused rand k t v k' Hwf Hn) as [Hf Hv].
  destruct Hwf as [Hinc Hb].
  split; [split|split].
  - now apply (insert_row_increasing (mkRow v ti au pd)).
  - now apply Forall_insert_row.
  - apply insert_row_perm.
  - now apply (select_by_id_insert_row (mkRow v ti au pd)).
Qed.

(** C21: on a well-formed table, a rowid that
    OP_NewRowid returns is used by no row and lies in [1, MAX_ROWID]:
    the increment happens only below [MAX_ROWID], so the signed 64-bit
    key never overflows. *)
Theorem new_rowid_fresh (rand : nat -> Z) (k : nat) (t : table) (v : Z) (k' : nat) :
  table_wf t -> new_rowid rand k t = (Some v, k') ->
  ~ In v (map rowid t) /\ 1 <= v <= MAX_ROWID.
Proof. intros; eapply new_rowid_unused; eassumption. Qed.

(** C25: while the largest rowid is below
    [MAX_ROWID], OP_NewRowid draws no random number and returns a
    rowid above every rowid of the table, so successive inserts get
    increasing ids. *)
Theorem new_rowid_above (rand : nat -> Z) (k : nat) (t : table) (v : Z) (k' : nat) :
  table_wf t ->
  (forall r, btree_last t = Some r -> rowid r < MAX_ROWID) ->
  new_rowid rand k t = (Some v, k') ->
  Forall (fun r => rowid r < v) t /\ k' = k.
Proof.
  intros [Hinc _] Hmax. unfold new_rowid.
  destruct (btree_last t) as [r|] eqn:Hl.
  - specialize (Hmax r eq_refl).
    destruct (Z.ltb_spec (rowid r) MAX_ROWID); [|lia].
    intros Hn. invc Hn. split; [|reflexivity].
    destruct (btree_last_spec t r Hinc Hl) as [_ Hall].
    eapply Forall_impl; [|exact Hall]. simpl. intros; lia.
  - apply btree_last_None in Hl. subst. intros H. invc H. split; constructor.
Qed.

(** C22: a successful INSERT on a well-formed table gives
    a well-formed table holding the old rows and the new one, which a
    [SELECT ... WHERE id = ?] on the returned id finds. *)
Theorem insert_wf (rand : nat -> Z) (k : nat) (ti au : option string) (pd : option string)
    (t : table) (v : Z) (t' : table) (k' : nat) :
  table_wf t -> insert rand k ti au pd t = (inr (v, t'), k') ->
  table_wf t' /\ Permutation t' (mkRow v ti au pd :: t) /\
  select_by_id t' v = Some (mkRow v ti au pd).
Proof. intros; eapply insert_spec; eassumption. Qed.

(** C26: on a well-formed table an INSERT fails with
    SQLITE_FULL only when the largest rowid is [MAX_ROWID] and each of
    the 100 random candidates is already used. *)
Theorem insert_full (rand : nat -> Z) (k : nat) (ti au : option string) (pd : option string)
    (t : table) (e : sqlite_error) (k' : nat) :
  insert rand k ti au pd t = (inl e, k') ->
  exists r, btree_last t = Some r /\ MAX_ROWID <= rowid r /\
    Forall (fun i => rowid_used t (random_candidate (rand (k + i)%nat)) = true)
      (seq 0 RANDOM_ROWID_TRIES).
Proof.
  unfold insert, new_rowid.
  destruct (btree_last t) as [r|]; [|discriminate].
  destruct (Z.ltb_spec (rowid r) MAX_ROWID); [discriminate|].
  destruct (probe RANDOM_ROWID_TRIES rand k t) as [[v|] k0] eqn:Hp; [discriminate|].
  intros _. exists r. split; [reflexivity|split; [lia|]].
  exact (probe_none_all_used _ _ _ _ _ Hp).
Qed.


(** The maximum of the rows is the bound of every row, and is reached
    in a non-empty table of positive rowids. *)
Lemma max_rowid_bound (t : table) (m : Z) :
  0 <= m -> Forall (fun r => rowid r <= m) t -> max_rowid t <= m.
Proof. intros Hm. induction 1; simpl; lia. Qed.

Lemma max_rowid_ge (t : table) (r : row) : In r t -> rowid r <= max_rowid t.
Proof. induction t as [|r' t IH]; [easy|]. intros [->|Hin]; simpl; [lia|]. specialize (IH Hin). lia. Qed.

(** C23: on a well-formed table, the last key of the B-tree that
    OP_NewRowid reads is the maximum over all rows: while that maximum is
    below [MAX_ROWID] the new rowid is exactly the documented "largest
    rowid in use plus one", with no random draw. *)
Theorem new_rowid_max (rand : nat -> Z) (k : nat) (t : table) :
  table_wf t -> max_rowid t < MAX_ROWID -> new_rowid rand k t = (Some (max_rowid t + 1), k).
Proof.
  intros [Hinc Hb] Hlt. unfold new_rowid.
  destruct (btree_last t) as [r|] eqn:Hl.
  - destruct (btree_last_spec t r Hinc Hl) as [Hin Hall].
    assert (Hr : rowid r = max_rowid t).
    { pose proof (max_rowid_ge t r Hin). rewrite Forall_forall in Hb. specialize (Hb r Hin).
      pose proof (max_rowid_bound t (rowid r) ltac:(lia) Hall). lia. }
    rewrite Hr. destruct (Z.ltb_spec (max_rowid t) MAX_ROWID); [reflexivity|lia].
  - apply btree_last_None in Hl. subst. reflexivity.
Qed.

(** The probing loop draws one random number per try, at least one when
    it tries at all, and all of them when it finds no free candidate. *)
Lemma probe_draws (n : nat) (rand : nat -> Z) (k : nat) (t : table) (o : option Z) (k' : nat) :
  probe n rand k t = (o, k') ->
  (k <= k' <= k + n)%nat /\ (0 < n -> k < k')%nat /\ (o = None -> k' = (k + n)%nat).
Proof.
  revert k. induction n as [|n IH]; intros k Hp; cbn in Hp.
  - invc Hp. lia.
  - destruct (rowid_used t _).
    + destruct (IH (S k) Hp) as (H1 & _ & H2). split; [lia|]. split; [lia|].
      intros Ho. specialize (H2 Ho). lia.
    + invc Hp. split; [lia|]. split; [lia|discriminate].
Qed.

(** C24: OP_NewRowid terminates after at most [RANDOM_ROWID_TRIES]
    random draws; it draws none exactly when the table is empty or its
    largest rowid is below [MAX_ROWID], and it reports SQLITE_FULL only
    after drawing all 100. *)
Theorem new_rowid_draws (rand : nat -> Z) (k : nat) (t : table) (o : option Z) (k' : nat) :
  new_rowid rand k t = (o, k') ->
  (k <= k' <= k + RANDOM_ROWID_TRIES)%nat /\
  ((forall r, btree_last t = Some r -> rowid r < MAX_ROWID) <-> k' = k) /\
  (o = None -> k' = (k + RANDOM_ROWID_TRIES)%nat).
Proof.
  unfold new_rowid. destruct (btree_last t) as [r|].
  - destruct (Z.ltb_spec (rowid r) MAX_ROWID) as [Hlt|Hge].
    + intros H. invc H. split; [lia|]. split; [|discriminate].
      split; [reflexivity|]. intros _ r' Hr. invc Hr. exact Hlt.
    + intros Hp. destruct (probe_draws _ _ _ _ _ _ Hp) as (H1 & H2 & H3).
      split; [exact H1|]. split; [|exact H3]. specialize (H2 ltac:(cbv; lia)).
      split; [intros Hb; specialize (Hb r eq_refl); lia|lia].
  - intros H. invc H. split; [lia|]. split; [|discriminate].
    split; [reflexivity|]. intros _ r' Hr. discriminate.
Qed.

(** ** Witnesses *)

Definition table_12 : table := [mkRow 1 (Some "a") (Some "b") (Some "2026-11-09 12:00:00.000000"); mkRow 2 None None None].

Lemma table_12_wf : table_wf table_12.
Proof.
  split; [repeat constructor; simpl; lia|].
  repeat constructor; unfold MAX_ROWID; simpl; lia.
Qed.

Lemma new_rowid_fresh_witness :
  ~ In 3 (map rowid table_12) /\ 1 <= 3 <= MAX_ROWID.
Proof. apply (new_rowid_fresh (fun _ => 0) 0 table_12 3 0); [apply table_12_wf|reflexivity]. Defined.

Lemma new_rowid_above_witness : Forall (fun r => rowid r < 3) table_12 /\ (0 = 0)%nat.
Proof.
  apply (new_rowid_above (fun _ => 0) 0 table_12 3 0);
    [apply table_12_wf|intros r Hr; invc Hr; reflexivity|reflexivity].
Defined.

Lemma insert_wf_witness :
  let t' := [mkRow 1 (Some "a") (Some "b") (Some "2026-11-09 12:00:00.000000"); mkRow 2 None None None;
             mkRow 3 (Some "x") (Some "y") (Some "2026-11-09 12:00:05.000000")] in
  table_wf t' /\ Permutation t' (mkRow 3 (Some "x") (Some "y") (Some "2026-11-09 12:00:05.000000") :: table_12) /\
  select_by_id t' 3 = Some (mkRow 3 (Some "x") (Some "y") (Some "2026-11-09 12:00:05.000000")).
Proof.
  intros t'. subst t'.
  apply (insert_wf (fun _ => 0) 0 (Some "x") (Some "y") (Some "2026-11-09 12:00:05.000000") table_12 3 _ 0%nat);
    [apply table_12_wf|reflexivity].
Defined.

(** A table whose largest rowid is [MAX_ROWID] and whose rows hold every
    candidate the oracle [fun _ => 0] draws, the rowid 1. *)
Lemma new_rowid_max_witness :
  table_wf table_12 /\ max_rowid table_12 < MAX_ROWID /\
  new_rowid (fun _ => 0) 0 table_12 = (Some (max_rowid table_12 + 1), 0%nat).
Proof.
  assert (Hm : max_rowid table_12 < MAX_ROWID) by (vm_compute; reflexivity).
  exact (conj table_12_wf (conj Hm (new_rowid_max (fun _ => 0) 0 table_12 table_12_wf Hm))).
Defined.

Definition table_full : table := [mkRow 1 None None None; mkRow MAX_ROWID None None None].

Lemma insert_full_witness :
  exists r, btree_last table_full = Some r /\ MAX_ROWID <= rowid r /\
    Forall (fun i => rowid_used table_full (random_candidate ((fun _ => 0) (0 + i)%nat)) = true)
      (seq 0 RANDOM_ROWID_TRIES).
Proof. apply (insert_full (fun _ => 0) 0 None None None table_full SQLITE_FULL 100). vm_compute. reflexivity. Defined.

Lemma new_rowid_draws_witness :
  (0 <= 100 <= 0 + RANDOM_ROWID_TRIES)%nat /\
  ((forall r, btree_last table_full = Some r -> rowid r < MAX_ROWID) <-> 100%nat = 0%nat) /\
  (None = @None Z -> 100%nat = (0 + RANDOM_ROWID_TRIES)%nat).
Proof. exact (new_rowid_draws (fun _ => 0) 0 table_full None 100 ltac:(vm_compute; reflexivity)). Defined.

End Table.
