(* ===== verification/Json.v ===== *)
(** * Request bodies as JSON values, and pydantic's field checks

    FastAPI decodes a JSON request body with Python's [json.loads] and
    hands the decoded value to pydantic, which validates it against the
    body parameter's model ([BookCreate], src/main.py lines 47-49).  This
    file holds the decoded values, the dictionary lookup of a decoded
    object, and the error records pydantic 2 reports.  It models library
    behaviour, not code of src/: the decoded values of [json.loads], the
    [str] check of pydantic's lax mode, and the error types ["missing"],
    ["string_type"], ["int_type"], ["datetime_type"] and
    ["model_attributes_type"], with FastAPI's ["json_invalid"].  JSON numbers are kept as integers: no
    validator of this program accepts a number where it expects a string,
    so the fractional part never matters. *)

From S2P Require Import Prelude.

Local Set Warnings "-register-all".

Module Json.

Inductive json : Type :=
| JNull
| JBool (b : bool)
| JNum (n : Z)
| JStr (s : string)
| JArr (items : list json)
| JObj (members : list (string * json)).

(** [d[k]] on the dict [json.loads] builds: a later occurrence of a
    duplicated key overwrites an earlier one. *)
Fixpoint obj_get (members : list (string * json)) (k : string) : option json :=
  match members with
  | [] => None
  | (k', v) :: rest =>
      match obj_get rest k with
      | Some v' => Some v'
      | None => if String.eqb k k' then Some v else None
      end
  end.

(** The error types pydantic 2 reports for this program's schemas. *)
Inductive error_type : Type :=
| Missing
| StringType
| IntType
| DatetimeType
| ModelAttributesType
| JsonInvalid.

#[export] Instance error_type_eq_dec : EqDecision error_type.
Proof. solve_decision. Defined.

(** An item of an error's location: a field name or a list index. *)
Inductive loc_item : Type :=
| LKey (k : string)
| LIdx (i : nat).

#[export] Instance loc_item_eq_dec : EqDecision loc_item.
Proof. solve_decision. Defined.

(** The input a validator failed on: a value [json.loads] built, the
    raw bytes of a body that is not JSON (a Python [bytes]), or a Python
    object that is not JSON data (the ORM instance [BookResponse] reads
    attributes from). *)
Inductive py_input : Type :=
| PyJson (v : json)
| PyBytes (raw : string)
| PyObject.

(** An entry of [ValidationError.errors(include_url=False)], as FastAPI
    reports it: its location, its type, the input that failed, and for a
    JSON decoding error the decoder's message ([ctx.error]).  The message
    [msg] is a function of the type. *)
Record verror : Type := mkVerror {
  loc : list loc_item;
  err_type : error_type;
  input : py_input;
  ctx_error : option string
}.

(** The error moved under the location item [l] (a field name or a
    list index), as FastAPI and pydantic prefix nested errors. *)
Definition relocate (l : loc_item) (e : verror) : verror :=
  mkVerror (l :: loc e) (err_type e) (input e) (ctx_error e).

(** [d[k] = v] on a Python dict: an existing key keeps its place. *)
Fixpoint dict_insert (k : string) (v : json) (ms : list (string * json)) : list (string * json) :=
  match ms with
  | [] => [(k, v)]
  | (k', v') :: rest => if String.eqb k k' then (k', v) :: rest else (k', v') :: dict_insert k v rest
  end.

(** The Python value [json.loads] builds from a decoded value: every
    object a [dict], built from its members in order, so a duplicated key
    keeps the place of its first occurrence and the value of its last. *)
Fixpoint py_value (v : json) : json :=
  match v with
  | JArr items => JArr (map py_value items)
  | JObj ms => JObj (fold_left (fun acc kv => dict_insert (fst kv) (py_value (snd kv)) acc) ms [])
  | _ => v
  end.

(** The [str] check of lax mode on a decoded JSON value: only a JSON
    string passes (pydantic 2 does not turn numbers into strings). *)
Definition validate_str (v : json) : option string :=
  match v with
  | JStr s => Some s
  | _ => None
  end.

(** The check of one required [str] field of a model: its errors. *)
Definition str_field (members : list (string * json)) (name : string)
  : list verror + string :=
  match obj_get members name with
  | None => inl [mkVerror [LKey name] Missing (PyJson (py_value (JObj members))) None]
  | Some v =>
      match validate_str v with
      | Some s => inr s
      | None => inl [mkVerror [LKey name] StringType (PyJson (py_value v)) None]
      end
  end.

(** ** Lemmas *)

Lemma obj_get_app_r (m1 m2 : list (string * json)) (k : string) (v : json) :
  obj_get m2 k = Some v -> obj_get (m1 ++ m2) k = Some v.
Proof.
  induction m1 as [|[k' v'] m1 IH]; simpl; intros H; [exact H|].
  now rewrite (IH H).
Qed.

Lemma obj_get_cons_absent (m : list (string * json)) (k : string) (v : json) :
  obj_get m k = None -> obj_get ((k, v) :: m) k = Some v.
Proof. simpl. intros ->. now rewrite String.eqb_refl. Qed.

Lemma str_field_inr (members : list (string * json)) (name s : string) :
  str_field members name = inr s <-> obj_get members name = Some (JStr s).
Proof.
  unfold str_field. destruct (obj_get members name) as [[]|]; simpl;
    split; intros H; congruence.
Qed.

Lemma str_field_missing (members : list (string * json)) (name : string) :
  obj_get members name = None ->
  str_field members name = inl [mkVerror [LKey name] Missing (PyJson (py_value (JObj members))) None].
Proof. unfold str_field. now intros ->. Qed.

End Json.
