(* ===== verification/JsonText.v ===== *)
(** * JSON text: [json.dumps] of the responses and [json.loads]

    A response body leaves the application as the bytes of Starlette's
    [JSONResponse.render]:
      [json.dumps(content, ensure_ascii=False, allow_nan=False,
                  indent=None, separators=(",", ":")).encode("utf-8")]
    and a client reads it back with [json.loads].  This file holds both,
    on the UTF-8 bytes of the text ([list ascii]; the strings of [Json]
    hold UTF-8 bytes as well):
    - [dumps]: [null], [true], [false], an integer as [str(n)] (the
      [%d] of [Datetime.format_int]), a string between quotes with the
      escapes of [json.encoder.ESCAPE_DCT] (quote, backslash, [\b \f \n
      \r \t], [\u00XX] with lower-case hex digits for the other control
      characters; every other byte is written as it is since
      [ensure_ascii] is off), arrays and objects with the separators
      [","] and [":"] and no space;
    - [loads]: the C scanner of [json] ([scanstring], [_match_number],
      [scan_once], strict mode): whitespace around tokens, strings with
      their escapes ([\uXXXX] written in UTF-8, a surrogate pair joined),
      a control character inside a string refused, numbers, the
      literals, arrays, objects, and nothing but whitespace after the
      value.  As in [Json], a number is kept as an integer: a float
      keeps its integer part and [NaN] and [Infinity] read as 0, since
      no value of this program is a number read from JSON.
    Library behaviour, modelled from the CPython sources; the theorem is
    the round trip [loads (dumps v) = Some v]. *)

From S2P Require Import Prelude Datetime Json.
From Stdlib Require Import Ascii.

Import Json.

Module JsonText.
Local Open Scope char_scope.
Local Open Scope nat_scope.

Definition dq : ascii := "034".
Definition bslash : ascii := "092".

(** ** [json.dumps] *)

Definition hex_digit (k : nat) : ascii :=
  if k <? 10 then ascii_of_nat (48 + k) else ascii_of_nat (87 + k).

(** [ESCAPE_DCT]: the text of one byte inside a string. *)
Definition escape_char (c : ascii) : list ascii :=
  let n := nat_of_ascii c in
  if n =? 34 then [bslash; dq]
  else if n =? 92 then [bslash; bslash]
  else if n =? 8 then [bslash; "b"]
  else if n =? 12 then [bslash; "f"]
  else if n =? 10 then [bslash; "n"]
  else if n =? 13 then [bslash; "r"]
  else if n =? 9 then [bslash; "t"]
  else if n <? 32 then [bslash; "u"; "0"; "0"; hex_digit (n / 16); hex_digit (n mod 16)]
  else [c].

Definition dumps_str (s : string) : list ascii :=
  dq :: flat_map escape_char (String.list_ascii_of_string s) ++ [dq].

(** [str(n)]. *)
Definition int_text (n : Z) : list ascii := String.list_ascii_of_string (Datetime.format_int 0 n).

(** The items of a list, with [","] between them. *)
Fixpoint join (xs : list (list ascii)) : list ascii :=
  match xs with
  | [] => []
  | [x] => x
  | x :: xs' => x ++ "," :: join xs'
  end.

Fixpoint dumps (v : json) : list ascii :=
  match v with
  | JNull => ["n"; "u"; "l"; "l"]
  | JBool true => ["t"; "r"; "u"; "e"]
  | JBool false => ["f"; "a"; "l"; "s"; "e"]
  | JNum n => int_text n
  | JStr s => dumps_str s
  | JArr items => "[" :: join (map dumps items) ++ ["]"]
  | JObj members => "{" :: join (map (fun kv => dumps_str (fst kv) ++ ":" :: dumps (snd kv)) members) ++ ["}"]
  end.

(** A byte [dumps] writes as it is inside a string: no control
    character, quote or backslash. *)
Definition plain (c : ascii) : bool :=
  (32 <=? nat_of_ascii c) && negb (nat_of_ascii c =? 34) && negb (nat_of_ascii c =? 92).

(** [bytes.decode("utf-8")] succeeds: the bytes are well-formed UTF-8
    (no overlong form, no surrogate, nothing above U+10FFFF). *)
Definition in_range (lo hi : nat) (c : ascii) : bool := (lo <=? nat_of_ascii c) && (nat_of_ascii c <=? hi).

Fixpoint utf8_valid (s : list ascii) : bool :=
  match s with
  | [] => true
  | c :: r =>
      let n := nat_of_ascii c in
      if n <? 128 then utf8_valid r
      else match r with
        | [] => false
        | c1 :: r1 =>
            if in_range 194 223 c then in_range 128 191 c1 && utf8_valid r1
            else match r1 with
              | [] => false
              | c2 :: r2 =>
                  if in_range 224 239 c then
                    (if n =? 224 then in_range 160 191 c1
                     else if n =? 237 then in_range 128 159 c1 else in_range 128 191 c1)
                    && in_range 128 191 c2 && utf8_valid r2
                  else match r2 with
                    | [] => false
                    | c3 :: r3 =>
                        in_range 240 244 c &&
                        (if n =? 240 then in_range 144 191 c1
                         else if n =? 244 then in_range 128 143 c1 else in_range 128 191 c1)
                        && in_range 128 191 c2 && in_range 128 191 c3 && utf8_valid r3
                    end
              end
        end
  end.

(** ** [json.loads] *)

Definition is_ws (c : ascii) : bool :=
  let n := nat_of_ascii c in (n =? 32) || (n =? 9) || (n =? 10) || (n =? 13).

Fixpoint skip_ws (s : list ascii) : list ascii :=
  match s with
  | c :: s' => if is_ws c then skip_ws s' else s
  | [] => []
  end.

Definition is_digit (c : ascii) : bool := (48 <=? nat_of_ascii c) && (nat_of_ascii c <=? 57).

Definition hex_val (c : ascii) : option Z :=
  let n := nat_of_ascii c in
  if (48 <=? n) && (n <=? 57) then Some (Z.of_nat n - 48)%Z
  else if (97 <=? n) && (n <=? 102) then Some (Z.of_nat n - 87)%Z
  else if (65 <=? n) && (n <=? 70) then Some (Z.of_nat n - 55)%Z
  else None.

(** The four hex digits of [\uXXXX]. *)
Definition hex4 (a b c d : ascii) : option Z :=
  x1 ← hex_val a; x2 ← hex_val b; x3 ← hex_val c; x4 ← hex_val d;
  Some (((x1 * 16 + x2) * 16 + x3) * 16 + x4)%Z.

Definition byte (n : Z) : ascii := ascii_of_nat (Z.to_nat n).

(** The UTF-8 bytes of a code point. *)
Definition utf8 (u : Z) : list ascii :=
  if (u <? 128)%Z then [byte u]
  else if (u <? 2048)%Z then [byte (192 + u / 64); byte (128 + u mod 64)]
  else if (u <? 65536)%Z then [byte (224 + u / 4096); byte (128 + (u / 64) mod 64); byte (128 + u mod 64)]
  else [byte (240 + u / 262144); byte (128 + (u / 4096) mod 64); byte (128 + (u / 64) mod 64);
        byte (128 + u mod 64)].

Definition is_high (u : Z) : bool := (55296 <=? u)%Z && (u <=? 56319)%Z.
Definition is_low (u : Z) : bool := (56320 <=? u)%Z && (u <=? 57343)%Z.

(** The byte of a one-letter escape. *)
Definition simple_escape (e : ascii) : option ascii :=
  match e with
  | "034" => Some dq
  | "092" => Some bslash
  | "/" => Some "/"
  | "b" => Some "008"
  | "f" => Some "012"
  | "n" => Some "010"
  | "r" => Some "013"
  | "t" => Some "009"
  | _ => None
  end.

Definition prepend (x : list ascii) (o : option (list ascii * list ascii)) : option (list ascii * list ascii) :=
  '(y, r) ← o; Some (x ++ y, r).

(** [scanstring], after the opening quote: the bytes of the string and
    the text after the closing quote; [None] where it raises
    [JSONDecodeError] (unterminated string, invalid escape, invalid
    control character). *)
Fixpoint scan_string (s : list ascii) : option (list ascii * list ascii) :=
  match s with
  | [] => None
  | c :: s' =>
      if decide (c = dq) then Some ([], s')
      else if decide (c = bslash) then
        match s' with
        | "u" :: h1 :: h2 :: h3 :: h4 :: r =>
            match hex4 h1 h2 h3 h4 with
            | None => None
            | Some u =>
                if is_high u then
                  match r with
                  | "092" :: "u" :: l1 :: l2 :: l3 :: l4 :: r' =>
                      match hex4 l1 l2 l3 l4 with
                      | None => None
                      | Some u2 =>
                          if is_low u2
                          then prepend (utf8 (65536 + (u - 55296) * 1024 + (u2 - 56320))%Z) (scan_string r')
                          else prepend (utf8 u) (scan_string r)
                      end
                  | _ => prepend (utf8 u) (scan_string r)
                  end
                else prepend (utf8 u) (scan_string r)
            end
        | e :: r =>
            match simple_escape e with
            | Some d => prepend [d] (scan_string r)
            | None => None
            end
        | [] => None
        end
      else if nat_of_ascii c <? 32 then None
      else prepend [c] (scan_string s')
  end.

(** The longest run of digits at the head of the text. *)
Fixpoint span_digits (s : list ascii) : list ascii * list ascii :=
  match s with
  | c :: s' => if is_digit c then let '(ds, r) := span_digits s' in (c :: ds, r) else ([], s)
  | [] => ([], [])
  end.

Definition digits_value (ds : list ascii) : Z :=
  fold_left (fun acc c => acc * 10 + (Z.of_nat (nat_of_ascii c) - 48))%Z ds 0%Z.

(** [_match_number]: an optional minus, then [0] or a digit run not
    starting with [0], then an optional fraction and an optional
    exponent, each read only when well formed. *)
Definition number_int (s : list ascii) : option (Z * list ascii) :=
  match s with
  | "0" :: r => Some (0%Z, r)
  | c :: r => if is_digit c then let '(ds, r') := span_digits r in Some (digits_value (c :: ds), r')
              else None
  | [] => None
  end.

Definition number_frac (s : list ascii) : list ascii :=
  match s with
  | "." :: d :: r => if is_digit d then snd (span_digits r) else s
  | _ => s
  end.

Definition number_exp (s : list ascii) : list ascii :=
  match s with
  | e :: r =>
      if bool_decide (e = "e") || bool_decide (e = "E") then
        let r' := match r with "+" :: x => x | "-" :: x => x | _ => r end in
        match r' with
        | d :: x => if is_digit d then snd (span_digits x) else s
        | [] => s
        end
      else s
  | [] => s
  end.

Definition scan_number (s : list ascii) : option (Z * list ascii) :=
  let '(neg, s1) := match s with "-" :: r => (true, r) | _ => (false, s) end in
  '(n, r) ← number_int s1;
  Some ((if neg then - n else n)%Z, number_exp (number_frac r)).

Definition starts_with (c : ascii) (s : list ascii) : bool :=
  match s with
  | c' :: _ => bool_decide (c' = c)
  | [] => false
  end.

(** [scan_once], the arrays and the objects.  The fuel bounds the
    nesting and the number of items; [loads] gives one per byte of the
    text, which every step consumes. *)
Fixpoint scan_value (fuel : nat) (s : list ascii) : option (json * list ascii) :=
  match fuel with
  | O => None
  | S f =>
      match s with
      | "034" :: r => '(x, r') ← scan_string r; Some (JStr (String.string_of_list_ascii x), r')
      | "{" :: r =>
          let r1 := skip_ws r in
          if starts_with "}" r1 then Some (JObj [], tail r1)
          else '(ms, r') ← scan_members f r1; Some (JObj ms, r')
      | "[" :: r =>
          let r1 := skip_ws r in
          if starts_with "]" r1 then Some (JArr [], tail r1)
          else '(xs, r') ← scan_items f r1; Some (JArr xs, r')
      | "n" :: "u" :: "l" :: "l" :: r => Some (JNull, r)
      | "t" :: "r" :: "u" :: "e" :: r => Some (JBool true, r)
      | "f" :: "a" :: "l" :: "s" :: "e" :: r => Some (JBool false, r)
      | "N" :: "a" :: "N" :: r => Some (JNum 0, r)
      | "I" :: "n" :: "f" :: "i" :: "n" :: "i" :: "t" :: "y" :: r => Some (JNum 0, r)
      | "-" :: "I" :: "n" :: "f" :: "i" :: "n" :: "i" :: "t" :: "y" :: r => Some (JNum 0, r)
      | _ => '(n, r) ← scan_number s; Some (JNum n, r)
      end
  end
with scan_items (fuel : nat) (s : list ascii) : option (list json * list ascii) :=
  match fuel with
  | O => None
  | S f =>
      '(v, r) ← scan_value f s;
      match skip_ws r with
      | "," :: r' => '(vs, r'') ← scan_items f (skip_ws r'); Some (v :: vs, r'')
      | "]" :: r' => Some ([v], r')
      | _ => None
      end
  end
with scan_members (fuel : nat) (s : list ascii) : option (list (string * json) * list ascii) :=
  match fuel with
  | O => None
  | S f =>
      match s with
      | "034" :: r =>
          '(k, r1) ← scan_string r;
          match skip_ws r1 with
          | ":" :: r2 =>
              '(v, r3) ← scan_value f (skip_ws r2);
              match skip_ws r3 with
              | "," :: r4 =>
                  '(ms, r5) ← scan_members f (skip_ws r4);
                  Some ((String.string_of_list_ascii k, v) :: ms, r5)
              | "}" :: r4 => Some ([(String.string_of_list_ascii k, v)], r4)
              | _ => None
              end
          | _ => None
          end
      | _ => None
      end
  end.

(** [json.loads] on the decoded text: one value, and only whitespace
    after it. *)
Definition loads (s : list ascii) : option json :=
  '(v, r) ← scan_value (S (length s)) (skip_ws s);
  match skip_ws r with
  | [] => Some v
  | _ :: _ => None
  end.

(** ** Strings *)

Lemma escape_plain (c : ascii) : plain c = true -> escape_char c = [c].
Proof.
  unfold plain, escape_char. intros H. apply andb_prop in H as [H H3]. apply andb_prop in H as [H1 H2].
  apply Nat.leb_le in H1. apply negb_true_iff, Nat.eqb_neq in H2, H3.
  repeat match goal with |- context [?a =? ?b] => destruct (Nat.eqb_spec a b); [lia|] end.
  destruct (Nat.ltb_spec (nat_of_ascii c) 32); [lia|reflexivity].
Qed.

(** The text of a string of plain bytes is the string between quotes. *)
Lemma dumps_str_plain (s : string) :
  Forall (fun c => plain c = true) (String.list_ascii_of_string s) ->
  dumps_str s = dq :: String.list_ascii_of_string s ++ [dq].
Proof.
  intros H. unfold dumps_str. f_equal. f_equal.
  induction H as [|c l Hc _ IH]; [reflexivity|]. cbn. rewrite (escape_plain c Hc), IH. reflexivity.
Qed.

(** One byte written by [dumps] is read back by [scanstring]. *)
Lemma scan_escape_char (c : ascii) (r : list ascii) :
  scan_string (escape_char c ++ r) = prepend [c] (scan_string r).
Proof. destruct c as [[] [] [] [] [] [] [] []]; reflexivity. Qed.

Lemma prepend_app (x y : list ascii) (o : option (list ascii * list ascii)) :
  prepend x (prepend y o) = prepend (x ++ y) o.
Proof. destruct o as [[? ?]|]; cbn; [now rewrite app_assoc|reflexivity]. Qed.

Lemma scan_string_escaped (s r : list ascii) :
  scan_string (flat_map escape_char s ++ dq :: r) = Some (s, r).
Proof.
  induction s as [|c s IH]; [reflexivity|].
  cbn [flat_map]. rewrite <- app_assoc, scan_escape_char, IH. reflexivity.
Qed.

Lemma scan_dumps_str (k : string) (r : list ascii) :
  scan_string (tail (dumps_str k) ++ r) = Some (String.list_ascii_of_string k, r).
Proof. unfold dumps_str. cbn [tail]. rewrite <- app_assoc. apply scan_string_escaped. Qed.

(** ** Integers *)

Lemma ndigits_fuel_bounds (f : nat) (n : Z) :
  (1 <= n <= Z.of_nat f)%Z ->
  (10 ^ Z.of_nat (Datetime.ndigits_fuel f n - 1) <= n < 10 ^ Z.of_nat (Datetime.ndigits_fuel f n))%Z.
Proof.
  revert n. induction f as [|f IH]; intros n Hn; [lia|]. cbn [Datetime.ndigits_fuel].
  destruct (Z.ltb_spec n 10) as [Hlt|Hge]; [cbn; lia|].
  assert (Hq : (1 <= n / 10 <= Z.of_nat f)%Z).
  { split; [apply Z.div_le_lower_bound; lia|]. apply Z.div_le_upper_bound; lia. }
  specialize (IH _ Hq). set (k := Datetime.ndigits_fuel f (n / 10)) in *.
  destruct k as [|k]; [cbn in IH; lia|].
  replace (S (S k) - 1) with (S k) by lia. replace (S k - 1) with k in IH by lia.
  rewrite !Datetime.pow10_succ in *. pose proof (Z.div_mod n 10 ltac:(lia)).
  pose proof (Z.mod_pos_bound n 10 ltac:(lia)). lia.
Qed.

(** A positive number has [ndigits] digits, the first one not 0. *)
Lemma ndigits_bounds (n : Z) :
  (0 < n)%Z -> (10 ^ Z.of_nat (Datetime.ndigits n - 1) <= n < 10 ^ Z.of_nat (Datetime.ndigits n))%Z.
Proof. intros Hn. apply ndigits_fuel_bounds. lia. Qed.

Lemma nat_of_digit (q : Z) : (0 <= q < 10)%Z -> nat_of_ascii (Datetime.digit q) = 48 + Z.to_nat q.
Proof. intros Hq. unfold Datetime.digit. apply nat_ascii_embedding. lia. Qed.

Definition digits_from (acc : Z) (ds : list ascii) : Z :=
  fold_left (fun acc c => acc * 10 + (Z.of_nat (nat_of_ascii c) - 48))%Z ds acc.

Lemma fixed_value (w : nat) (acc m : Z) :
  (0 <= m < 10 ^ Z.of_nat w)%Z ->
  digits_from acc (String.list_ascii_of_string (Datetime.fixed w m)) = (acc * 10 ^ Z.of_nat w + m)%Z /\
  Forall (fun c => is_digit c = true) (String.list_ascii_of_string (Datetime.fixed w m)).
Proof.
  revert acc m. induction w as [|w IH]; intros acc m Hm; [cbn in *; split; [lia|constructor]|].
  rewrite Datetime.pow10_succ in Hm. pose proof (Datetime.pow10_pos w) as Hp.
  assert (Hq : (0 <= m / 10 ^ Z.of_nat w < 10)%Z).
  { split; [apply Z.div_pos; lia|]. apply Z.div_lt_upper_bound; lia. }
  cbn [Datetime.fixed String.list_ascii_of_string]. unfold digits_from. cbn [fold_left].
  destruct (IH ((acc * 10 + (Z.of_nat (nat_of_ascii (Datetime.digit (m / 10 ^ Z.of_nat w))) - 48)))%Z
              (m mod 10 ^ Z.of_nat w)%Z ltac:(apply Z.mod_pos_bound; lia)) as [Hv Hd].
  unfold digits_from in Hv. rewrite Hv. split.
  - rewrite nat_of_digit by exact Hq. rewrite Datetime.pow10_succ.
    pose proof (Z.div_mod m (10 ^ Z.of_nat w) ltac:(lia)). lia.
  - constructor; [|exact Hd]. unfold is_digit. rewrite nat_of_digit by exact Hq.
    apply andb_true_iff. split; apply Nat.leb_le; lia.
Qed.

(** What may follow a number without being read as part of it. *)
Definition ends_number (r : list ascii) : Prop :=
  match r with
  | c :: _ => is_digit c = false /\ c <> "." /\ c <> "e" /\ c <> "E"
  | [] => True
  end.

Lemma span_digits_app (ds r : list ascii) :
  Forall (fun c => is_digit c = true) ds -> ends_number r -> span_digits (ds ++ r) = (ds, r).
Proof.
  intros Hds Hr. induction Hds as [|c ds Hc _ IH]; cbn [app].
  - destruct r as [|c r]; [reflexivity|]. destruct Hr as [Hc _]. cbn [span_digits]. now rewrite Hc.
  - cbn [span_digits]. rewrite Hc, IH. reflexivity.
Qed.

(** The fraction and the exponent read nothing before a text that ends
    a number. *)
Lemma number_frac_exp (r : list ascii) : ends_number r -> number_exp (number_frac r) = r.
Proof.
  destruct r as [|c r]; [reflexivity|]. intros (_ & Hdot & He & HE).
  assert (Hf : number_frac (c :: r) = c :: r)
    by (destruct c as [[] [] [] [] [] [] [] []]; try reflexivity; now destruct Hdot).
  rewrite Hf. unfold number_exp. rewrite bool_decide_false by exact He.
  rewrite bool_decide_false by exact HE. reflexivity.
Qed.

Lemma is_digit_cases (c : ascii) :
  is_digit c = true ->
  c = "0" \/ c = "1" \/ c = "2" \/ c = "3" \/ c = "4" \/ c = "5" \/ c = "6" \/ c = "7" \/ c = "8" \/ c = "9".
Proof. destruct c as [[] [] [] [] [] [] [] []]; cbn; intros H; try discriminate H; tauto. Qed.

(** The digits of a positive number, read back: the first one is not
    0, so [_match_number] reads them all. *)
Lemma number_int_digits (m : Z) (r : list ascii) :
  (0 < m)%Z -> ends_number r ->
  number_int (String.list_ascii_of_string (Datetime.fixed (Datetime.ndigits m) m) ++ r) = Some (m, r).
Proof.
  intros Hm Hr. pose proof (ndigits_bounds m Hm) as Hb.
  destruct (Datetime.ndigits m) as [|w] eqn:Hw; [cbn in Hb; lia|]. replace (S w - 1) with w in Hb by lia.
  destruct (fixed_value (S w) 0 m ltac:(lia)) as [Hv Hd].
  rewrite Datetime.pow10_succ in Hb. pose proof (Datetime.pow10_pos w).
  assert (Hq : (1 <= m / 10 ^ Z.of_nat w < 10)%Z).
  { split; [apply Z.div_le_lower_bound; lia|]. apply Z.div_lt_upper_bound; lia. }
  revert Hv Hd. cbn [Datetime.fixed String.list_ascii_of_string].
  set (c := Datetime.digit (m / 10 ^ Z.of_nat w)). set (ds := String.list_ascii_of_string _).
  intros Hv Hd. inversion Hd as [|? ? Hc Hds]; subst.
  assert (Hc0 : nat_of_ascii c <> 48) by (unfold c; rewrite nat_of_digit; lia).
  cbn [app]. rewrite Z.mul_0_l, Z.add_0_l in Hv.
  destruct (is_digit_cases c Hc) as [E|E]; [rewrite E in Hc0; exfalso; apply Hc0; reflexivity|].
  repeat destruct E as [E|E]; rewrite E in *; cbn [number_int];
    rewrite (span_digits_app _ _ Hds Hr); exact (f_equal (fun v => Some (v, r)) Hv).
Qed.

Lemma scan_number_pos (c : ascii) (s : list ascii) :
  c <> "-" -> scan_number (c :: s) = '(n, r) ← number_int (c :: s); Some (n, number_exp (number_frac r)).
Proof. destruct c as [[] [] [] [] [] [] [] []]; intros H; try reflexivity. now destruct H. Qed.

Lemma scan_number_neg (s : list ascii) :
  scan_number ("-" :: s) = '(n, r) ← number_int s; Some ((- n)%Z, number_exp (number_frac r)).
Proof. reflexivity. Qed.

Lemma int_text_nonneg (n : Z) :
  (0 <= n)%Z -> int_text n = String.list_ascii_of_string (Datetime.fixed (Datetime.ndigits n) n).
Proof. intros Hn. unfold int_text, Datetime.format_int. destruct (Z.ltb_spec n 0); [lia|]. reflexivity. Qed.

Lemma int_text_neg (n : Z) :
  (n < 0)%Z -> int_text n = "-" :: String.list_ascii_of_string (Datetime.fixed (Datetime.ndigits (- n)) (- n)).
Proof. intros Hn. unfold int_text, Datetime.format_int. destruct (Z.ltb_spec n 0); [|lia]. reflexivity. Qed.

(** The text of a positive number starts with a digit. *)
Lemma fixed_ndigits_head (m : Z) :
  (0 < m)%Z -> exists c ds, String.list_ascii_of_string (Datetime.fixed (Datetime.ndigits m) m) = c :: ds /\
                           is_digit c = true.
Proof.
  intros Hm. pose proof (ndigits_bounds m Hm) as Hb.
  destruct (fixed_value (Datetime.ndigits m) 0 m ltac:(lia)) as [_ Hd].
  destruct (Datetime.ndigits m) as [|w]; [cbn in Hb; lia|].
  cbn [Datetime.fixed String.list_ascii_of_string] in Hd |- *. inversion Hd; subst. eauto.
Qed.

(** [str(n)] is read back by [_match_number] as [n]. *)
Lemma scan_int (n : Z) (r : list ascii) : ends_number r -> scan_number (int_text n ++ r) = Some (n, r).
Proof.
  intros Hr. destruct (Z.lt_trichotomy n 0) as [Hn|[->|Hn]].
  - rewrite int_text_neg by exact Hn. cbn [app]. rewrite scan_number_neg.
    rewrite number_int_digits by (lia || exact Hr). cbn. rewrite number_frac_exp by exact Hr.
    now rewrite Z.opp_involutive.
  - change (int_text 0) with ["0"]. cbn [app]. rewrite scan_number_pos by discriminate.
    cbn [number_int]. cbn. now rewrite number_frac_exp.
  - rewrite int_text_nonneg by lia. destruct (fixed_ndigits_head n Hn) as (c & ds & Hcd & Hc).
    pose proof (number_int_digits n r Hn Hr) as Hi. rewrite Hcd in Hi |- *. cbn [app] in Hi |- *.
    rewrite scan_number_pos by (intros ->; discriminate Hc). rewrite Hi. cbn.
    now rewrite number_frac_exp.
Qed.

(** ** Values *)

Lemma scan_value_digit (f : nat) (c : ascii) (s : list ascii) :
  is_digit c = true -> scan_value (S f) (c :: s) = '(n, r) ← scan_number (c :: s); Some (JNum n, r).
Proof. intros H. destruct (is_digit_cases c H) as [E|E]; [subst; reflexivity|]. repeat destruct E as [E|E]; subst; reflexivity. Qed.

Lemma scan_value_minus (f : nat) (d : ascii) (s : list ascii) :
  is_digit d = true -> scan_value (S f) ("-" :: d :: s) = '(n, r) ← scan_number ("-" :: d :: s); Some (JNum n, r).
Proof. intros H. destruct (is_digit_cases d H) as [E|E]; [subst; reflexivity|]. repeat destruct E as [E|E]; subst; reflexivity. Qed.

Lemma scan_value_int (f : nat) (n : Z) (r : list ascii) :
  ends_number r -> scan_value (S f) (int_text n ++ r) = Some (JNum n, r).
Proof.
  intros Hr. pose proof (scan_int n r Hr) as Hs.
  destruct (Z.lt_trichotomy n 0) as [Hn|[->|Hn]].
  - rewrite int_text_neg in Hs |- * by exact Hn. destruct (fixed_ndigits_head (- n) ltac:(lia)) as (c & ds & E & Hc).
    rewrite E in Hs |- *. cbn [app] in Hs |- *. rewrite scan_value_minus by exact Hc. now rewrite Hs.
  - change (int_text 0) with ["0"] in Hs |- *. cbn [app] in Hs |- *.
    rewrite scan_value_digit by reflexivity. now rewrite Hs.
  - rewrite int_text_nonneg in Hs |- * by lia. destruct (fixed_ndigits_head n Hn) as (c & ds & E & Hc).
    rewrite E in Hs |- *. cbn [app] in Hs |- *. rewrite scan_value_digit by exact Hc. now rewrite Hs.
Qed.

(** The text of a value starts with a byte that is not whitespace and
    does not close an array or an object. *)
Definition opens_value (s : list ascii) : Prop :=
  exists c rest, s = c :: rest /\ is_ws c = false /\ c <> "]" /\ c <> "}".

Lemma digit_opens (c : ascii) : is_digit c = true -> is_ws c = false /\ c <> "]" /\ c <> "}".
Proof. intros H. destruct (is_digit_cases c H) as [E|E]; [subst; split; [reflexivity|split; discriminate]|].
  repeat destruct E as [E|E]; subst; (split; [reflexivity|split; discriminate]). Qed.

Lemma dumps_opens (v : json) : opens_value (dumps v).
Proof.
  destruct v as [|[]|n|s|items|ms]; cbn [dumps];
    try (eexists _, _; split; [reflexivity|split; [reflexivity|split; discriminate]]).
  destruct (Z.lt_trichotomy n 0) as [Hn|[->|Hn]].
  - rewrite int_text_neg by exact Hn. eexists _, _. split; [reflexivity|split; [reflexivity|split; discriminate]].
  - eexists _, _. split; [reflexivity|split; [reflexivity|split; discriminate]].
  - rewrite int_text_nonneg by lia. destruct (fixed_ndigits_head n Hn) as (c & ds & -> & Hc).
    exists c, ds. split; [reflexivity|exact (digit_opens c Hc)].
Qed.

Lemma skip_ws_opens (s r : list ascii) : opens_value s -> skip_ws (s ++ r) = s ++ r.
Proof. intros (c & rest & -> & Hws & _). cbn. now rewrite Hws. Qed.

Lemma starts_with_opens (c0 : ascii) (s r : list ascii) :
  opens_value s -> c0 = "]" \/ c0 = "}" -> starts_with c0 (s ++ r) = false.
Proof. intros (c & rest & -> & _ & H1 & H2) Hc0. cbn. apply bool_decide_false. intros ->. tauto. Qed.

Lemma ends_number_sep (c : ascii) (r : list ascii) :
  c = "," \/ c = "]" \/ c = "}" -> ends_number (c :: r).
Proof. intros [ ->|[ ->| ->]]; repeat split; discriminate. Qed.

Lemma join_cons2 (x y : list ascii) (ys : list (list ascii)) : join (x :: y :: ys) = x ++ "," :: join (y :: ys).
Proof. reflexivity. Qed.

Lemma join_opens (x : list ascii) (xs : list (list ascii)) : opens_value x -> opens_value (join (x :: xs)).
Proof.
  intros (c & rest & -> & H). destruct xs as [|y xs]; [exists c, rest; auto|].
  exists c, (rest ++ "," :: join (y :: xs)). auto.
Qed.

(** A measure of a value that bounds the fuel [scan_value] needs. *)
Fixpoint jsize (v : json) : nat :=
  match v with
  | JArr items => S (sum_list (map (fun x => S (jsize x)) items))
  | JObj ms => S (sum_list (map (fun kv => S (jsize (snd kv))) ms))
  | _ => 1
  end.

(** Induction on values, through the items of arrays and objects. *)
Lemma json_ind' (P : json -> Prop) :
  P JNull -> (forall b, P (JBool b)) -> (forall n, P (JNum n)) -> (forall s, P (JStr s)) ->
  (forall items, Forall P items -> P (JArr items)) ->
  (forall ms, Forall (fun kv => P (snd kv)) ms -> P (JObj ms)) ->
  forall v, P v.
Proof.
  intros Hnull Hbool Hnum Hstr Harr Hobj. fix IH 1. intros [|b|n|s|items|ms].
  - exact Hnull.
  - apply Hbool.
  - apply Hnum.
  - apply Hstr.
  - apply Harr. induction items as [|x items IHi]; constructor; [apply IH|exact IHi].
  - apply Hobj. induction ms as [|[k x] ms IHm]; constructor; [apply IH|exact IHm].
Qed.

(** What [scan_value] reads back from the text of a value followed by
    [r], given the fuel. *)
Definition reads_back (v : json) : Prop :=
  forall f r, jsize v <= f -> ends_number r -> scan_value f (dumps v ++ r) = Some (v, r).

Lemma scan_items_join (items : list json) (f : nat) (r : list ascii) :
  items <> [] -> Forall reads_back items -> sum_list (map (fun x => S (jsize x)) items) <= f ->
  scan_items f (join (map dumps items) ++ "]" :: r) = Some (items, r).
Proof.
  revert f. induction items as [|x items IH]; intros f Hne Hall Hf; [easy|].
  inversion Hall as [|? ? Hx Hrest]; subst. cbn [map sum_list id] in Hf.
  destruct f as [|f]; [lia|]. cbn [scan_items].
  destruct items as [|y items].
  - cbn [map join]. rewrite (Hx f ("]" :: r)) by (lia || (apply ends_number_sep; auto)). reflexivity.
  - rewrite !map_cons, join_cons2, <- app_assoc. cbn [app].
    rewrite (Hx f ("," :: _)) by (lia || (apply ends_number_sep; auto)). cbn -[scan_items join dumps].
    rewrite !map_cons in IH. rewrite skip_ws_opens by (apply join_opens, dumps_opens).
    replace (is_ws ",") with false by reflexivity. cbn -[scan_items join dumps].
    rewrite skip_ws_opens by (apply join_opens, dumps_opens).
    rewrite IH by (easy || exact Hrest || (cbn [map sum_list id] in Hf |- *; lia)). reflexivity.
Qed.

(** The text of one member of an object. *)
Definition dumps_member (kv : string * json) : list ascii := dumps_str (fst kv) ++ ":" :: dumps (snd kv).

(** One member followed by a separator [c] is read back. *)
Lemma scan_members_step (k : string) (v : json) (c : ascii) (rest : list ascii) (f : nat) :
  reads_back v -> jsize v <= f -> c = "," \/ c = "}" ->
  scan_members (S f) (dumps_member (k, v) ++ c :: rest) =
  match c :: rest with
  | "," :: r4 => '(ms, r5) ← scan_members f (skip_ws r4); Some ((k, v) :: ms, r5)
  | "}" :: r4 => Some ([(k, v)], r4)
  | _ => None
  end.
Proof.
  intros Hv Hf Hc. unfold dumps_member, dumps_str. cbn [fst snd app scan_members].
  rewrite <- !app_assoc. cbn [app]. rewrite scan_string_escaped. cbn -[scan_value scan_members dumps].
  replace (is_ws ":") with false by reflexivity. cbn -[scan_value scan_members dumps].
  rewrite skip_ws_opens by apply dumps_opens.
  rewrite (Hv f (c :: rest) Hf (ends_number_sep c rest ltac:(tauto))).
  cbn -[scan_members]. rewrite String.string_of_list_ascii_of_string.
  destruct Hc as [->| ->]; reflexivity.
Qed.

Lemma scan_members_join (ms : list (string * json)) (f : nat) (r : list ascii) :
  ms <> [] -> Forall (fun kv => reads_back (snd kv)) ms ->
  sum_list (map (fun kv => S (jsize (snd kv))) ms) <= f ->
  scan_members f (join (map dumps_member ms) ++ "}" :: r) = Some (ms, r).
Proof.
  revert f. induction ms as [|[k v] ms IH]; intros f Hne Hall Hf; [easy|].
  inversion Hall as [|? ? Hv Hrest]; subst. cbn [map sum_list id snd] in Hf.
  destruct f as [|f]; [lia|].
  destruct ms as [|kv2 ms].
  - cbn [map join]. rewrite (scan_members_step k v "}" r f Hv ltac:(lia) ltac:(tauto)). reflexivity.
  - rewrite !map_cons, join_cons2, <- app_assoc. cbn [app].
    rewrite (scan_members_step k v "," _ f Hv ltac:(lia) ltac:(tauto)). cbn -[scan_members join].
    rewrite !map_cons in IH. rewrite skip_ws_opens.
    + rewrite IH by (easy || exact Hrest || (cbn [map sum_list id] in Hf |- *; lia)). reflexivity.
    + apply join_opens. unfold dumps_member. exists dq. eexists. split; [reflexivity|].
      split; [reflexivity|split; discriminate].
Qed.

Lemma dumps_obj (ms : list (string * json)) : dumps (JObj ms) = "{" :: join (map dumps_member ms) ++ ["}"].
Proof. reflexivity. Qed.

(** Every value is read back from its text, whatever follows it that
    ends a number. *)
Lemma scan_dumps (v : json) : reads_back v.
Proof.
  induction v as [| b | n | s | items Hitems | ms Hms] using json_ind'; intros f r Hf Hr;
    destruct f as [|f]; cbn [jsize] in Hf; try lia.
  - reflexivity.
  - destruct b; reflexivity.
  - now apply scan_value_int.
  - cbn [dumps]. unfold dumps_str. cbn [app]. rewrite <- app_assoc. cbn [app scan_value].
    rewrite scan_string_escaped. cbn.
    now rewrite String.string_of_list_ascii_of_string.
  - cbn [dumps app]. cbn [scan_value].
    destruct items as [|x items]; [reflexivity|].
    rewrite <- app_assoc. cbn [app]. rewrite skip_ws_opens by (apply join_opens, dumps_opens).
    rewrite starts_with_opens by (auto || (apply join_opens, dumps_opens)).
    rewrite scan_items_join by (easy || exact Hitems || lia). reflexivity.
  - rewrite dumps_obj. cbn [app scan_value].
    destruct ms as [|[k x] ms]; [reflexivity|].
    assert (Hop : opens_value (join (map dumps_member ((k, x) :: ms)))).
    { apply join_opens. exists dq. eexists. split; [reflexivity|]. split; [reflexivity|split; discriminate]. }
    rewrite <- app_assoc. cbn [app]. rewrite skip_ws_opens by exact Hop.
    rewrite starts_with_opens by (auto || exact Hop).
    rewrite scan_members_join by (easy || exact Hms || lia). reflexivity.
Qed.

Lemma length_join (xs : list (list ascii)) :
  xs <> [] -> length (join xs) + 1 = sum_list (map (fun x => S (length x)) xs).
Proof.
  induction xs as [|x [|y xs] IH]; intros Hne; [easy|cbn; lia|].
  rewrite join_cons2, length_app. cbn [length]. specialize (IH ltac:(discriminate)).
  cbn [map sum_list id] in *. lia.
Qed.

(** The fuel [loads] gives is enough: the text is at least as long as
    the measure of the value. *)
Lemma jsize_le (v : json) : jsize v <= length (dumps v).
Proof.
  induction v as [| b | n | s | items Hitems | ms Hms] using json_ind'.
  - cbn. lia.
  - destruct b; cbn; lia.
  - destruct (dumps_opens (JNum n)) as (c & rest & E & _). cbn [jsize]. rewrite E. cbn. lia.
  - cbn. lia.
  - cbn [dumps jsize]. rewrite length_cons, length_app. cbn [length].
    destruct items as [|x items]; [cbn; lia|].
    assert (H : sum_list (map (fun x => S (jsize x)) (x :: items)) <=
                sum_list (map (fun y => S (length y)) (map dumps (x :: items)))).
    { rewrite map_map. induction Hitems as [|y ys Hy _ IH]; cbn [map sum_list id] in *; lia. }
    pose proof (length_join (map dumps (x :: items)) ltac:(discriminate)). lia.
  - rewrite dumps_obj. cbn [jsize]. rewrite length_cons, length_app. cbn [length].
    destruct ms as [|kv ms]; [cbn; lia|].
    assert (H : sum_list (map (fun kv => S (jsize (snd kv))) (kv :: ms)) <=
                sum_list (map (fun y => S (length y)) (map dumps_member (kv :: ms)))).
    { rewrite map_map. induction Hms as [|[k y] ys Hy _ IH]; cbn [map sum_list id snd] in *; [lia|].
      assert (S (length (dumps y)) <= length (dumps_member (k, y))).
      { unfold dumps_member, dumps_str. cbn [fst snd]. rewrite !length_app. cbn [length]. lia. }
      lia. }
    pose proof (length_join (map dumps_member (kv :: ms)) ltac:(discriminate)). lia.
Qed.

(** The round trip of the JSON text: whatever the value (nested
    arrays and objects, strings with quotes, backslashes, control
    characters and non-ASCII bytes, negative numbers), [json.loads] reads
    the text [json.dumps] writes with the response renderer's options
    back as the same value. *)
Lemma loads_dumps (v : json) : loads (dumps v) = Some v.
Proof.
  unfold loads. destruct (dumps_opens v) as (c & rest & E & Hws & _).
  rewrite E. cbn [skip_ws]. rewrite Hws, <- E.
  replace (scan_value (S (length (dumps v))) (dumps v))
    with (scan_value (S (length (dumps v))) (dumps v ++ [])) by now rewrite app_nil_r.
  rewrite (scan_dumps v (S (length (dumps v))) []); [reflexivity| |exact I].
  pose proof (jsize_le v). lia.
Qed.

End JsonText.
