(* ===== verification/Schema.v ===== *)
(** * The schemas of src/main.py

    - [Book] (lines 20-27): the attributes of an instance of the mapped
      class, each [None] until set or loaded.
    - [BookCreate] (lines 47-49): the body of a POST, validated by
      pydantic; [BookCreate.dict] is [book.dict()] (line 59).
    - [BookResponse] (lines 52-54): the [response_model]; it inherits the
      fields of [BookCreate], so its fields come in the order [title],
      [author], [id], [published_date].  FastAPI validates the endpoint's
      result against it with [from_attributes]: the attributes of the ORM
      instance are read and checked one by one. *)

From S2P Require Import Prelude Datetime Json.

Import Json.

Module Book.
(** An instance of [Book]: its column attributes. *)
Record t : Type := mk {
  id : option Z;
  title : option string;
  author : option string;
  published_date : option Datetime.t
}.

#[export] Instance eq_dec : EqDecision t.
Proof. solve_decision. Defined.

(** The mapped class's constructor sets the keyword arguments as
    attributes and raises [TypeError] on a key that is not an attribute
    of the class.  The keyword arguments here are [book.dict()], whose
    values are strings: the string columns are set from them; a string
    for [id] or [published_date] never arises and is refused too. *)
Fixpoint init_from (o : t) (kwargs : list (string * string)) : option t :=
  match kwargs with
  | [] => Some o
  | (k, v) :: rest =>
      if String.eqb k "title" then init_from (mk (id o) (Some v) (author o) (published_date o)) rest
      else if String.eqb k "author" then init_from (mk (id o) (title o) (Some v) (published_date o)) rest
      else None
  end.

(** The call of [Book] with keyword arguments [kwargs]. *)
Definition init (kwargs : list (string * string)) : option t :=
  init_from (mk None None None None) kwargs.
End Book.

Module BookCreate.
Record t : Type := mk {
  title : string;
  author : string
}.

#[export] Instance eq_dec : EqDecision t.
Proof. solve_decision. Defined.

(** [BookCreate.model_validate(value)] in lax mode with
    [from_attributes], as FastAPI validates a body: a JSON object has its
    fields checked in declaration order and the errors of both are
    reported; any other JSON value is not a dictionary or an object to
    read attributes from. *)
Definition model_validate (v : json) : list verror + t :=
  match v with
  | JObj m =>
      match str_field m "title", str_field m "author" with
      | inr ti, inr au => inr (mk ti au)
      | inl e1, inr _ => inl e1
      | inr _, inl e2 => inl e2
      | inl e1, inl e2 => inl (e1 ++ e2)
      end
  | _ => inl [mkVerror [] ModelAttributesType (PyJson (py_value v)) None]
  end.

(** [book.dict()]: the fields in declaration order. *)
Definition dict (b : t) : list (string * string) :=
  [("title", title b); ("author", author b)].
(** C27: a JSON object validates as [BookCreate]
    exactly when its [title] and its [author], each taken from the last
    occurrence of the key, are JSON strings; any strings pass, the empty
    one included, and other keys are ignored. *)
Theorem model_validate_ok (m : list (string * json)) (b : t) :
  model_validate (JObj m) = inr b <->
  obj_get m "title" = Some (JStr (title b)) /\ obj_get m "author" = Some (JStr (author b)).
Proof.
  unfold model_validate. rewrite <- !str_field_inr.
  destruct (str_field m "title") as [e1|ti], (str_field m "author") as [e2|au]; split.
  all: intros H; try (destruct H; discriminate); try discriminate.
  - invc H. split; reflexivity.
  - destruct H as [H1 H2]. invc H1. invc H2. destruct b; reflexivity.
Qed.

(** C28: a JSON object without a [title] key
    fails validation, and the errors report the missing [title]; a
    missing [author] is reported in the same list. *)
Theorem model_validate_missing (m : list (string * json)) :
  obj_get m "title" = None ->
  exists errs, model_validate (JObj m) = inl errs /\
    In (mkVerror [LKey "title"] Missing (PyJson (py_value (JObj m))) None) errs.
Proof.
  intros H. unfold model_validate. rewrite (str_field_missing m "title" H).
  destruct (str_field m "author"); eexists; split; try reflexivity; simpl; auto.
Qed.

Lemma model_validate_missing_witness :
  exists errs, model_validate (JObj [("author", JStr "Herbert")]) = inl errs /\
    In (mkVerror [LKey "title"] Missing (PyJson (JObj [("author", JStr "Herbert")])) None) errs.
Proof. exact (model_validate_missing [("author", JStr "Herbert")] eq_refl). Defined.

End BookCreate.

Module BookResponse.
Record t : Type := mk {
  title : string;
  author : string;
  id : Z;
  published_date : Datetime.t
}.

#[export] Instance eq_dec : EqDecision t.
Proof. solve_decision. Defined.

(** One field read from an attribute: [None] fails with [ty]. *)
Definition attr_field {A} (name : string) (ty : error_type) (a : option A)
  : list verror + A :=
  match a with
  | Some x => inr x
  | None => inl [mkVerror [LKey name] ty PyObject None]
  end.

Definition errors_of {A} (r : list verror + A) : list verror :=
  match r with inl e => e | inr _ => [] end.

(** [BookResponse.model_validate(obj, from_attributes=True)], given the
    attribute values read from [obj]: every field is checked, in
    declaration order, and all errors are reported. *)
Definition model_validate_attrs (o : Book.t) : list verror + t :=
  let rt := attr_field "title" StringType (Book.title o) in
  let ra := attr_field "author" StringType (Book.author o) in
  let ri := attr_field "id" IntType (Book.id o) in
  let rp := attr_field "published_date" DatetimeType (Book.published_date o) in
  match rt, ra, ri, rp with
  | inr ti, inr au, inr i, inr p => inr (mk ti au i p)
  | _, _, _, _ => inl (errors_of rt ++ errors_of ra ++ errors_of ri ++ errors_of rp)
  end.
End BookResponse.
