(* ===== verification/Spec.v ===== *)
(** * The abstract book service

    What the service promises its clients, independently of FastAPI,
    SQLAlchemy and SQLite: a store of books, each with an id, a title, an
    author and a publication date; [create] adds one book whose id is one
    more than the largest id so far (1 in an empty store) and whose date
    is the time of the creation, and [list] returns every book in
    creation order.  The contract is the class [BookStore] with its laws
    [BookStoreLaws]; the clients' properties (one new entry per create,
    with a fresh id) are proved against the laws, and the list-backed
    store [Spec.store] is an instance.  [Refinement] shows that the
    application implements this store. *)

From S2P Require Import Prelude Datetime.

Module Spec.
Local Open Scope Z_scope.

Record book : Type := mk {
  id : Z;
  title : string;
  author : string;
  published_date : Datetime.t
}.

#[export] Instance book_eq_dec : EqDecision book.
Proof. solve_decision. Defined.

(** The operations a book store offers. *)
Class BookStore (St : Type) := {
  store_create : St -> string -> string -> Datetime.t -> book * St;
  store_list : St -> list book
}.

(** The laws a client of a book store relies on. *)
Class BookStoreLaws (St : Type) `{BookStore St} := {
  create_appends : forall s ti au now,
    store_list (snd (store_create s ti au now)) = store_list s ++ [fst (store_create s ti au now)];
  create_fields : forall s ti au now,
    title (fst (store_create s ti au now)) = ti /\ author (fst (store_create s ti au now)) = au /\
    published_date (fst (store_create s ti au now)) = now;
  create_above : forall s ti au now,
    Forall (fun b => id b < id (fst (store_create s ti au now))) (store_list s)
}.

(** ** The list-backed store *)

Definition store : Type := list book.

Definition max_id (s : store) : Z := fold_right (fun b m => Z.max (id b) m) 0 s.

Definition next_id (s : store) : Z := max_id s + 1.

Definition create (s : store) (ti au : string) (now : Datetime.t) : book * store :=
  let b := mk (next_id s) ti au now in (b, s ++ [b]).

Definition list_books (s : store) : list book := s.

#[export] Instance list_store : BookStore store := {
  store_create := create;
  store_list := list_books
}.

(** The ids of a store the service built: increasing and positive. *)
Definition ids_ok (s : store) : Prop :=
  increasing (map id s) /\ Forall (fun b => 1 <= id b) s.

Lemma max_id_ge (s : store) : Forall (fun b => id b <= max_id s) s.
Proof.
  induction s as [|b s IH]; constructor; simpl; [lia|].
  eapply Forall_impl; [|exact IH]. simpl. intros; lia.
Qed.

Lemma max_id_nonneg (s : store) : 0 <= max_id s.
Proof. induction s; simpl; lia. Qed.

#[export] Instance list_store_laws : BookStoreLaws store.
Proof.
  constructor; intros s ti au now; simpl.
  - reflexivity.
  - repeat split.
  - unfold next_id. eapply Forall_impl; [|exact (max_id_ge s)]. simpl. intros; lia.
Qed.

(** A store the service builds keeps its ids increasing and positive. *)
Lemma create_ids_ok (s : store) (ti au : string) (now : Datetime.t) :
  ids_ok s -> ids_ok (snd (create s ti au now)).
Proof.
  intros [Hinc Hpos]. unfold create, next_id. simpl. split.
  - rewrite map_app. apply increasing_app_single; [exact Hinc|].
    apply Forall_map. eapply Forall_impl; [|exact (max_id_ge s)]. simpl. intros; lia.
  - apply Forall_app. split; [exact Hpos|]. constructor; [simpl; pose proof (max_id_nonneg s); lia|constructor].
Qed.

(** ** What a client of any lawful store can rely on *)

Section Client.
Context {St : Type} `{BookStoreLaws St}.

(** After a create, the list holds exactly one more entry, the new book,
    with the title, author and date given, and an id no other entry has. *)
Lemma create_then_list_spec (s : St) (ti au : string) (now : Datetime.t) :
  let '(b, s') := store_create s ti au now in
  store_list s' = store_list s ++ [b] /\ title b = ti /\ author b = au /\
  published_date b = now /\ ~ In (id b) (map id (store_list s)).
Proof.
  destruct (store_create s ti au now) as [b s'] eqn:Hc.
  pose proof (create_appends s ti au now) as Ha. pose proof (create_fields s ti au now) as Hf.
  pose proof (create_above s ti au now) as Hab. rewrite Hc in Ha, Hf, Hab. simpl in *.
  split; [exact Ha|]. split; [tauto|]. split; [tauto|]. split; [tauto|].
  intros Hin. apply in_map_iff in Hin as (b' & Heq & Hb').
  rewrite Forall_forall in Hab. specialize (Hab b' Hb'). lia.
Qed.

End Client.

End Spec.
