(* ===== verification/Orm.v ===== *)
(** * The SQLAlchemy session of [SessionLocal]

    [SessionLocal = sessionmaker(autocommit=False, autoflush=False,
    bind=engine)] (src/main.py, line 34) makes sessions that begin a
    transaction on first use, never flush before a query, and expire
    every instance they hold when they commit.  This file models the
    world the Python code runs in and the session operations the
    handlers call:
    - the committed SQLite table, a heap of ORM instances addressed by
      reference (the handler and the session share the instance
      [db_book]: a change made through the session, such as the [id]
      assigned at flush, is seen by the handler), the sessions, and the
      oracles of [datetime.utcnow()] and of SQLite's random rowids;
    - [SessionLocal()], [Book(...)], [Session.add], [Session.flush] (one
      INSERT per pending instance, in the order they were added, with
      the Python-side default of [published_date]), [Session.commit],
      [Session.refresh], [Session.query(Book).all()] with the identity
      map, the attribute read of an instance (a lazy load when it is
      expired) and [Session.close].
    A transaction works on a copy of the committed table and [commit]
    installs the copy.  Two requests' transactions never interleave
    their statements: the endpoint code of a request runs without
    suspending ([Server]), and what is left of its transaction after it
    (a read) is discarded by [close]. *)

From S2P Require Import Prelude Datetime Json Schema Sqlite.

Import Json Table.

Module Orm.

(** An ORM instance: its attributes, whether they are expired, the
    session it belongs to, and its identity key once persistent. *)
Record obj : Type := mkObj {
  o_attrs : Book.t;
  o_expired : bool;
  o_session : option nat;
  o_key : option Z
}.

(** A session: the instances added and not yet flushed, the identity
    map, the open transaction's working table, and whether [close]
    was the last call on it. *)
Record session : Type := mkSession {
  s_new : list nat;
  s_identity : list (Z * nat);
  s_txn : option table;
  s_closed : bool
}.

Record world : Type := mkWorld {
  w_db : table;
  w_heap : list obj;
  w_sessions : list session;
  w_clock : nat -> Datetime.t;
  w_tick : nat;
  w_rand : nat -> Z;
  w_draw : nat
}.

(** The exceptions the program can raise. *)
Inductive exc : Type :=
| OperationalError (e : sqlite_error)
| ValueError
| InvalidRequestError
| DetachedInstanceError
| TypeError
| RequestValidationError (errs : list verror)
| ResponseValidationError (errs : list verror).

Definition OrmM (A : Type) : Type := M world exc A.

(** [DATABASE_URL] (line 14). *)
Definition DATABASE_URL : string := "sqlite:///./test.db".

(** The file [create_engine] (line 33) opens for an SQLite URL: the
    part after ["sqlite:///"], relative to the working directory. *)
Definition db_path (url : string) : string :=
  if String.prefix "sqlite:///" url then String.substring 10 (String.length url - 10) url else url.

(** [Base.metadata.create_all(bind=engine)] (line 36): [Base] (line 17)
    holds the table of [Book]; [CREATE TABLE books] runs only when the
    file has no such table ([checkfirst]), so an existing table keeps
    its rows. *)
Definition create_all (existing : option table) : table :=
  match existing with
  | Some t => t
  | None => []
  end.

(** The world when the application starts on the files [disk]
    ([None] where a file has no [books] table): [create_engine],
    [SessionLocal] and [create_all] (lines 33-36) leave the table of
    [test.db], no instance and no session; the clock and the random
    source are the environment's. *)
Definition startup (disk : string -> option table) (clock : nat -> Datetime.t) (rand : nat -> Z) : world :=
  mkWorld (create_all (disk (db_path DATABASE_URL))) [] [] clock 0 rand 0.

(** The first start, on a [test.db] that does not exist yet. *)
Definition init_world (clock : nat -> Datetime.t) (rand : nat -> Z) : world :=
  startup (fun _ => None) clock rand.

(** ** Access to the world *)

Definition set_db (t : table) (w : world) : world :=
  mkWorld t (w_heap w) (w_sessions w) (w_clock w) (w_tick w) (w_rand w) (w_draw w).
Definition set_heap (h : list obj) (w : world) : world :=
  mkWorld (w_db w) h (w_sessions w) (w_clock w) (w_tick w) (w_rand w) (w_draw w).
Definition set_sessions (ss : list session) (w : world) : world :=
  mkWorld (w_db w) (w_heap w) ss (w_clock w) (w_tick w) (w_rand w) (w_draw w).
Definition set_tick (n : nat) (w : world) : world :=
  mkWorld (w_db w) (w_heap w) (w_sessions w) (w_clock w) n (w_rand w) (w_draw w).
Definition set_draw (n : nat) (w : world) : world :=
  mkWorld (w_db w) (w_heap w) (w_sessions w) (w_clock w) (w_tick w) (w_rand w) n.

(** A reference names an instance or a session of the world; the
    [InvalidRequestError] of a dangling reference is unreachable from
    the handlers, whose references are all allocated before use. *)
Definition get_obj (o : nat) : OrmM obj :=
  fun w => match w_heap w !! o with
           | Some x => (Ret x, w)
           | None => (Raise InvalidRequestError, w)
           end.
Definition put_obj (o : nat) (x : obj) : OrmM unit :=
  mmodify (fun w => set_heap (<[o := x]> (w_heap w)) w).
Definition get_session (s : nat) : OrmM session :=
  fun w => match w_sessions w !! s with
           | Some x => (Ret x, w)
           | None => (Raise InvalidRequestError, w)
           end.
Definition put_session (s : nat) (x : session) : OrmM unit :=
  mmodify (fun w => set_sessions (<[s := x]> (w_sessions w)) w).

Local Open Scope py_scope.

(** [datetime.utcnow()]: the clock at the current tick; the tick advances. *)
Definition utcnow : OrmM Datetime.t :=
  fun w => (Ret (w_clock w (w_tick w)), set_tick (S (w_tick w)) w).

(** [SessionLocal()]: a new session, appended to the world's sessions. *)
Definition session_local : OrmM nat :=
  fun w => (Ret (length (w_sessions w)),
            set_sessions (w_sessions w ++ [mkSession [] [] None false]) w).

(** The call of [Book] with keyword arguments: a new transient
    instance, or [TypeError]. *)
Definition book_new (kwargs : list (string * string)) : OrmM nat :=
  match Book.init kwargs with
  | None => mraise TypeError
  | Some a =>
      fun w => (Ret (length (w_heap w)),
                set_heap (w_heap w ++ [mkObj a false None None]) w)
  end.

(** [Session.add(o)]: a transient instance becomes pending in [s]; an
    instance already in [s] is left alone; one of another session is
    refused. *)
Definition add (s o : nat) : OrmM unit :=
  x <- get_obj o ;;
  ss <- get_session s ;;
  match o_session x with
  | Some s' => if decide (s' = s) then mret tt else mraise InvalidRequestError
  | None =>
      put_obj o (mkObj (o_attrs x) (o_expired x) (Some s) (o_key x)) ;;;
      put_session s (mkSession (s_new ss ++ [o]) (s_identity ss) (s_txn ss) false)
  end.

(** Autobegin: the first statement of a session opens its transaction
    on the committed table. *)
Definition begin (s : nat) : OrmM table :=
  ss <- get_session s ;;
  match s_txn ss with
  | Some t => mret t
  | None =>
      w <- mget ;;
      put_session s (mkSession (s_new ss) (s_identity ss) (Some (w_db w)) false) ;;;
      mret (w_db w)
  end.

(** The transaction's table after a statement. *)
Definition set_txn (s : nat) (t : table) : OrmM unit :=
  ss <- get_session s ;;
  put_session s (mkSession (s_new ss) (s_identity ss) (Some t) (s_closed ss)).

(** The SQLite INSERT, drawing random rowids from the world's oracle;
    the date is bound as the text of [DATETIME]'s storage format. *)
Definition sql_insert (a : Book.t) (pd : Datetime.t) (t : table) : OrmM (Z * table) :=
  fun w =>
    match Table.insert (w_rand w) (w_draw w) (Book.title a) (Book.author a)
            (Some (Datetime.encode pd)) t with
    | (inr res, k') => (Ret res, set_draw k' w)
    | (inl e, k') => (Raise (OperationalError e), set_draw k' w)
    end.

(** The flush of one pending instance: the Python-side default of
    [published_date] ([datetime.utcnow], line 27) is computed, the row
    is inserted, and the instance receives its primary key and the
    default, and enters the identity map. *)
Definition flush_one (s o : nat) : OrmM unit :=
  x <- get_obj o ;;
  t <- begin s ;;
  pd <- utcnow ;;
  r <- sql_insert (o_attrs x) pd t ;;
  let '(v, t') := r in
  set_txn s t' ;;;
  ss <- get_session s ;;
  put_session s (mkSession (s_new ss) (s_identity ss ++ [(v, o)]) (s_txn ss) (s_closed ss)) ;;;
  put_obj o (mkObj (Book.mk (Some v) (Book.title (o_attrs x)) (Book.author (o_attrs x)) (Some pd))
                   (o_expired x) (Some s) (Some v)).

(** [Session.flush()]: one INSERT per pending instance, in the order
    they were added.  On success nothing is pending any more.  A failure
    rolls the transaction back, restores the identity map the flush
    started from, and is re-raised; the instances stay pending until
    the session is closed. *)
Definition flush (s : nat) : OrmM unit :=
  fun w =>
    match get_session s w with
    | (Ret ss, w1) =>
        match mmap (flush_one s) (s_new ss) w1 with
        | (Ret _, w2) =>
            (ss2 <- get_session s ;;
             put_session s (mkSession [] (s_identity ss2) (s_txn ss2) (s_closed ss2))) w2
        | (Raise e, w2) =>
            (put_session s (mkSession (s_new ss) (s_identity ss) None (s_closed ss)) ;;;
             mraise e) w2
        end
    | (Raise e, w1) => (Raise e, w1)
    end.

(** Expire an instance: its attributes will be loaded again. *)
Definition expire (o : nat) : OrmM unit :=
  x <- get_obj o ;;
  put_obj o (mkObj (o_attrs x) true (o_session x) (o_key x)).

(** [Session.commit()]: flush, COMMIT (the working table becomes the
    committed table), and expire every instance of the identity map
    ([expire_on_commit]). *)
Definition commit (s : nat) : OrmM unit :=
  flush s ;;;
  ss <- get_session s ;;
  match s_txn ss with
  | Some t => mmodify (set_db t)
  | None => mret tt
  end ;;;
  put_session s (mkSession (s_new ss) (s_identity ss) None (s_closed ss)) ;;;
  mmap (fun p => expire (snd p)) (s_identity ss) ;;;
  mret tt.

(** The attributes of a row: [DATETIME]'s result processor parses the
    stored text of [published_date]; [None] is its [ValueError] on a
    text it cannot read. *)
Definition attrs_of_row (r : row) : option Book.t :=
  match col_published r with
  | None => Some (Book.mk (Some (rowid r)) (col_title r) (col_author r) None)
  | Some txt =>
      match Datetime.decode txt with
      | Some d => Some (Book.mk (Some (rowid r)) (col_title r) (col_author r) (Some d))
      | None => None
      end
  end.

(** [SELECT ... WHERE books.id = ?] in the session's transaction, and
    the load of the row into the instance [o]. *)
Definition load (s o : nat) (v : Z) : OrmM unit :=
  t <- begin s ;;
  r <- of_option InvalidRequestError (select_by_id t v) ;;
  a <- of_option ValueError (attrs_of_row r) ;;
  x <- get_obj o ;;
  put_obj o (mkObj a false (o_session x) (o_key x)).

(** [Session.refresh(o)]: [o] must be persistent in [s]. *)
Definition refresh (s o : nat) : OrmM unit :=
  x <- get_obj o ;;
  match o_session x, o_key x with
  | Some s', Some v => if decide (s' = s) then load s o v else mraise InvalidRequestError
  | _, _ => mraise InvalidRequestError
  end.

(** Reading the attributes of an instance, as pydantic does with
    [from_attributes]: an expired instance is loaded by its session
    first, and one with no session cannot be. *)
Definition read_attrs (o : nat) : OrmM Book.t :=
  x <- get_obj o ;;
  if o_expired x then
    match o_session x, o_key x with
    | Some s, Some v => load s o v ;;; x' <- get_obj o ;; mret (o_attrs x')
    | _, _ => mraise DetachedInstanceError
    end
  else mret (o_attrs x).

(** One row of a query result: the instance of the identity map with
    this key (loaded again only when expired), or a new persistent
    instance.  The row's values are processed only when they populate
    an instance. *)
Definition instance_of_row (s : nat) (r : row) : OrmM nat :=
  ss <- get_session s ;;
  match find (fun p => Z.eqb (fst p) (rowid r)) (s_identity ss) with
  | Some (_, o) =>
      x <- get_obj o ;;
      (if o_expired x then
         a <- of_option ValueError (attrs_of_row r) ;;
         put_obj o (mkObj a false (o_session x) (o_key x))
       else mret tt) ;;;
      mret o
  | None =>
      a <- of_option ValueError (attrs_of_row r) ;;
      fun w =>
        let o := length (w_heap w) in
        let w1 := set_heap (w_heap w ++ [mkObj a false (Some s) (Some (rowid r))]) w in
        (put_session s (mkSession (s_new ss) (s_identity ss ++ [(rowid r, o)]) (s_txn ss) (s_closed ss)) ;;;
         mret o) w1
  end.

(** [Session.query(Book).all()]: no autoflush; a scan of the table in
    the session's transaction. *)
Definition query_all (s : nat) : OrmM (list nat) :=
  t <- begin s ;;
  mmap (instance_of_row s) (scan t).

(** An instance leaves its session: pending instances become transient
    and persistent ones detached.  Python references cannot dangle, so
    this never fails. *)
Definition detach (o : nat) : OrmM unit :=
  mmodify (fun w => set_heap (alter (fun x => mkObj (o_attrs x) (o_expired x) None (o_key x)) o
                                    (w_heap w)) w).

(** [Session.close()]: roll the transaction back and expunge every
    instance of the session. *)
Definition close (s : nat) : OrmM unit :=
  ss <- get_session s ;;
  mmap detach (s_new ss ++ map snd (s_identity ss)) ;;;
  put_session s (mkSession [] [] None true).

(** ** Running the operations *)

(** Unfold the session operations, then the monad, and compute; the
    cells of the lists that grew by one are read and written by
    [py_list]. *)
Ltac orm_unfold :=
  unfold add, commit, flush, refresh, close, read_attrs, load, flush_one, expire,
    begin, set_txn, sql_insert, utcnow, book_new, session_local, query_all,
    instance_of_row, detach in *;
  unfold mbind, mret, mraise, mget, mmodify, try_finally, of_option, get_obj, put_obj,
    get_session, put_session in *; cbn in *.

Ltac orm_run := orm_unfold; repeat (autorewrite with py_list; cbn).

(** ** The sessions of the world only grow *)

Definition sessions_at_least (n : nat) (w : world) : Prop := n <= length (w_sessions w).

Section SessionsGrow.
Variable n : nat.

Lemma get_obj_sessions o : preserves (sessions_at_least n) (get_obj o).
Proof. intros w Hw. unfold get_obj. now destruct (w_heap w !! o). Qed.

Lemma get_session_sessions s : preserves (sessions_at_least n) (get_session s).
Proof. intros w Hw. unfold get_session. now destruct (w_sessions w !! s). Qed.

Lemma put_session_sessions s x : preserves (sessions_at_least n) (put_session s x).
Proof. intros w Hw. unfold sessions_at_least in *. cbn. now rewrite length_insert. Qed.

Lemma modify_heap_sessions f : preserves (sessions_at_least n) (mmodify (E := exc) (fun w => set_heap (f w) w)).
Proof. intros w Hw. exact Hw. Qed.

Lemma modify_db_sessions t : preserves (sessions_at_least n) (mmodify (E := exc) (set_db t)).
Proof. intros w Hw. exact Hw. Qed.

Lemma utcnow_sessions : preserves (sessions_at_least n) utcnow.
Proof. intros w Hw. exact Hw. Qed.

Lemma sql_insert_sessions a pd t : preserves (sessions_at_least n) (sql_insert a pd t).
Proof.
  intros w Hw. unfold sql_insert.
  destruct (Table.insert _ _ _ _ _ _) as [[e|r] k]; exact Hw.
Qed.

Lemma book_new_sessions kw : preserves (sessions_at_least n) (book_new kw).
Proof. intros w Hw. unfold book_new. now destruct (Book.init kw). Qed.

Lemma session_local_sessions : preserves (sessions_at_least n) session_local.
Proof.
  intros w Hw. unfold sessions_at_least in *. cbn. rewrite length_app. simpl. lia.
Qed.
End SessionsGrow.

Create HintDb orm discriminated.
#[export] Hint Resolve get_obj_sessions get_session_sessions put_session_sessions
  modify_heap_sessions modify_db_sessions utcnow_sessions sql_insert_sessions
  book_new_sessions session_local_sessions : orm.

(** Decompose a [preserves] goal along the structure of the code. *)
Ltac solve_preserves :=
  repeat (intros; match goal with
    | |- preserves _ (mbind _ _) => apply preserves_bind
    | |- preserves _ (try_finally _ _) => apply preserves_finally
    | |- preserves _ (mmap _ _) => apply preserves_mmap
    | |- preserves _ (of_option _ _) => apply preserves_of_option
    | |- preserves _ (match ?x with _ => _ end) => destruct x
    | |- preserves _ (if ?b then _ else _) => destruct b
    | _ => eauto with py orm
    end).

Section SessionsGrowOps.
Variable n : nat.

Lemma flush_sessions s : preserves (sessions_at_least n) (flush s).
Proof.
  intros w Hw. unfold flush.
  pose proof (get_session_sessions n s w Hw) as H1.
  destruct (get_session s w) as [[ss|e] w1]; [|exact H1].
  assert (H2 : preserves (sessions_at_least n) (mmap (flush_one s) (s_new ss)))
    by (unfold flush_one, begin, set_txn; solve_preserves).
  specialize (H2 w1 H1).
  destruct (mmap (flush_one s) (s_new ss) w1) as [[u|e] w2]; simpl in H2.
  - refine (preserves_bind _ _ _ _ _ w2 H2); solve_preserves.
  - refine (preserves_bind _ _ _ _ _ w2 H2); solve_preserves.
Qed.

Lemma instance_of_row_sessions s r : preserves (sessions_at_least n) (instance_of_row s r).
Proof.
  unfold instance_of_row. solve_preserves.
  intros w Hw. apply (put_session_sessions n s _ _). exact Hw.
Qed.

Lemma close_sessions s : preserves (sessions_at_least n) (close s).
Proof. unfold close, detach. solve_preserves. Qed.

Lemma commit_sessions s : preserves (sessions_at_least n) (commit s).
Proof.
  unfold commit, expire. apply preserves_bind; [apply flush_sessions|]. solve_preserves.
Qed.

Lemma query_all_sessions s : preserves (sessions_at_least n) (query_all s).
Proof.
  unfold query_all, begin. solve_preserves. apply instance_of_row_sessions.
Qed.

Lemma refresh_sessions s o : preserves (sessions_at_least n) (refresh s o).
Proof. unfold refresh, load, begin. solve_preserves. Qed.

Lemma read_attrs_sessions o : preserves (sessions_at_least n) (read_attrs o).
Proof. unfold read_attrs, load, begin. solve_preserves. Qed.

Lemma add_sessions s o : preserves (sessions_at_least n) (add s o).
Proof. unfold add. solve_preserves. Qed.
End SessionsGrowOps.

(** Expunging instances never fails and touches only the heap. *)
Lemma mmap_detach (os : list nat) (w : world) :
  exists h, mmap detach os w = (Ret (map (fun _ => tt) os), set_heap h w).
Proof.
  revert w. induction os as [|o os IH]; intros w.
  - exists (w_heap w). now destruct w.
  - destruct (IH (set_heap (alter (fun x => mkObj (o_attrs x) (o_expired x) None (o_key x)) o
                                    (w_heap w)) w)) as [h Hh].
    exists h. cbn. unfold mmodify. rewrite Hh. reflexivity.
Qed.

(** [close] on an existing session succeeds and leaves it closed. *)
Lemma close_spec (s : nat) (w : world) :
  s < length (w_sessions w) ->
  exists h, close s w = (Ret tt, set_sessions (<[s := mkSession [] [] None true]> (w_sessions w))
                                              (set_heap h w)).
Proof.
  intros Hs. destruct (lookup_lt_is_Some_2 _ _ Hs) as [ss Hss].
  unfold close, mbind, get_session. rewrite Hss.
  destruct (mmap_detach (s_new ss ++ map snd (s_identity ss)) w) as [h Hh].
  exists h. rewrite Hh. reflexivity.
Qed.

#[export] Hint Resolve flush_sessions commit_sessions close_sessions query_all_sessions
  refresh_sessions read_attrs_sessions add_sessions : orm.

(** ** Loading rows *)

(** The instance a query creates for a row the session does not hold,
    with the attributes [a] read from it. *)
Definition loaded_obj (s : nat) (r : row) (a : Book.t) : obj :=
  mkObj a false (Some s) (Some (rowid r)).

Lemma find_app_None {A} (P : A -> bool) (l1 l2 : list A) :
  find P l1 = None -> find P (l1 ++ l2) = find P l2.
Proof. induction l1 as [|x l1 IH]; simpl; [easy|]. destruct (P x); [discriminate|exact IH]. Qed.

(** A query over rows with distinct keys, which the session does not
    hold yet and whose values all read as [attrs], allocates one
    instance per row, in order, and records each in the identity map. *)
Lemma query_rows (rows : list row) (attrs : list Book.t) (w : world) (ss0 ss2 : list session)
    (S0 : session) :
  w_sessions w = ss0 ++ S0 :: ss2 -> List.NoDup (map rowid rows) ->
  Forall2 (fun r a => attrs_of_row r = Some a) rows attrs ->
  (forall r, In r rows -> find (fun p => Z.eqb (fst p) (rowid r)) (s_identity S0) = None) ->
  mmap (instance_of_row (length ss0)) rows w =
  (Ret (seq (length (w_heap w)) (length rows)),
   set_heap (w_heap w ++ zip_with (loaded_obj (length ss0)) rows attrs)
     (set_sessions (ss0 ++ mkSession (s_new S0)
                             (s_identity S0 ++ zip (map rowid rows) (seq (length (w_heap w)) (length rows)))
                             (s_txn S0) (s_closed S0) :: ss2) w)).
Proof.
  intros Hss Hnd Ha. revert w S0 Hss Hnd.
  induction Ha as [|r a rows attrs Hra Ha IH]; intros w S0 Hss Hnd Hfind.
  - destruct w, S0; cbn in *. subst. now rewrite !app_nil_r.
  - cbn [mmap]. apply NoDup_cons_iff in Hnd as [Hr Hnd].
    destruct w as [db h ss clk tk rnd dr]. cbn in Hss. subst ss.
    unfold instance_of_row at 1, mbind at 1, get_session at 1. cbn. rewrite lookup_mid.
    rewrite (Hfind r (or_introl eq_refl)).
    unfold mbind at 1. rewrite Hra. cbn.
    unfold mbind, put_session, mmodify, mret. cbn. rewrite insert_mid.
    rewrite (IH _ (mkSession (s_new S0) (s_identity S0 ++ [(rowid r, length h)]) (s_txn S0) (s_closed S0))).
    + destruct S0; cbn. rewrite length_app, Nat.add_1_r, <- !app_assoc. reflexivity.
    + reflexivity.
    + exact Hnd.
    + intros r' Hr'. cbn. rewrite find_app_None by (apply Hfind; now right).
      cbn. destruct (Z.eqb_spec (rowid r) (rowid r')) as [Heq|]; [|reflexivity].
      exfalso. apply Hr. rewrite Heq. now apply in_map.
Qed.

(** Reading the attributes of freshly loaded instances needs no SQL. *)
Lemma read_loaded (rows : list row) (attrs : list Book.t) (s : nat) (w : world) (pre post : list obj) :
  length rows = length attrs ->
  w_heap w = pre ++ zip_with (loaded_obj s) rows attrs ++ post ->
  mmap read_attrs (seq (length pre) (length rows)) w = (Ret attrs, w).
Proof.
  revert attrs pre. induction rows as [|r rows IH]; intros [|a attrs] pre Hlen Hh;
    try discriminate; [reflexivity|].
  cbn [mmap seq map length].
  assert (Hget : read_attrs (length pre) w = (Ret a, w)).
  { unfold read_attrs, mbind, get_obj. rewrite Hh. cbn.
    rewrite list_lookup_middle by reflexivity. reflexivity. }
  rewrite Hget.
  replace (S (length pre)) with (length (pre ++ [loaded_obj s r a])) by (rewrite length_app; simpl; lia).
  rewrite (IH attrs (pre ++ [loaded_obj s r a])) by
    (try (cbn in Hlen; lia); rewrite Hh, <- app_assoc; reflexivity).
  reflexivity.
Qed.

End Orm.
