(* ===== verification/Handlers.v ===== *)
(** * The dependency and the two endpoints of src/main.py

    [get_db] (lines 39-44) is a generator dependency: FastAPI runs it up
    to its [yield] when it solves the endpoint's dependencies, and
    resumes it when it leaves the request's exit stack, throwing the
    request's exception into it if there is one; its [finally] block
    closes the session on both paths.  [get_db_enter] is the part before
    [yield], [get_db_exit] the [finally] block, and [with_db] the whole
    generator around the code that runs while it is suspended.
    [create_book] (lines 57-63) and [get_books] (lines 66-68) are written
    statement by statement over the session operations of [Orm]. *)

From S2P Require Import Prelude Json Schema Sqlite Orm.

Import Orm.

Module Handlers.
Local Open Scope py_scope.

(** [db = SessionLocal()], up to [yield db]. *)
Definition get_db_enter : OrmM nat := session_local.

(** [finally: db.close()]. *)
Definition get_db_exit (db : nat) : OrmM unit := close db.

(** The generator around the code [body] that runs while it is
    suspended at [yield]: the session is closed whatever [body] does,
    and [body]'s exception is re-raised. *)
Definition with_db {A} (body : nat -> OrmM A) : OrmM A :=
  db <- get_db_enter ;;
  try_finally (body db) (get_db_exit db).

(** [create_book(book, db)]. *)
Definition create_book (book : BookCreate.t) (db : nat) : OrmM nat :=
  db_book <- book_new (BookCreate.dict book) ;;
  add db db_book ;;;
  commit db ;;;
  refresh db db_book ;;;
  mret db_book.

(** [get_books(db)]. *)
Definition get_books (db : nat) : OrmM (list nat) :=
  query_all db.

End Handlers.
