(* ===== verification/App.v ===== *)
(** * The application: routes and the request pipeline

    [app = FastAPI()] (line 30) with the two routes of the decorators
    [@app.post("/books/", response_model=BookResponse)] (line 57) and
    [@app.get("/books/", response_model=List[BookResponse])] (line 66).
    A request is dispatched by Starlette's router: the first route whose
    path and method match runs; a route whose path matches but not its
    method gives 405; otherwise, with [redirect_slashes], a path that
    matches once a trailing slash is added or removed gives a 307
    redirect; otherwise 404.  A GET route also answers HEAD.

    FastAPI's handler of a route (fastapi.routing.get_request_handler)
    reads the body (a JSON decoding error is a 422 before anything else
    runs), then, inside the request's exit stack, solves the dependencies
    in order ([get_db] first, the body parameter after it), and only if
    none failed runs the endpoint and validates its result against the
    [response_model].  Leaving the exit stack resumes [get_db].  A
    [RequestValidationError] becomes a 422 response with the errors
    (a 500 when encoding them raises: the input of a body that is not
    JSON is its raw bytes, decoded as UTF-8) and every other exception a
    500 (Starlette's ServerErrorMiddleware).  A body that is empty or
    the JSON [null] is a missing body.  All of this is framework code,
    modelled from its documented behaviour. *)

From S2P Require Import Prelude Datetime Json JsonText Schema Sqlite Orm Handlers.
From Stdlib Require Import Ascii.

Import Json Table Orm Handlers.

Module App.
Local Open Scope py_scope.

Inductive method : Type := GET | HEAD | POST | PUT | PATCH | DELETE | OPTIONS.

#[export] Instance method_eq_dec : EqDecision method.
Proof. solve_decision. Defined.

(** The body as FastAPI's handler reads it: empty, JSON that
    [json.loads] refused (the position and message of its
    [JSONDecodeError]), a decoded JSON value, or the raw bytes of a body
    whose content type is not JSON. *)
Inductive body : Type :=
| NoBody
| MalformedJson (pos : nat) (msg : string)
| JsonBody (j : json)
| OtherBody (raw : string).

Record request : Type := mkRequest {
  req_method : method;
  req_path : string;
  req_body : body
}.

Inductive payload : Type :=
| PBook (b : BookResponse.t)
| PBooks (bs : list BookResponse.t)
| PErrors (errs : list verror)
| PDetail (d : string)
| PRedirect (location : string)
| PEmpty.

Record response : Type := mkResponse {
  status : Z;
  payload_of : payload
}.

Inductive endpoint : Type := EpCreateBook | EpGetBooks.

Record route : Type := mkRoute {
  route_path : string;
  route_methods : list method;
  route_endpoint : endpoint
}.

(** The routes of src/main.py, in declaration order. *)
Definition routes : list route :=
  [mkRoute "/books/" [POST] EpCreateBook;
   mkRoute "/books/" [GET; HEAD] EpGetBooks].

(** ** Response validation ([serialize_response]) *)

(** The result of [create_book] against [BookResponse]. *)
Definition serialize_book (o : nat) : OrmM BookResponse.t :=
  a <- read_attrs o ;;
  match BookResponse.model_validate_attrs a with
  | inr r => mret r
  | inl errs => mraise (ResponseValidationError errs)
  end.

(** The errors of one item of a list, under its index. *)
Definition item_errors (i : nat) (r : list verror + BookResponse.t) : list verror :=
  match r with
  | inl errs => map (relocate (LIdx i)) errs
  | inr _ => []
  end.

Fixpoint collect (i : nat) (rs : list (list verror + BookResponse.t))
  : list verror + list BookResponse.t :=
  match rs with
  | [] => inr []
  | r :: rs' =>
      match r, collect (S i) rs' with
      | inr b, inr bs => inr (b :: bs)
      | _, inr _ => inl (item_errors i r)
      | _, inl errs => inl (item_errors i r ++ errs)
      end
  end.

(** The result of [get_books] against [List[BookResponse]]: every item
    is read and validated, and all errors are reported. *)
Definition serialize_books (os : list nat) : OrmM (list BookResponse.t) :=
  attrs <- mmap read_attrs os ;;
  match collect 0 (map BookResponse.model_validate_attrs attrs) with
  | inr rs => mret rs
  | inl errs => mraise (ResponseValidationError errs)
  end.

(** ** The request handler of a route *)

(** [get_missing_field_error(("body",))]: no body, or the JSON [null]. *)
Definition missing_body : verror := mkVerror [LKey "body"] Missing (PyJson JNull) None.

(** The error FastAPI builds for a body [json.loads] refused. *)
Definition json_invalid_error (pos : nat) (msg : string) : verror :=
  mkVerror [LKey "body"; LIdx pos] JsonInvalid (PyJson (JObj [])) (Some msg).

(** The body parameter [book: BookCreate] (location ["body"]):
    [_validate_value_with_model_field] reports a missing body for
    [None], and otherwise validates the value with [from_attributes]. *)
Definition body_param (b : body) : list verror + BookCreate.t :=
  match b with
  | NoBody | JsonBody JNull => inl [missing_body]
  | JsonBody j =>
      match BookCreate.model_validate j with
      | inr bc => inr bc
      | inl errs => inl (map (relocate (LKey "body")) errs)
      end
  | MalformedJson pos msg => inl [json_invalid_error pos msg]
  | OtherBody raw => inl [mkVerror [LKey "body"] ModelAttributesType (PyBytes raw) None]
  end.

(** What runs while [get_db] is suspended: the body parameter is
    validated, and the endpoint runs only when it is valid; its result is
    validated against the [response_model]. *)
Definition endpoint_body (ep : endpoint) (b : body) (db : nat) : OrmM payload :=
  match ep with
  | EpCreateBook =>
      match body_param b with
      | inl errs => mraise (RequestValidationError errs)
      | inr bc => o <- create_book bc db ;; r <- serialize_book o ;; mret (PBook r)
      end
  | EpGetBooks =>
      os <- get_books db ;; rs <- serialize_books os ;; mret (PBooks rs)
  end.

(** The request's exit stack: [get_db] is entered first. *)
Definition run_endpoint (ep : endpoint) (b : body) : OrmM payload :=
  with_db (endpoint_body ep b).

(** Whether [jsonable_encoder] encodes the input of an error: it
    decodes the raw bytes of a body as UTF-8 ([bytes.decode()]). *)
Definition input_encodable (e : verror) : bool :=
  match input e with
  | PyBytes raw => JsonText.utf8_valid (String.list_ascii_of_string raw)
  | _ => true
  end.

(** [request_validation_exception_handler]: 422 with the errors
    ([{"detail": jsonable_encoder(exc.errors())}]); when encoding them
    raises, [ServerErrorMiddleware] answers 500. *)
Definition validation_response (errs : list verror) : response :=
  if forallb input_encodable errs then mkResponse 422 (PErrors errs)
  else mkResponse 500 (PDetail "Internal Server Error").

(** The exception handlers: 422 for request validation, 500 for any
    other exception. *)
Definition to_response (o : outcome exc payload) : response :=
  match o with
  | Ret p => mkResponse 200 p
  | Raise (RequestValidationError errs) => validation_response errs
  | Raise _ => mkResponse 500 (PDetail "Internal Server Error")
  end.

(** [get_request_handler]: the JSON decoding error of a POST body is
    reported before the dependencies are solved.  A GET has no body
    parameter and does not read its body. *)
Definition handle (ep : endpoint) (b : body) (w : world) : response * world :=
  match ep, b with
  | EpCreateBook, MalformedJson pos msg => (validation_response [json_invalid_error pos msg], w)
  | _, _ => let '(o, w') := run_endpoint ep b w in (to_response o, w')
  end.

(** ** The router *)

Inductive route_match : Type := NoMatch | Partial | Full.

Definition match_route (r : route) (m : method) (p : string) : route_match :=
  if String.eqb p (route_path r) then
    if existsb (fun m' => bool_decide (m' = m)) (route_methods r) then Full else Partial
  else NoMatch.

Definition find_full (m : method) (p : string) : option route :=
  find (fun r => match match_route r m p with Full => true | _ => false end) routes.

Definition path_known (p : string) : bool :=
  existsb (fun r => String.eqb p (route_path r)) routes.

(** [str.rstrip("/")] on the reversed characters of a path. *)
Fixpoint drop_slashes (l : list Ascii.ascii) : list Ascii.ascii :=
  match l with
  | c :: l' => if Ascii.eqb c "/"%char then drop_slashes l' else l
  | [] => []
  end.

(** The path Starlette's router redirects to: every trailing slash
    removed when the path ends with one ([rstrip("/")]), a slash added
    otherwise. *)
Definition redirect_path (p : string) : string :=
  match rev (String.list_ascii_of_string p) with
  | c :: _ as l =>
      if Ascii.eqb c "/"%char then String.string_of_list_ascii (rev (drop_slashes l)) else p ++ "/"
  | [] => p ++ "/"
  end.

(** The application on one request: the response, and the world after.
    The answer to a HEAD is the GET's status with the body uvicorn
    sends for it, none. *)
Definition app (req : request) (w : world) : response * world :=
  let m := req_method req in
  let p := req_path req in
  match find_full m p with
  | Some r =>
      let '(resp, w') := handle (route_endpoint r) (req_body req) w in
      if decide (m = HEAD) then (mkResponse (status resp) PEmpty, w') else (resp, w')
  | None =>
      if path_known p then (mkResponse 405 (PDetail "Method Not Allowed"), w)
      else if negb (String.eqb p "/") && path_known (redirect_path p)
      then (mkResponse 307 (PRedirect (redirect_path p)), w)
      else (mkResponse 404 (PDetail "Not Found"), w)
  end.

(** A sequence of requests, processed one after the other. *)
Fixpoint run_requests (reqs : list request) (w : world) : list response * world :=
  match reqs with
  | [] => ([], w)
  | r :: rs =>
      let '(resp, w1) := app r w in
      let '(resps, w2) := run_requests rs w1 in
      (resp :: resps, w2)
  end.

(** ** The session of a request *)

Lemma endpoint_body_sessions (n : nat) (ep : endpoint) (b : body) (db : nat) :
  preserves (sessions_at_least n) (endpoint_body ep b db).
Proof.
  unfold endpoint_body, create_book, get_books, serialize_book, serialize_books.
  solve_preserves.
Qed.

(** C5: whatever the endpoint, the body and
    the world, the session [get_db] opens for a request exists when the
    request ends and is closed, with no transaction left open: on the
    success path, on a validation error and on a database error alike. *)
Theorem request_session_closed (ep : endpoint) (b : body) (w : world) :
  w_sessions (snd (run_endpoint ep b w)) !! length (w_sessions w) =
  Some (mkSession [] [] None true).
Proof.
  unfold run_endpoint, with_db, get_db_enter, mbind, session_local.
  set (s := length (w_sessions w)).
  set (w1 := set_sessions (w_sessions w ++ [mkSession [] [] None false]) w).
  assert (Hw1 : sessions_at_least (S s) w1).
  { unfold sessions_at_least, w1, s. cbn. rewrite length_app. simpl. lia. }
  pose proof (endpoint_body_sessions (S s) ep b s w1 Hw1) as Hw2.
  unfold try_finally, get_db_exit. fold w1 s. destruct (endpoint_body ep b s w1) as [o w2].
  destruct (close_spec s w2 Hw2) as [h ->]. cbn.
  apply list_lookup_insert_eq. exact Hw2.
Qed.

(** ** Runs of the endpoints *)

#[local] Arguments Table.insert : simpl never.
#[local] Arguments Table.select_by_id : simpl never.
#[local] Arguments Datetime.decode : simpl never.

(** The session [SessionLocal()] returns, before the endpoint uses it. *)
Definition fresh_session : session := mkSession [] [] None false.

(** The instance [create_book] holds once [refresh] has loaded it in
    session [s], and the one left in the heap once [close] expunged it. *)
Definition refreshed_obj (s : option nat) (bc : BookCreate.t) (v : Z) (pd : Datetime.t) : obj :=
  mkObj (Book.mk (Some v) (Some (BookCreate.title bc)) (Some (BookCreate.author bc)) (Some pd))
        false s (Some v).

Definition created_obj (bc : BookCreate.t) (v : Z) (pd : Datetime.t) : obj := refreshed_obj None bc v pd.

(** [run_endpoint] is [SessionLocal()], then the endpoint on the new
    session, then [close] in the [finally] block. *)
Lemma run_endpoint_split (ep : endpoint) (b : body) (w : world) :
  run_endpoint ep b w =
  try_finally (endpoint_body ep b (length (w_sessions w))) (close (length (w_sessions w)))
    (set_sessions (w_sessions w ++ [fresh_session]) w).
Proof. reflexivity. Qed.

(** Closing a session that is not the last one: the other sessions are
    left as they are. *)
Lemma close_mid (ss1 ss2 : list session) (S0 : session) (w : world) :
  w_sessions w = ss1 ++ S0 :: ss2 ->
  exists h, close (length ss1) w =
    (Ret tt, mkWorld (w_db w) h (ss1 ++ mkSession [] [] None true :: ss2)
                     (w_clock w) (w_tick w) (w_rand w) (w_draw w)).
Proof.
  intros Hss. destruct (close_spec (length ss1) w) as [h Hcl].
  { rewrite Hss, length_app. simpl. lia. }
  exists h. rewrite Hcl, Hss, insert_mid. reflexivity.
Qed.

Section Body.
(** The endpoint runs on the session [length ss1], between the sessions
    of other requests: those opened before it and those opened since. *)
Variables (w : world) (ss1 ss2 : list session).
Hypothesis Hss : w_sessions w = ss1 ++ fresh_session :: ss2.

(** A POST with a valid body whose INSERT succeeds: one instance
    allocated, one clock reading, the row committed, and the refreshed
    instance returned, its date read back from the stored text. *)
Lemma body_create (b : body) (bc : BookCreate.t) (v : Z) (t' : table) (k' : nat) :
  body_param b = inr bc -> Datetime.valid (w_clock w (w_tick w)) = true ->
  Table.insert (w_rand w) (w_draw w) (Some (BookCreate.title bc)) (Some (BookCreate.author bc))
    (Some (Datetime.encode (w_clock w (w_tick w)))) (w_db w) = (inr (v, t'), k') ->
  select_by_id t' v = Some (mkRow v (Some (BookCreate.title bc)) (Some (BookCreate.author bc))
                                   (Some (Datetime.encode (w_clock w (w_tick w))))) ->
  endpoint_body EpCreateBook b (length ss1) w =
  (Ret (PBook (BookResponse.mk (BookCreate.title bc) (BookCreate.author bc) v (w_clock w (w_tick w)))),
   mkWorld t' (w_heap w ++ [refreshed_obj (Some (length ss1)) bc v (w_clock w (w_tick w))])
     (ss1 ++ mkSession [] [(v, length (w_heap w))] (Some t') false :: ss2)
     (w_clock w) (S (w_tick w)) (w_rand w) k').
Proof.
  intros Hb Hv Hins Hsel. destruct w as [db h ss clk tk rnd dr]. cbn in *. subst ss.
  unfold endpoint_body. rewrite Hb. unfold create_book, serialize_book. orm_run.
  rewrite Hins. cbn. repeat (autorewrite with py_list; cbn).
  rewrite Hsel. cbn. rewrite (Datetime.decode_encode_valid _ Hv). cbn.
  repeat (autorewrite with py_list; cbn).
  reflexivity.
Qed.

(** A POST with a valid body whose INSERT fails: the clock was read and
    the random draws made, the flush rolls the transaction back, and the
    error propagates out of [commit]; the committed table is unchanged. *)
Lemma body_insert_error (b : body) (bc : BookCreate.t) (e : sqlite_error) (k' : nat) :
  body_param b = inr bc ->
  Table.insert (w_rand w) (w_draw w) (Some (BookCreate.title bc)) (Some (BookCreate.author bc))
    (Some (Datetime.encode (w_clock w (w_tick w)))) (w_db w) = (inl e, k') ->
  exists h S1, endpoint_body EpCreateBook b (length ss1) w =
  (Raise (OperationalError e),
   mkWorld (w_db w) h (ss1 ++ S1 :: ss2) (w_clock w) (S (w_tick w)) (w_rand w) k').
Proof.
  intros Hb Hins. destruct w as [db h ss clk tk rnd dr]. cbn in *. subst ss.
  unfold endpoint_body. rewrite Hb. unfold create_book. orm_run.
  rewrite Hins. cbn. repeat (autorewrite with py_list; cbn).
  eexists _, _. reflexivity.
Qed.

(** A GET over a table with distinct rowids whose rows all read as
    attributes that validate: the table is read in rowid order, nothing
    is written, no clock is read. *)
Lemma body_get (b : body) (attrs : list Book.t) (rs : list BookResponse.t) :
  List.NoDup (map rowid (w_db w)) ->
  Forall2 (fun r a => attrs_of_row r = Some a) (w_db w) attrs ->
  collect 0 (map BookResponse.model_validate_attrs attrs) = inr rs ->
  exists h S1, endpoint_body EpGetBooks b (length ss1) w =
    (Ret (PBooks rs), mkWorld (w_db w) h (ss1 ++ S1 :: ss2)
                          (w_clock w) (w_tick w) (w_rand w) (w_draw w)).
Proof.
  intros Hnd Ha Hc. pose proof (Forall2_length Ha) as Hlen.
  destruct w as [db h ss clk tk rnd dr]. cbn in *. subst ss.
  unfold endpoint_body, get_books, query_all, begin, serialize_books.
  unfold get_session, put_session, mget, mret, mmodify, mbind. cbn.
  rewrite lookup_mid. cbn. rewrite insert_mid.
  rewrite (query_rows db attrs _ ss1 ss2 (mkSession [] [] (Some db) false));
    [cbn|reflexivity|exact Hnd|exact Ha|reflexivity].
  rewrite (read_loaded db attrs (length ss1) _ h []); [|exact Hlen|cbn; now rewrite app_nil_r].
  rewrite Hc. eexists _, _. reflexivity.
Qed.

(** A POST whose body does not validate: nothing runs. *)
Lemma body_invalid (b : body) (errs : list verror) :
  body_param b = inl errs ->
  endpoint_body EpCreateBook b (length ss1) w = (Raise (RequestValidationError errs), w).
Proof. intros Hb. unfold endpoint_body. rewrite Hb. reflexivity. Qed.
End Body.

(** The session of a request that runs alone: the last one. *)
Lemma fresh_last (w : world) :
  w_sessions (set_sessions (w_sessions w ++ [fresh_session]) w) = w_sessions w ++ fresh_session :: [].
Proof. reflexivity. Qed.

(** A POST with a valid body whose INSERT succeeds, from [SessionLocal()]
    to [close]: the request's session is closed, and the instance it
    created is left detached in the heap. *)
Lemma run_create (w : world) (b : body) (bc : BookCreate.t) (v : Z) (t' : table) (k' : nat) :
  body_param b = inr bc -> Datetime.valid (w_clock w (w_tick w)) = true ->
  Table.insert (w_rand w) (w_draw w) (Some (BookCreate.title bc)) (Some (BookCreate.author bc))
    (Some (Datetime.encode (w_clock w (w_tick w)))) (w_db w) = (inr (v, t'), k') ->
  select_by_id t' v = Some (mkRow v (Some (BookCreate.title bc)) (Some (BookCreate.author bc))
                                   (Some (Datetime.encode (w_clock w (w_tick w))))) ->
  run_endpoint EpCreateBook b w =
  (Ret (PBook (BookResponse.mk (BookCreate.title bc) (BookCreate.author bc) v (w_clock w (w_tick w)))),
   mkWorld t' (w_heap w ++ [created_obj bc v (w_clock w (w_tick w))])
     (w_sessions w ++ [mkSession [] [] None true]) (w_clock w) (S (w_tick w)) (w_rand w) k').
Proof.
  intros Hb Hv Hins Hsel. rewrite run_endpoint_split.
  unfold try_finally. rewrite (body_create _ _ _ (fresh_last w) b bc v t' k' Hb Hv Hins Hsel).
  destruct w as [db h ss clk tk rnd dr]. cbn. orm_run. reflexivity.
Qed.

(** The same for a GET. *)
Lemma run_get (w : world) (b : body) (attrs : list Book.t) (rs : list BookResponse.t) :
  List.NoDup (map rowid (w_db w)) ->
  Forall2 (fun r a => attrs_of_row r = Some a) (w_db w) attrs ->
  collect 0 (map BookResponse.model_validate_attrs attrs) = inr rs ->
  exists h, run_endpoint EpGetBooks b w =
    (Ret (PBooks rs), mkWorld (w_db w) h (w_sessions w ++ [mkSession [] [] None true])
                          (w_clock w) (w_tick w) (w_rand w) (w_draw w)).
Proof.
  intros Hnd Ha Hc. rewrite run_endpoint_split. unfold try_finally.
  destruct (body_get _ _ _ (fresh_last w) b attrs rs Hnd Ha Hc) as (h1 & S1 & ->). cbn -[close].
  destruct (close_mid (w_sessions w) [] S1 (mkWorld (w_db w) h1 (w_sessions w ++ [S1]) (w_clock w)
              (w_tick w) (w_rand w) (w_draw w)) eq_refl) as [h2 ->].
  exists h2. reflexivity.
Qed.

(** The same for a POST whose INSERT fails: the committed table is
    unchanged and the request's session is closed. *)
Lemma run_insert_error (w : world) (b : body) (bc : BookCreate.t) (e : sqlite_error) (k' : nat) :
  body_param b = inr bc ->
  Table.insert (w_rand w) (w_draw w) (Some (BookCreate.title bc)) (Some (BookCreate.author bc))
    (Some (Datetime.encode (w_clock w (w_tick w)))) (w_db w) = (inl e, k') ->
  exists h, run_endpoint EpCreateBook b w =
    (Raise (OperationalError e),
     mkWorld (w_db w) h (w_sessions w ++ [mkSession [] [] None true])
       (w_clock w) (S (w_tick w)) (w_rand w) k').
Proof.
  intros Hb Hins. rewrite run_endpoint_split. unfold try_finally.
  destruct (body_insert_error _ _ _ (fresh_last w) b bc e k' Hb Hins) as (h1 & S1 & ->). cbn -[close].
  destruct (close_mid (w_sessions w) [] S1 (mkWorld (w_db w) h1 (w_sessions w ++ [S1]) (w_clock w)
              (S (w_tick w)) (w_rand w) k') eq_refl) as [h2 ->].
  exists h2. reflexivity.
Qed.

(** The same for a POST whose body does not validate: nothing else
    changes but the heap. *)
Lemma run_invalid (w : world) (b : body) (errs : list verror) :
  body_param b = inl errs ->
  exists h, run_endpoint EpCreateBook b w =
    (Raise (RequestValidationError errs),
     mkWorld (w_db w) h (w_sessions w ++ [mkSession [] [] None true])
       (w_clock w) (w_tick w) (w_rand w) (w_draw w)).
Proof.
  intros Hb. rewrite run_endpoint_split. unfold try_finally.
  rewrite (body_invalid _ (w_sessions w) b errs Hb). cbn -[close].
  destruct (close_mid (w_sessions w) [] fresh_session (set_sessions (w_sessions w ++ [fresh_session]) w)
              eq_refl) as [h ->].
  exists h. reflexivity.
Qed.

(** ** The two routes *)

Definition post_request (b : body) : request := mkRequest POST "/books/" b.
Definition get_request : request := mkRequest GET "/books/" NoBody.

(** A POST on ["/books/"] runs [create_book]'s handler. *)
Lemma app_post (b : body) (w : world) :
  (forall pos msg, b <> MalformedJson pos msg) ->
  app (post_request b) w = let '(o, w') := run_endpoint EpCreateBook b w in (to_response o, w').
Proof.
  intros Hb. unfold app, post_request. cbv zeta. cbn [req_method req_path req_body].
  replace (find_full POST "/books/") with (Some (mkRoute "/books/" [POST] EpCreateBook)) by reflexivity.
  unfold handle. cbn [route_endpoint].
  destruct b as [|pos msg| |]; [| now destruct (Hb pos msg) | |];
    match goal with |- context [run_endpoint EpCreateBook ?b w] => destruct (run_endpoint EpCreateBook b w) end;
    reflexivity.
Qed.

(** A POST whose body does not validate. *)
Lemma app_post_invalid (w : world) (b : body) (errs : list verror) :
  body_param b = inl errs ->
  fst (app (post_request b) w) = validation_response errs /\
  w_db (snd (app (post_request b) w)) = w_db w /\ w_clock (snd (app (post_request b) w)) = w_clock w /\
  w_tick (snd (app (post_request b) w)) = w_tick w.
Proof.
  intros Hb. destruct b as [|pos msg| |].
  2: injection Hb as <-; repeat split.
  all: rewrite (app_post _ w) by (intros pos msg Hp; discriminate Hp);
    destruct (run_invalid w _ errs Hb) as [h ->]; repeat split.
Qed.

(** A GET on ["/books/"] runs [get_books]'s handler. *)
Lemma app_get (w : world) :
  app get_request w = let '(o, w') := run_endpoint EpGetBooks NoBody w in (to_response o, w').
Proof.
  unfold app, get_request. cbv zeta. cbn [req_method req_path req_body].
  replace (find_full GET "/books/") with (Some (mkRoute "/books/" [GET; HEAD] EpGetBooks)) by reflexivity.
  unfold handle. cbn [route_endpoint].
  destruct (run_endpoint EpGetBooks NoBody w); reflexivity.
Qed.

End App.
