(* ===== verification/Refinement.v ===== *)
(** * The application implements the abstract book store

    The abstraction: a world refines a store [s] of [Spec] when its
    committed [books] table holds exactly the rows of the books of [s],
    in order, with the ids of a store the service built.  Every request
    the application serves keeps the relation and answers as the store
    does: a POST with a valid body is [Spec.create] (the date being the
    clock reading of the flush), a GET is [Spec.list_books], and a POST
    with an invalid body changes nothing and is answered by the
    validation handler (422, or 500 when the errors cannot be encoded).  The
    properties the spec lists for the service follow, at the level of
    HTTP requests and responses. *)

From S2P Require Import Prelude Datetime Json Schema Sqlite Spec Orm Handlers App.

Import Json Table Orm Handlers App.

Module Refinement.
Local Open Scope Z_scope.

(** The row of a book (its date as the stored text), the attributes
    an instance loaded from it has, and the response that shows it. *)
Definition row_of_book (b : Spec.book) : row :=
  mkRow (Spec.id b) (Some (Spec.title b)) (Some (Spec.author b))
        (Some (Datetime.encode (Spec.published_date b))).

Definition attrs_of_book (b : Spec.book) : Book.t :=
  Book.mk (Some (Spec.id b)) (Some (Spec.title b)) (Some (Spec.author b)) (Some (Spec.published_date b)).

Definition response_of_book (b : Spec.book) : BookResponse.t :=
  BookResponse.mk (Spec.title b) (Spec.author b) (Spec.id b) (Spec.published_date b).

Definition refines (w : world) (s : Spec.store) : Prop :=
  w_db w = map row_of_book s /\ Spec.ids_ok s /\ Forall (fun b => Spec.id b <= MAX_ROWID) s /\
  Forall (fun b => Datetime.valid (Spec.published_date b) = true) s.

(** ** The table of a store *)

Lemma refines_table_wf (w : world) (s : Spec.store) : refines w s -> table_wf (w_db w).
Proof.
  intros (-> & [Hinc Hpos] & Hmax & _). split.
  - unfold row_of_book. rewrite map_map. exact Hinc.
  - apply Forall_map. apply Forall_and; [exact Hpos|exact Hmax].
Qed.

(** The largest rowid of the table is the largest id of the store. *)
Lemma btree_last_books (s : Spec.store) (r : row) :
  Spec.ids_ok s -> btree_last (map row_of_book s) = Some r -> rowid r = Spec.max_id s.
Proof.
  induction s as [|b s IH]; [discriminate|]. intros [Hinc Hpos] Hl.
  apply increasing_cons_iff in Hinc as [Hinc Hlt]. invc Hpos.
  destruct s as [|b1 s].
  - invc Hl. simpl. lia.
  - change (btree_last (map row_of_book (b1 :: s)) = Some r) in Hl.
    rewrite (IH (conj Hinc H2) Hl). change (Spec.max_id (b :: b1 :: s)) with (Z.max (Spec.id b) (Spec.max_id (b1 :: s))).
    pose proof (Spec.max_id_ge (b1 :: s)) as Hge. invc Hge. invc Hlt. lia.
Qed.

Lemma next_rowid_books (s : Spec.store) :
  Spec.ids_ok s -> next_rowid (map row_of_book s) = Spec.next_id s.
Proof.
  intros Hok. unfold next_rowid, Spec.next_id.
  destruct (btree_last (map row_of_book s)) as [r|] eqn:Hl.
  - now rewrite (btree_last_books s r Hok Hl).
  - apply btree_last_None in Hl. destruct s; [reflexivity|discriminate].
Qed.

(** The rows of books with valid dates are read back as the books'
    attributes, which validate as the list of their responses. *)
Lemma rows_of_books_read (s : Spec.store) :
  Forall (fun b => Datetime.valid (Spec.published_date b) = true) s ->
  Forall2 (fun r a => attrs_of_row r = Some a) (map row_of_book s) (map attrs_of_book s).
Proof.
  induction 1 as [|b s Hv _ IH]; constructor; [|exact IH].
  unfold attrs_of_row, row_of_book. cbn -[Datetime.decode Datetime.encode]. now rewrite (Datetime.decode_encode_valid _ Hv).
Qed.

Lemma collect_books (i : nat) (s : Spec.store) :
  collect i (map BookResponse.model_validate_attrs (map attrs_of_book s)) = inr (map response_of_book s).
Proof. revert i. induction s as [|b s IH]; intros i; [reflexivity|]. simpl. now rewrite IH. Qed.

(** ** Refinement *)


(** One valid POST on a world refining [s]. *)
Lemma create_step (w : world) (s : Spec.store) (b : body) (bc : BookCreate.t) :
  refines w s -> body_param b = inr bc -> Spec.next_id s <= MAX_ROWID ->
  Datetime.valid (w_clock w (w_tick w)) = true ->
  let '(bk, s') := Spec.create s (BookCreate.title bc) (BookCreate.author bc) (w_clock w (w_tick w)) in
  exists w', app (post_request b) w = (mkResponse 200 (PBook (response_of_book bk)), w') /\
    refines w' s' /\ w_clock w' = w_clock w /\ w_tick w' = S (w_tick w) /\
    w_rand w' = w_rand w /\ w_draw w' = w_draw w.
Proof.
  intros Href Hb Hbound Hclk. pose proof (refines_table_wf w s Href) as Hwf.
  destruct Href as (Hdb & Hok & Hmax & Hdates).
  assert (Hbelow : forall r, btree_last (w_db w) = Some r -> rowid r < MAX_ROWID).
  { intros r Hl. rewrite Hdb in Hl. rewrite (btree_last_books s r Hok Hl).
    unfold Spec.next_id in Hbound. lia. }
  pose proof (insert_below_max (w_rand w) (w_draw w) (Some (BookCreate.title bc))
    (Some (BookCreate.author bc)) (Some (Datetime.encode (w_clock w (w_tick w)))) (w_db w) Hwf Hbelow) as Hins.
  destruct (insert_spec _ _ _ _ _ _ _ _ _ Hwf Hins) as (_ & _ & Hsel).
  rewrite (app_post b w) by (intros pos msg ->; discriminate Hb).
  rewrite (run_create w b bc _ _ _ Hb Hclk Hins Hsel). cbn.
  rewrite Hdb, next_rowid_books by exact Hok.
  eexists. split; [reflexivity|]. cbn. split; [|repeat split].
  split; [now rewrite map_app|]. split.
  - exact (Spec.create_ids_ok s _ _ _ Hok).
  - split; apply Forall_app; split; try assumption; repeat constructor; assumption.
Qed.


(** One GET on a world refining [s]. *)
Lemma list_step (w : world) (s : Spec.store) :
  refines w s ->
  exists w', app get_request w = (mkResponse 200 (PBooks (map response_of_book (Spec.list_books s))), w') /\
    refines w' s /\ w_clock w' = w_clock w /\ w_tick w' = w_tick w /\
    w_rand w' = w_rand w /\ w_draw w' = w_draw w.
Proof.
  intros Href. pose proof Href as (Hdb & [Hinc _] & _ & Hdates).
  assert (Hnd : List.NoDup (map rowid (w_db w))).
  { rewrite Hdb. unfold row_of_book. rewrite map_map. now apply increasing_NoDup. }
  assert (Ha := rows_of_books_read s Hdates). rewrite <- Hdb in Ha.
  destruct (run_get w NoBody _ _ Hnd Ha (collect_books 0 s)) as [h Hrun].
  rewrite app_get, Hrun. cbn.
  eexists. split; [reflexivity|]. split; [exact Href|]. repeat split.
Qed.


(** A valid POST then a GET on a world refining [s]. *)
Lemma create_list_step (w : world) (s : Spec.store) (b : body) (bc : BookCreate.t) :
  refines w s -> body_param b = inr bc -> Spec.next_id s <= MAX_ROWID ->
  Datetime.valid (w_clock w (w_tick w)) = true ->
  let bk := Spec.mk (Spec.next_id s) (BookCreate.title bc) (BookCreate.author bc) (w_clock w (w_tick w)) in
  ~ In (Spec.id bk) (map Spec.id s) /\
  exists w', run_requests [post_request b; get_request] w =
    ([mkResponse 200 (PBook (response_of_book bk));
      mkResponse 200 (PBooks (map response_of_book s ++ [response_of_book bk]))], w') /\
    refines w' (s ++ [bk]).
Proof.
  intros Href Hb Hbound Hclk bk.
  pose proof (@Spec.create_then_list_spec Spec.store Spec.list_store Spec.list_store_laws s (BookCreate.title bc) (BookCreate.author bc)
                (w_clock w (w_tick w))) as Hspec. cbn in Hspec.
  split; [apply Hspec|].
  pose proof (create_step w s b bc Href Hb Hbound Hclk) as Hc. cbn in Hc.
  destruct Hc as (w1 & Hpost & Href1 & _).
  destruct (list_step w1 _ Href1) as (w2 & Hget & Href2 & _).
  exists w2. cbn. rewrite Hpost, Hget. unfold Spec.list_books. rewrite map_app. now split.
Qed.

(** C1: on a world that refines a store [s], a POST
    of a valid body is answered 200 with the book [Spec.create] adds,
    whose id is the next id of [s] and whose date is the clock reading of
    the flush, and the world after refines the store with that book
    appended; the request reads the clock once and draws no random
    number.  The only hypothesis beyond the relation is that the next id
    fits in SQLite's 64-bit rowid, and that the clock reads a [datetime]
    Python can construct. *)
Theorem create_refines (w : world) (s : Spec.store) (b : body) (bc : BookCreate.t) :
  refines w s -> body_param b = inr bc -> Spec.next_id s <= MAX_ROWID ->
  Datetime.valid (w_clock w (w_tick w)) = true ->
  let '(bk, s') := Spec.create s (BookCreate.title bc) (BookCreate.author bc) (w_clock w (w_tick w)) in
  exists w', app (post_request b) w = (mkResponse 200 (PBook (response_of_book bk)), w') /\
    refines w' s' /\ w_clock w' = w_clock w /\ w_tick w' = S (w_tick w) /\
    w_rand w' = w_rand w /\ w_draw w' = w_draw w.
Proof. intros; eapply create_step; eassumption. Qed.

(** C2: on a world that refines a store [s], a GET is
    answered 200 with the books of [s] in order, and the world after
    refines the same store: the request writes nothing, reads no clock
    and draws no random number. *)
Theorem list_refines (w : world) (s : Spec.store) :
  refines w s ->
  exists w', app get_request w = (mkResponse 200 (PBooks (map response_of_book (Spec.list_books s))), w') /\
    refines w' s /\ w_clock w' = w_clock w /\ w_tick w' = w_tick w /\
    w_rand w' = w_rand w /\ w_draw w' = w_draw w.
Proof. intros; eapply list_step; eassumption. Qed.

(** C7: on a world that refines a store [s], a
    POST whose body does not validate against [BookCreate] (a missing or
    non-string field, a body that is not a JSON object, no body or
    [null], JSON that does not parse, or a body that is not JSON) is
    answered by FastAPI's validation handler with the errors
    [body_param] reports (422, or 500 when encoding them raises), and
    the world after refines the same store: no row is written. *)
Theorem invalid_body_unchanged (w : world) (s : Spec.store) (b : body) (errs : list verror) :
  refines w s -> body_param b = inl errs ->
  exists w', app (post_request b) w = (validation_response errs, w') /\ refines w' s.
Proof.
  intros Href Hb. destruct b as [|pos msg| j |].
  1, 3, 4:
    rewrite (app_post _ w) by (intros pos msg Hp; discriminate Hp);
    destruct (run_invalid w _ errs Hb) as [h ->]; cbn;
    eexists; split; [reflexivity|]; exact Href.
  injection Hb as <-. exists w. split; [reflexivity|exact Href].
Qed.

(** C8: on a world that refines a store [s], a POST of a valid body
    whose INSERT fails (OP_NewRowid finds no free rowid: SQLITE_FULL) is
    answered 500, and the world after refines the same store: the flush
    rolled its transaction back and nothing was committed; the clock was
    read once and the random draws of the failed probes are consumed. *)
Theorem insert_error_500 (w : world) (s : Spec.store) (b : body) (bc : BookCreate.t)
    (e : sqlite_error) (k' : nat) :
  refines w s -> body_param b = inr bc ->
  Table.insert (w_rand w) (w_draw w) (Some (BookCreate.title bc)) (Some (BookCreate.author bc))
    (Some (Datetime.encode (w_clock w (w_tick w)))) (w_db w) = (inl e, k') ->
  exists w', app (post_request b) w = (mkResponse 500 (PDetail "Internal Server Error"), w') /\
    refines w' s /\ w_tick w' = S (w_tick w) /\ w_draw w' = k'.
Proof.
  intros Href Hb Hins.
  rewrite (app_post b w) by (intros pos msg ->; discriminate Hb).
  destruct (run_insert_error w b bc e k' Hb Hins) as [h ->].
  eexists. split; [reflexivity|]. split; [|split; reflexivity].
  destruct Href as (Hdb & Hok & Hmax & Hdates). exact (conj Hdb (conj Hok (conj Hmax Hdates))).
Qed.

(** ** Consequences for clients *)

(** The id a response reports for a created book. *)
Definition created_id (r : response) : option Z :=
  match payload_of r with
  | PBook b => Some (BookResponse.id b)
  | _ => None
  end.

Lemma max_id_snoc (s : Spec.store) (b : Spec.book) :
  Spec.max_id (s ++ [b]) = Z.max (Spec.max_id s) (Spec.id b).
Proof. induction s as [|b' s IH]; simpl; [lia|]. rewrite IH. lia. Qed.

Lemma refines_nil (w : world) : w_db w = [] -> refines w [].
Proof. intros H. split; [exact H|]. repeat constructor. Qed.

(** C4: a POST of a valid body followed by a GET:
    the POST answers the new book, with the next id and the flush's clock
    reading, and the GET answers the books of before followed by exactly
    this one, whose id no earlier book has. *)
Theorem create_then_list (w : world) (s : Spec.store) (b : body) (bc : BookCreate.t) :
  refines w s -> body_param b = inr bc -> Spec.next_id s <= MAX_ROWID ->
  Datetime.valid (w_clock w (w_tick w)) = true ->
  let bk := Spec.mk (Spec.next_id s) (BookCreate.title bc) (BookCreate.author bc) (w_clock w (w_tick w)) in
  ~ In (Spec.id bk) (map Spec.id s) /\
  exists w', run_requests [post_request b; get_request] w =
    ([mkResponse 200 (PBook (response_of_book bk));
      mkResponse 200 (PBooks (map response_of_book s ++ [response_of_book bk]))], w') /\
    refines w' (s ++ [bk]).
Proof. intros; eapply create_list_step; eassumption. Qed.

(** C18: N valid POSTs in sequence are all
    answered 200, with the ids [m+1], ..., [m+N] where [m] is the largest
    id before, hence strictly increasing, provided the last one fits in
    SQLite's 64-bit rowid and the clock reads valid datetimes. *)
Theorem creates_increasing_ids (w : world) (s : Spec.store) (bs : list body) :
  refines w s -> Forall (fun b => exists bc, body_param b = inr bc) bs ->
  Spec.max_id s + Z.of_nat (length bs) <= MAX_ROWID ->
  (forall n, Datetime.valid (w_clock w n) = true) ->
  exists resps w', run_requests (map post_request bs) w = (resps, w') /\
    Forall (fun r => status r = 200) resps /\
    map created_id resps = map (fun i => Some (Spec.max_id s + Z.of_nat i)) (seq 1 (length bs)).
Proof.
  revert w s. induction bs as [|b bs IH]; intros w s Href Hv Hbound Hclk.
  - exists [], w. repeat split; constructor.
  - invc Hv. destruct H1 as [bc Hb]. cbn [length] in Hbound.
    pose proof (create_step w s b bc Href Hb ltac:(unfold Spec.next_id; lia) (Hclk _)) as Hc.
    cbn in Hc. destruct Hc as (w1 & Hpost & Href1 & Hclk1 & _).
    destruct (IH w1 _ Href1 H2) as (resps & w2 & Hrun & Hst & Hids).
    { rewrite max_id_snoc. simpl. unfold Spec.next_id. lia. }
    { rewrite Hclk1. exact Hclk. }
    eexists (_ :: resps), w2. cbn. rewrite Hpost, Hrun.
    split; [reflexivity|]. split; [now constructor|]. cbn. rewrite Hids.
    unfold Spec.next_id. rewrite max_id_snoc. cbn. f_equal.
    rewrite <- (seq_shift (length bs) 1), map_map. apply map_ext. intros i. f_equal. lia.
Qed.

(** C19: with a clock that never goes back, the
    [published_date] of a created book is no earlier than the clock when
    the request starts and no later than the clock when it completes. *)
Theorem published_date_within (w : world) (s : Spec.store) (b : body) (bc : BookCreate.t) :
  refines w s -> body_param b = inr bc -> Spec.next_id s <= MAX_ROWID ->
  Datetime.valid (w_clock w (w_tick w)) = true ->
  (forall n m, (n <= m)%nat -> Datetime.le (w_clock w n) (w_clock w m) = true) ->
  exists r w', app (post_request b) w = (mkResponse 200 (PBook r), w') /\
    Datetime.le (w_clock w (w_tick w)) (BookResponse.published_date r) = true /\
    Datetime.le (BookResponse.published_date r) (w_clock w' (w_tick w')) = true.
Proof.
  intros Href Hb Hbound Hv Hmono.
  pose proof (create_step w s b bc Href Hb Hbound Hv) as Hc. cbn in Hc.
  destruct Hc as (w' & Hpost & _ & Hclk & Htick & _).
  eexists _, w'. split; [exact Hpost|]. cbn. rewrite Hclk, Htick.
  split; [apply Datetime.le_refl|]. apply Hmono. lia.
Qed.

(** The body of the scenario of the spec. *)
Definition dune_body : body := JsonBody (JObj [("title", JStr "Dune"); ("author", JStr "Herbert")]).

(** ** Witnesses *)

(** The application at start, with a clock that always reads [d0] and a
    random source that always draws 0. *)
Definition d0 : Datetime.t := Datetime.mk 2026 11 9 12 0 0 0.

Definition w0 : world := init_world (fun _ => d0) (fun _ => 0).

Definition dune_create : BookCreate.t := BookCreate.mk "Dune" "Herbert".

Lemma w0_refines : refines w0 [].
Proof. now apply refines_nil. Qed.

Lemma create_refines_witness :
  let '(bk, s') := Spec.create [] "Dune" "Herbert" (w_clock w0 (w_tick w0)) in
  exists w', app (post_request dune_body) w0 = (mkResponse 200 (PBook (response_of_book bk)), w') /\
    refines w' s' /\ w_clock w' = w_clock w0 /\ w_tick w' = S (w_tick w0) /\
    w_rand w' = w_rand w0 /\ w_draw w' = w_draw w0.
Proof.
  exact (create_refines w0 [] dune_body dune_create w0_refines eq_refl
           ltac:(unfold Spec.next_id, MAX_ROWID; simpl; lia) eq_refl).
Defined.

Lemma list_refines_witness :
  exists w', app get_request w0 = (mkResponse 200 (PBooks (map response_of_book (Spec.list_books []))), w') /\
    refines w' [] /\ w_clock w' = w_clock w0 /\ w_tick w' = w_tick w0 /\
    w_rand w' = w_rand w0 /\ w_draw w' = w_draw w0.
Proof. exact (list_refines w0 [] w0_refines). Defined.

Lemma invalid_body_unchanged_witness :
  exists w', app (post_request NoBody) w0 = (validation_response [missing_body], w') /\ refines w' [].
Proof. exact (invalid_body_unchanged w0 [] NoBody [missing_body] w0_refines eq_refl). Defined.

Lemma create_then_list_witness :
  let bk := Spec.mk 1 "Dune" "Herbert" d0 in
  ~ In (Spec.id bk) (map Spec.id []) /\
  exists w', run_requests [post_request dune_body; get_request] w0 =
    ([mkResponse 200 (PBook (response_of_book bk));
      mkResponse 200 (PBooks (map response_of_book [] ++ [response_of_book bk]))], w') /\
    refines w' ([] ++ [bk]).
Proof.
  exact (create_then_list w0 [] dune_body dune_create w0_refines eq_refl
           ltac:(unfold Spec.next_id, MAX_ROWID; simpl; lia) eq_refl).
Defined.

Lemma creates_increasing_ids_witness :
  exists resps w', run_requests (map post_request [dune_body; dune_body]) w0 = (resps, w') /\
    Forall (fun r => status r = 200) resps /\
    map created_id resps = map (fun i => Some (Spec.max_id [] + Z.of_nat i)) (seq 1 2).
Proof.
  exact (creates_increasing_ids w0 [] [dune_body; dune_body] w0_refines
           ltac:(repeat constructor; eexists; reflexivity)
           ltac:(unfold MAX_ROWID; simpl; lia) (fun _ => eq_refl)).
Defined.

Lemma published_date_within_witness :
  exists r w', app (post_request dune_body) w0 = (mkResponse 200 (PBook r), w') /\
    Datetime.le (w_clock w0 (w_tick w0)) (BookResponse.published_date r) = true /\
    Datetime.le (BookResponse.published_date r) (w_clock w' (w_tick w')) = true.
Proof.
  exact (published_date_within w0 [] dune_body dune_create w0_refines eq_refl
           ltac:(unfold Spec.next_id, MAX_ROWID; simpl; lia) eq_refl
           (fun n m _ => eq_refl)).
Defined.

(** A store whose largest id is [MAX_ROWID] and whose id 1 is taken:
    with a random source that always draws 0, every probe tries rowid 1. *)
Definition full_store : Spec.store :=
  [Spec.mk 1 "Dune" "Herbert" d0; Spec.mk MAX_ROWID "Emma" "Austen" d0].

Definition w_full : world := mkWorld (map row_of_book full_store) [] [] (fun _ => d0) 0 (fun _ => 0) 0.

Lemma insert_error_500_witness :
  exists w', app (post_request dune_body) w_full = (mkResponse 500 (PDetail "Internal Server Error"), w') /\
    refines w' full_store /\ w_tick w' = S (w_tick w_full) /\ w_draw w' = 100%nat.
Proof.
  apply (insert_error_500 w_full full_store dune_body dune_create SQLITE_FULL 100).
  - split; [reflexivity|]. split; [split|split]; repeat constructor; vm_compute; congruence.
  - reflexivity.
  - vm_compute. reflexivity.
Defined.

End Refinement.
