(* ===== verification/Invariant.v ===== *)
(** * The table invariant under every request

    Whatever requests arrive, in whatever order, with whatever bodies,
    paths and methods, and whatever the database answers (a failed
    INSERT, a row whose date cannot be read, an instance that cannot be
    refreshed), the committed [books] table keeps the invariant
    [table_wf] of [Sqlite]: rowids strictly increasing, hence unique, and
    within [1, 2^63-1].  The table changes only when a session commits
    its transaction's table, so the invariant of the world, [world_ok],
    also asks that every open transaction's table is well formed.  The
    proof follows the code: every session operation of [Orm], the
    handlers and the request pipeline of [App] satisfy the [triple] of
    [world_ok], with what they return known to be well formed where it
    is a table or a session. *)

From S2P Require Import Prelude Datetime Json Schema Sqlite Orm Handlers App.

Import Table Orm Handlers App.

Module Invariant.
Local Open Scope py_scope.

(** A session whose open transaction, if any, works on a well-formed table. *)
Definition txn_ok (ss : session) : Prop :=
  forall t, s_txn ss = Some t -> table_wf t.

Definition world_ok (w : world) : Prop :=
  table_wf (w_db w) /\ Forall txn_ok (w_sessions w).

(** ** Sessions and worlds *)

Lemma txn_ok_none (a : list nat) (b : list (Z * nat)) (c : bool) : txn_ok (mkSession a b None c).
Proof. intros t [=]. Qed.

Lemma txn_ok_some (a : list nat) (b : list (Z * nat)) (t : table) (c : bool) :
  table_wf t -> txn_ok (mkSession a b (Some t) c).
Proof. intros Ht t' [= <-]. exact Ht. Qed.

Lemma txn_ok_table (ss : session) (t : table) : txn_ok ss -> s_txn ss = Some t -> table_wf t.
Proof. intros H. exact (H t). Qed.

Lemma world_ok_db (w : world) : world_ok w -> table_wf (w_db w).
Proof. intros [H _]. exact H. Qed.

Lemma world_ok_heap (h : list obj) (w : world) : world_ok w -> world_ok (set_heap h w).
Proof. intros H. exact H. Qed.

Lemma world_ok_tick (n : nat) (w : world) : world_ok w -> world_ok (set_tick n w).
Proof. intros H. exact H. Qed.

Lemma world_ok_draw (n : nat) (w : world) : world_ok w -> world_ok (set_draw n w).
Proof. intros H. exact H. Qed.

(** The application starts on a [test.db] that is new or whose [books]
    table is well formed. *)
Lemma world_ok_startup (disk : string -> option table) (clock : nat -> Datetime.t) (rand : nat -> Z) :
  (forall t, disk (db_path DATABASE_URL) = Some t -> table_wf t) -> world_ok (startup disk clock rand).
Proof.
  intros Hd. split; [|constructor]. cbn. destruct (disk _) as [t|] eqn:Ht; [exact (Hd t eq_refl)|].
  split; constructor.
Qed.

Lemma world_ok_init (clock : nat -> Datetime.t) (rand : nat -> Z) : world_ok (init_world clock rand).
Proof. apply world_ok_startup. discriminate. Qed.

Create HintDb wf discriminated.
#[export] Hint Resolve txn_ok_none txn_ok_some txn_ok_table world_ok_db world_ok_heap
  world_ok_tick world_ok_draw : wf.

(** ** The session operations *)

Abbreviation ok := (triple (E := exc) world_ok).

Lemma get_obj_ok (o : nat) : ok (get_obj o) (fun _ => True).
Proof. intros w Hw. unfold get_obj. destruct (w_heap w !! o); split; easy. Qed.

Lemma get_session_ok (s : nat) : ok (get_session s) txn_ok.
Proof.
  intros w Hw. unfold get_session. destruct (w_sessions w !! s) as [ss|] eqn:Hs; split; try easy.
  intros x [= <-]. destruct Hw as [_ Hss]. exact (Forall_lookup_1 _ _ _ _ Hss Hs).
Qed.

Lemma put_session_ok (s : nat) (x : session) : txn_ok x -> ok (put_session s x) (fun _ => True).
Proof.
  intros Hx. apply triple_modify. intros w [Hdb Hss]. split; [exact Hdb|].
  cbn. now apply Forall_insert.
Qed.

Lemma put_obj_ok (o : nat) (x : obj) : ok (put_obj o x) (fun _ => True).
Proof. apply triple_modify. intros w Hw. exact Hw. Qed.

Lemma modify_heap_ok (f : world -> list obj) :
  ok (mmodify (fun w => set_heap (f w) w)) (fun _ => True).
Proof. apply triple_modify. intros w Hw. exact Hw. Qed.

Lemma get_ok : ok mget world_ok.
Proof. apply triple_get. Qed.

Lemma utcnow_ok : ok utcnow (fun _ => True).
Proof. intros w Hw. split; easy. Qed.

Lemma session_local_ok : ok session_local (fun _ => True).
Proof.
  intros w [Hdb Hss]. split; [|easy]. split; [exact Hdb|]. cbn.
  apply Forall_app. split; [exact Hss|]. constructor; [apply txn_ok_none|constructor].
Qed.

Lemma book_new_ok (kw : list (string * string)) : ok (book_new kw) (fun _ => True).
Proof. unfold book_new. destruct (Book.init kw); [|apply triple_raise]. intros w Hw. split; easy. Qed.

(** An INSERT into a well-formed table gives a well-formed table. *)
Lemma sql_insert_ok (a : Book.t) (pd : Datetime.t) (t : table) :
  table_wf t -> ok (sql_insert a pd t) (fun r => table_wf (snd r)).
Proof.
  intros Ht w Hw. unfold sql_insert.
  destruct (Table.insert _ _ _ _ _ _) as [[e|[v t']] k'] eqn:Hins; cbn; split; try easy.
  intros r [= <-]. cbn. exact (proj1 (insert_spec _ _ _ _ _ _ _ _ _ Ht Hins)).
Qed.

#[export] Hint Resolve get_obj_ok get_session_ok put_session_ok put_obj_ok modify_heap_ok
  get_ok utcnow_ok session_local_ok book_new_ok sql_insert_ok : wf.

Ltac solve_ok := solve_triple ltac:(eauto with wf).

Lemma begin_ok (s : nat) : ok (begin s) table_wf.
Proof.
  unfold begin. solve_ok.
Qed.

Lemma set_txn_ok (s : nat) (t : table) : table_wf t -> ok (set_txn s t) (fun _ => True).
Proof. intros Ht. unfold set_txn. solve_ok. Qed.

#[export] Hint Resolve begin_ok set_txn_ok : wf.

Lemma set_db_ok (t : table) : table_wf t -> ok (mmodify (set_db t)) (fun _ => True).
Proof. intros Ht. apply triple_modify. intros w [_ Hss]. split; [exact Ht|exact Hss]. Qed.

Lemma expire_ok (o : nat) : ok (expire o) (fun _ => True).
Proof. unfold expire. solve_ok. Qed.

Lemma detach_ok (o : nat) : ok (detach o) (fun _ => True).
Proof. apply modify_heap_ok. Qed.

#[export] Hint Resolve set_db_ok expire_ok detach_ok : wf.

Lemma add_ok (s o : nat) : ok (add s o) (fun _ => True).
Proof. unfold add. solve_ok. Qed.

#[export] Hint Resolve add_ok : wf.

Lemma flush_one_ok (s o : nat) : ok (flush_one s o) (fun _ => True).
Proof. unfold flush_one. solve_ok. Qed.

#[export] Hint Resolve flush_one_ok : wf.

(** Run the code [c] of the goal [world_ok (snd (c w)) /\ ...] from a
    world [w] that [Hw] shows satisfies the invariant. *)
Ltac run_ok Hw :=
  match type of Hw with
  | world_ok ?w =>
    match goal with
    | |- world_ok (snd (?c w)) /\ _ =>
        let Hk := fresh in assert (Hk : ok c (fun _ => True)) by solve_ok; exact (Hk w Hw)
    end
  end.

(** A flush keeps the invariant when it succeeds and when an INSERT
    fails and the transaction is rolled back. *)
Lemma flush_ok (s : nat) : ok (flush s) (fun _ => True).
Proof.
  intros w Hw. unfold flush.
  destruct (get_session_ok s w Hw) as [H1 _].
  destruct (get_session s w) as [[ss|e] w1]; cbn in H1; cbv beta iota; [|split; easy].
  assert (Hm : ok (mmap (flush_one s) (s_new ss)) (Forall (fun _ => True))) by solve_ok.
  destruct (Hm w1 H1) as [H2 _].
  destruct (mmap (flush_one s) (s_new ss) w1) as [[u|e] w2]; cbn in H2; cbv beta iota; run_ok H2.
Qed.

#[export] Hint Resolve flush_ok : wf.

Lemma commit_ok (s : nat) : ok (commit s) (fun _ => True).
Proof. unfold commit. solve_ok. Qed.

Lemma load_ok (s o : nat) (v : Z) : ok (load s o v) (fun _ => True).
Proof. unfold load. solve_ok. Qed.

#[export] Hint Resolve commit_ok load_ok : wf.

Lemma refresh_ok (s o : nat) : ok (refresh s o) (fun _ => True).
Proof. unfold refresh. solve_ok. Qed.

Lemma read_attrs_ok (o : nat) : ok (read_attrs o) (fun _ => True).
Proof. unfold read_attrs. solve_ok. Qed.

Lemma instance_of_row_ok (s : nat) (r : row) : ok (instance_of_row s r) (fun _ => True).
Proof.
  unfold instance_of_row. solve_ok.
  intros a _ w Hw. cbv beta. run_ok (world_ok_heap (w_heap w ++ [mkObj a false (Some s) (Some (rowid r))]) w Hw).
Qed.

#[export] Hint Resolve refresh_ok read_attrs_ok instance_of_row_ok : wf.

Lemma query_all_ok (s : nat) : ok (query_all s) (fun _ => True).
Proof. unfold query_all. solve_ok. Qed.

Lemma close_ok (s : nat) : ok (close s) (fun _ => True).
Proof. unfold close. solve_ok. Qed.

#[export] Hint Resolve query_all_ok close_ok : wf.

(** ** The handlers and the request pipeline *)

Lemma with_db_ok {A} (body : nat -> OrmM A) :
  (forall db, ok (body db) (fun _ => True)) -> ok (with_db body) (fun _ => True).
Proof. intros Hb. unfold with_db, get_db_enter, get_db_exit. solve_ok. Qed.

Lemma create_book_ok (bc : BookCreate.t) (db : nat) : ok (create_book bc db) (fun _ => True).
Proof. unfold create_book. solve_ok. Qed.

Lemma get_books_ok (db : nat) : ok (get_books db) (fun _ => True).
Proof. unfold get_books. solve_ok. Qed.

#[export] Hint Resolve create_book_ok get_books_ok : wf.

Lemma endpoint_body_ok (ep : endpoint) (b : body) (db : nat) :
  ok (endpoint_body ep b db) (fun _ => True).
Proof. unfold endpoint_body, serialize_book, serialize_books. solve_ok. Qed.

Lemma run_endpoint_ok (ep : endpoint) (b : body) : ok (run_endpoint ep b) (fun _ => True).
Proof. apply with_db_ok. intros db. apply endpoint_body_ok. Qed.

Lemma handle_ok (ep : endpoint) (b : body) (w : world) :
  world_ok w -> world_ok (snd (handle ep b w)).
Proof.
  intros Hw. unfold handle.
  destruct (run_endpoint_ok ep b w Hw) as [H _].
  destruct ep, b; try exact Hw; destruct (run_endpoint _ _ w); exact H.
Qed.

(** One request, whatever it is, keeps the invariant. *)
Lemma app_ok (req : request) (w : world) : world_ok w -> world_ok (snd (app req w)).
Proof.
  intros Hw. unfold app. cbv zeta.
  destruct (find_full _ _) as [r|].
  - pose proof (handle_ok (route_endpoint r) (req_body req) w Hw) as H.
    destruct (handle _ _ w) as [resp w']. destruct (decide _); exact H.
  - destruct (path_known _); [exact Hw|]. destruct (_ && _); exact Hw.
Qed.

Lemma run_requests_ok (reqs : list request) (w : world) :
  world_ok w -> world_ok (snd (run_requests reqs w)).
Proof.
  revert w. induction reqs as [|req reqs IH]; intros w Hw; [exact Hw|]. cbn.
  pose proof (app_ok req w Hw) as H1. destruct (app req w) as [resp w1].
  specialize (IH w1 H1). destruct (run_requests reqs w1) as [resps w2]. exact IH.
Qed.

(** C9: from a start on a [test.db] that is new or holds a
    well-formed [books] table (create_all keeps an existing table), after
    any sequence of requests (any methods, paths and bodies, with failed
    INSERTs, failed validations and failed loads along the way), the
    committed [books] table has strictly increasing rowids, all within
    [1, 2^63-1], and so has the table of every open transaction
    ([world_ok]). *)
Theorem table_wf_after_requests (disk : string -> option table) (clock : nat -> Datetime.t)
    (rand : nat -> Z) (reqs : list request) :
  (forall t, disk (db_path DATABASE_URL) = Some t -> table_wf t) ->
  world_ok (snd (run_requests reqs (startup disk clock rand))).
Proof. intros Hd. apply run_requests_ok, world_ok_startup, Hd. Qed.

(** A restart on a [test.db] holding the rows 1 and 2. *)
Lemma table_wf_after_requests_witness :
  (forall t, (fun _ : string => Some table_12) (db_path DATABASE_URL) = Some t -> table_wf t) /\
  world_ok (snd (run_requests [mkRequest GET "/books/" NoBody]
                         (startup (fun _ => Some table_12) (fun _ => Datetime.mk 2026 11 9 12 0 0 0) (fun _ => 0%Z)))).
Proof.
  assert (Hd : forall t, (fun _ : string => Some table_12) (db_path DATABASE_URL) = Some t -> table_wf t)
    by (intros t [= <-]; exact table_12_wf).
  exact (conj Hd (table_wf_after_requests _ _ _ _ Hd)).
Defined.

End Invariant.
