(* ===== verification/Responses.v ===== *)
(** * The shape of every response

    The status of a response and the body that goes with it: a 200 to a
    POST carries one [BookResponse] (the [response_model] of
    [create_book], src/main.py line 57), a 200 to a GET a list of them
    ([List[BookResponse]], line 66), a 422 the validation errors, a 307
    the location of the redirect, a 404, 405 or 500 a detail, and the
    empty body is the answer to a HEAD.  The theorem holds for every
    request and every world: whatever the endpoint returns has the type
    of its route's [response_model], which the judgement [triple] of
    [Prelude] with the trivial invariant carries through the code. *)

From S2P Require Import Prelude Datetime Json Schema Sqlite Orm Handlers App.

Import Orm Handlers App.

Module Responses.
Local Open Scope py_scope.

(** The value an endpoint returns: the payload of its [response_model]. *)
Definition payload_of_endpoint (ep : endpoint) (p : payload) : Prop :=
  match ep, p with
  | EpCreateBook, PBook _ => True
  | EpGetBooks, PBooks _ => True
  | _, _ => False
  end.

(** A response to a request of method [m] is typed when its body is the
    one its status announces. *)
Definition response_typed (m : method) (r : response) : bool :=
  match payload_of r with
  | PBook _ => Z.eqb (status r) 200%Z && bool_decide (m = POST)
  | PBooks _ => Z.eqb (status r) 200%Z && bool_decide (m = GET)
  | PErrors _ => Z.eqb (status r) 422%Z
  | PRedirect _ => Z.eqb (status r) 307%Z
  | PDetail _ => existsb (Z.eqb (status r)) [404; 405; 500]%Z
  | PEmpty => bool_decide (m = HEAD)
  end.

(** Every computation of the model satisfies the trivial triple. *)
Lemma triple_true {A} (c : OrmM A) : triple (fun _ => True) c (fun _ => True).
Proof. intros w _. split; easy. Qed.

Lemma endpoint_body_payload (ep : endpoint) (b : body) (db : nat) :
  triple (fun _ => True) (endpoint_body ep b db) (payload_of_endpoint ep).
Proof.
  unfold endpoint_body. destruct ep; [destruct (body_param b)|].
  all: solve_triple ltac:(first [apply triple_true | exact I]).
Qed.

Lemma run_endpoint_payload (ep : endpoint) (b : body) :
  triple (fun _ => True) (run_endpoint ep b) (payload_of_endpoint ep).
Proof.
  unfold run_endpoint, with_db. eapply triple_bind; [apply triple_true|]. intros db _.
  apply triple_finally; [apply endpoint_body_payload|apply triple_true].
Qed.

(** The route the router finds is on ["/books/"] and serves the method. *)
Lemma find_full_endpoint (m : method) (p : string) (r : route) :
  find_full m p = Some r -> p = "/books/" /\
  ((route_endpoint r = EpCreateBook /\ m = POST) \/
   (route_endpoint r = EpGetBooks /\ (m = GET \/ m = HEAD))).
Proof.
  unfold find_full, routes, match_route. cbn. intros Hf.
  destruct (String.eqb_spec p "/books/") as [->|]; [|discriminate].
  split; [reflexivity|]. destruct m; cbn in Hf; invc Hf; cbn; auto.
Qed.

(** The validation handler answers a 422 with the errors or a 500. *)
Lemma validation_response_typed (m : method) (errs : list Json.verror) :
  response_typed m (validation_response errs) = true.
Proof. unfold validation_response. destruct (forallb _ _); reflexivity. Qed.

Lemma handle_typed (ep : endpoint) (b : body) (m : method) (w : world) :
  (ep = EpCreateBook /\ m = POST) \/ (ep = EpGetBooks /\ (m = GET \/ m = HEAD)) ->
  m <> HEAD -> response_typed m (fst (handle ep b w)) = true.
Proof.
  intros Hep Hm. unfold handle.
  destruct (run_endpoint_payload ep b w I) as [_ Hp].
  assert (Hret : forall o w', run_endpoint ep b w = (o, w') ->
            response_typed m (to_response o) = true).
  { intros o w' Hr. rewrite Hr in Hp. cbn in Hp.
    destruct o as [p|[]]; cbn; try reflexivity; [|apply validation_response_typed].
    specialize (Hp p eq_refl).
    destruct Hep as [[-> ->]|[-> [-> | ->]]]; [| |congruence];
      destruct p; cbn in Hp |- *; easy. }
  destruct ep, b; try reflexivity;
    destruct (run_endpoint _ _ w) as [o w']; exact (Hret o w' eq_refl).
Qed.

(** C11: every response of the application, to any request in any
    world, has the body its status announces: one [BookResponse] only in
    a 200 to a POST, a list only in a 200 to a GET, errors only in a
    422, a location only in a 307, a detail only in a 404, 405 or 500,
    and an empty body only for a HEAD. *)
Theorem app_response_typed (req : request) (w : world) :
  response_typed (req_method req) (fst (app req w)) = true.
Proof.
  unfold app. cbv zeta.
  destruct (find_full (req_method req) (req_path req)) as [r|] eqn:Hf.
  - pose proof (proj2 (find_full_endpoint _ _ _ Hf)) as Hep.
    destruct (decide (req_method req = HEAD)) as [Hh|Hh].
    + destruct (handle _ _ w). cbn. rewrite Hh. reflexivity.
    + pose proof (handle_typed (route_endpoint r) (req_body req) (req_method req) w Hep Hh) as H.
      destruct (handle _ _ w). exact H.
  - destruct (path_known _); [reflexivity|]. destruct (_ && _); reflexivity.
Qed.

End Responses.
