(* ===== verification/Availability.v ===== *)
(** * The list of books stays available

    Whatever requests the application has served since it started, a
    [GET /books/] is answered 200 with one [BookResponse] per committed
    row, in rowid order: no history of requests (failed INSERTs, invalid
    bodies, requests no route takes) leaves a row that [get_books] cannot
    load or that [BookResponse] refuses.  This needs a second invariant
    of the world, [avail]: every row the committed table or an open
    transaction holds has a title, an author and the storage text of a
    valid [datetime]; every ORM instance has a title and an author; the
    clock reads valid datetimes, as [datetime.utcnow()] does.  Each
    session operation, handler and the pipeline satisfy the [triple] of
    [avail]; with the invariant of [Invariant], which gives distinct
    rowids, the run of [get_books] of [App] applies. *)

From S2P Require Import Prelude Datetime Json Schema Sqlite Orm Handlers App Invariant.

Import Json Table Orm Handlers App Invariant.

Module Availability.
Local Open Scope py_scope.

(** A row [get_books] can load and [BookResponse] accepts. *)
Definition row_ok (r : row) : Prop :=
  is_Some (col_title r) /\ is_Some (col_author r) /\
  exists d, col_published r = Some (Datetime.encode d) /\ Datetime.valid d = true.

Definition rows_ok (t : table) : Prop := Forall row_ok t.

Definition txn_rows_ok (ss : session) : Prop := forall t, s_txn ss = Some t -> rows_ok t.

(** A date attribute that is unset or a valid [datetime]. *)
Definition date_attr_ok (p : option Datetime.t) : Prop :=
  match p with Some d => Datetime.valid d = true | None => True end.

(** The attributes of an instance that the flush writes as a row, and
    a date [BookResponse] can render. *)
Definition attrs_ok (a : Book.t) : Prop :=
  is_Some (Book.title a) /\ is_Some (Book.author a) /\ date_attr_ok (Book.published_date a).

Definition obj_ok (x : obj) : Prop := attrs_ok (o_attrs x).

Definition clock_ok (clock : nat -> Datetime.t) : Prop := forall n, Datetime.valid (clock n) = true.

Definition avail (w : world) : Prop :=
  rows_ok (w_db w) /\ Forall txn_rows_ok (w_sessions w) /\ Forall obj_ok (w_heap w) /\
  clock_ok (w_clock w).

(** ** Rows, instances and worlds *)

Lemma txn_rows_none (a : list nat) (b : list (Z * nat)) (c : bool) : txn_rows_ok (mkSession a b None c).
Proof. intros t [=]. Qed.

Lemma txn_rows_some (a : list nat) (b : list (Z * nat)) (t : table) (c : bool) :
  rows_ok t -> txn_rows_ok (mkSession a b (Some t) c).
Proof. intros Ht t' [= <-]. exact Ht. Qed.

Lemma txn_rows_table (ss : session) (t : table) : txn_rows_ok ss -> s_txn ss = Some t -> rows_ok t.
Proof. intros H. exact (H t). Qed.

Lemma avail_db (w : world) : avail w -> rows_ok (w_db w).
Proof. intros [H _]. exact H. Qed.

Lemma avail_tick (n : nat) (w : world) : avail w -> avail (set_tick n w).
Proof. intros H. exact H. Qed.

Lemma avail_draw (n : nat) (w : world) : avail w -> avail (set_draw n w).
Proof. intros H. exact H. Qed.

(** A start on a [test.db] that is new or whose rows are complete. *)
Lemma avail_startup (disk : string -> option table) (clock : nat -> Datetime.t) (rand : nat -> Z) :
  (forall t, disk (db_path DATABASE_URL) = Some t -> rows_ok t) -> clock_ok clock ->
  avail (startup disk clock rand).
Proof.
  intros Hd Hc. split; [|split; [constructor|split; [constructor|exact Hc]]].
  cbn. destruct (disk _) as [t|]; [exact (Hd t eq_refl)|constructor].
Qed.

Lemma obj_ok_attrs (x : obj) : obj_ok x -> attrs_ok (o_attrs x).
Proof. intros H. exact H. Qed.

Lemma obj_ok_mk (a : Book.t) (e : bool) (s : option nat) (k : option Z) :
  attrs_ok a -> obj_ok (mkObj a e s k).
Proof. intros H. exact H. Qed.

(** The attributes the flush gives an instance keep its title and author. *)
Lemma attrs_ok_flushed (x : obj) (i : option Z) (pd : Datetime.t) :
  obj_ok x -> Datetime.valid pd = true ->
  attrs_ok (Book.mk i (Book.title (o_attrs x)) (Book.author (o_attrs x)) (Some pd)).
Proof. intros (Ht & Ha & _) Hpd. split; [exact Ht|]. split; [exact Ha|exact Hpd]. Qed.

Lemma attrs_of_row_ok (r : row) (a : Book.t) : row_ok r -> attrs_of_row r = Some a -> attrs_ok a.
Proof.
  intros (Ht & Ha & d & Hp & Hv). unfold attrs_of_row. rewrite Hp, (Datetime.decode_encode_valid d Hv).
  intros [= <-]. split; [exact Ht|]. split; [exact Ha|exact Hv].
Qed.

Lemma select_by_id_ok (t : table) (v : Z) (r : row) :
  rows_ok t -> select_by_id t v = Some r -> row_ok r.
Proof.
  intros Ht Hs. apply find_some in Hs as [Hin _]. unfold rows_ok in Ht. rewrite Forall_forall in Ht. exact (Ht r Hin).
Qed.

Lemma attrs_ok_dict (bc : BookCreate.t) (a : Book.t) : Book.init (BookCreate.dict bc) = Some a -> attrs_ok a.
Proof. intros [= <-]. split; [eexists; reflexivity|]. split; [eexists; reflexivity|exact I]. Qed.

Create HintDb avail discriminated.
#[export] Hint Resolve txn_rows_none txn_rows_some txn_rows_table avail_db avail_tick avail_draw
  obj_ok_attrs obj_ok_mk attrs_ok_flushed attrs_of_row_ok select_by_id_ok : avail.

(** ** The session operations *)

Abbreviation av := (triple (E := exc) avail).

Lemma get_obj_av (o : nat) : av (get_obj o) obj_ok.
Proof.
  intros w Hw. unfold get_obj. destruct (w_heap w !! o) as [x|] eqn:Ho; split; try easy.
  intros y [= <-]. destruct Hw as (_ & _ & Hh & _). exact (Forall_lookup_1 _ _ _ _ Hh Ho).
Qed.

Lemma get_session_av (s : nat) : av (get_session s) txn_rows_ok.
Proof.
  intros w Hw. unfold get_session. destruct (w_sessions w !! s) as [ss|] eqn:Hs; split; try easy.
  intros y [= <-]. destruct Hw as (_ & Hss & _). exact (Forall_lookup_1 _ _ _ _ Hss Hs).
Qed.

Lemma put_session_av (s : nat) (x : session) : txn_rows_ok x -> av (put_session s x) (fun _ => True).
Proof.
  intros Hx. apply triple_modify. intros w (Hdb & Hss & Hh & Hc).
  split; [exact Hdb|]. split; [now apply Forall_insert|]. split; [exact Hh|exact Hc].
Qed.

Lemma put_obj_av (o : nat) (x : obj) : obj_ok x -> av (put_obj o x) (fun _ => True).
Proof.
  intros Hx. apply triple_modify. intros w (Hdb & Hss & Hh & Hc).
  split; [exact Hdb|]. split; [exact Hss|]. split; [now apply Forall_insert|exact Hc].
Qed.

Lemma get_av : av mget avail.
Proof. apply triple_get. Qed.

(** [datetime.utcnow()] reads a valid [datetime]. *)
Lemma utcnow_av : av utcnow (fun d => Datetime.valid d = true).
Proof. intros w Hw. split; [exact Hw|]. intros d [= <-]. destruct Hw as (_ & _ & _ & Hc). apply Hc. Qed.

Lemma session_local_av : av session_local (fun _ => True).
Proof.
  intros w (Hdb & Hss & Hh & Hc). split; [|easy]. split; [exact Hdb|].
  split; [|split; [exact Hh|exact Hc]]. cbn.
  apply Forall_app. split; [exact Hss|]. constructor; [apply txn_rows_none|constructor].
Qed.

(** The call of [Book] on [book.dict()] gives an instance with a title and an author. *)
Lemma book_new_av (bc : BookCreate.t) : av (book_new (BookCreate.dict bc)) (fun _ => True).
Proof.
  unfold book_new. destruct (Book.init _) as [a|] eqn:Ha; [|apply triple_raise].
  intros w (Hdb & Hss & Hh & Hc). split; [|easy]. split; [exact Hdb|]. split; [exact Hss|].
  split; [|exact Hc]. cbn. apply Forall_app. split; [exact Hh|].
  constructor; [exact (attrs_ok_dict bc a Ha)|constructor].
Qed.

(** The INSERT of an instance with a title and an author and a valid
    date writes a row [get_books] can load. *)
Lemma sql_insert_av (a : Book.t) (pd : Datetime.t) (t : table) :
  attrs_ok a -> Datetime.valid pd = true -> rows_ok t ->
  av (sql_insert a pd t) (fun r => rows_ok (snd r)).
Proof.
  intros (Ht & Ha & _) Hpd Hrows w Hw. unfold sql_insert, Table.insert.
  destruct (new_rowid _ _ _) as [[v|] k']; cbn; split; try easy.
  intros r [= <-]. cbn. apply Forall_insert_row; [|exact Hrows].
  split; [exact Ht|]. split; [exact Ha|]. exists pd. split; [reflexivity|exact Hpd].
Qed.

Lemma set_db_av (t : table) : rows_ok t -> av (mmodify (set_db t)) (fun _ => True).
Proof. intros Ht. apply triple_modify. intros w (_ & Hss & Hh & Hc). split; [exact Ht|]. now split. Qed.

Lemma detach_av (o : nat) : av (detach o) (fun _ => True).
Proof.
  apply triple_modify. intros w (Hdb & Hss & Hh & Hc).
  split; [exact Hdb|]. split; [exact Hss|]. split; [|exact Hc]. cbn.
  apply Forall_alter; [exact Hh|]. intros x _ Hx. exact Hx.
Qed.

#[export] Hint Resolve get_obj_av get_session_av put_session_av put_obj_av get_av utcnow_av
  session_local_av book_new_av sql_insert_av set_db_av detach_av : avail.

Ltac solve_av := solve_triple ltac:(eauto 8 with avail).

Lemma begin_av (s : nat) : av (begin s) rows_ok.
Proof. unfold begin. solve_av. Qed.

Lemma set_txn_av (s : nat) (t : table) : rows_ok t -> av (set_txn s t) (fun _ => True).
Proof. intros Ht. unfold set_txn. solve_av. Qed.

Lemma expire_av (o : nat) : av (expire o) (fun _ => True).
Proof. unfold expire. solve_av. Qed.

Lemma add_av (s o : nat) : av (add s o) (fun _ => True).
Proof. unfold add. solve_av. Qed.

#[export] Hint Resolve begin_av set_txn_av expire_av add_av : avail.

Lemma flush_one_av (s o : nat) : av (flush_one s o) (fun _ => True).
Proof. unfold flush_one. solve_av. Qed.

#[export] Hint Resolve flush_one_av : avail.

Lemma avail_snoc_obj (w : world) (x : obj) :
  avail w -> obj_ok x -> avail (set_heap (w_heap w ++ [x]) w).
Proof.
  intros (Hdb & Hss & Hh & Hc) Hx. split; [exact Hdb|]. split; [exact Hss|]. split; [|exact Hc].
  cbn. apply Forall_app. split; [exact Hh|]. constructor; [exact Hx|constructor].
Qed.

(** Run the code [c] of the goal [avail (snd (c w)) /\ ...] from a
    world [w] that [Hw] shows satisfies the invariant. *)
Ltac run_av Hw :=
  match type of Hw with
  | avail ?w =>
    match goal with
    | |- avail (snd (?c w)) /\ _ =>
        let Hk := fresh in assert (Hk : av c (fun _ => True)) by solve_av; exact (Hk w Hw)
    end
  end.

Lemma flush_av (s : nat) : av (flush s) (fun _ => True).
Proof.
  intros w Hw. unfold flush.
  destruct (get_session_av s w Hw) as [H1 _].
  destruct (get_session s w) as [[ss|e] w1]; cbn in H1; cbv beta iota; [|split; easy].
  assert (Hm : av (mmap (flush_one s) (s_new ss)) (Forall (fun _ => True))) by solve_av.
  destruct (Hm w1 H1) as [H2 _].
  destruct (mmap (flush_one s) (s_new ss) w1) as [[u|e] w2]; cbn in H2; cbv beta iota; run_av H2.
Qed.

#[export] Hint Resolve flush_av : avail.

Lemma commit_av (s : nat) : av (commit s) (fun _ => True).
Proof. unfold commit. solve_av. Qed.

Lemma load_av (s o : nat) (v : Z) : av (load s o v) (fun _ => True).
Proof. unfold load. solve_av. Qed.

#[export] Hint Resolve commit_av load_av : avail.

Lemma refresh_av (s o : nat) : av (refresh s o) (fun _ => True).
Proof. unfold refresh. solve_av. Qed.

Lemma read_attrs_av (o : nat) : av (read_attrs o) (fun _ => True).
Proof. unfold read_attrs. solve_av. Qed.

(** The instance a query gives for a row [get_books] can load. *)
Lemma instance_of_row_av (s : nat) (r : row) : row_ok r -> av (instance_of_row s r) (fun _ => True).
Proof.
  intros Hr. unfold instance_of_row. solve_av.
  intros a Ha w Hw. cbv beta.
  run_av (avail_snoc_obj w (mkObj a false (Some s) (Some (rowid r))) Hw (attrs_of_row_ok r a Hr Ha)).
Qed.

Lemma query_all_av (s : nat) : av (query_all s) (fun _ => True).
Proof.
  unfold query_all. eapply triple_bind; [apply begin_av|]. intros t Ht.
  eapply triple_weaken; [apply triple_mmap_in|easy]. intros r Hr. apply instance_of_row_av.
  unfold rows_ok in Ht. rewrite Forall_forall in Ht. exact (Ht r Hr).
Qed.

Lemma close_av (s : nat) : av (close s) (fun _ => True).
Proof. unfold close. solve_av. Qed.

#[export] Hint Resolve refresh_av read_attrs_av query_all_av close_av : avail.

(** ** The handlers and the request pipeline *)

Lemma with_db_av {A} (body : nat -> OrmM A) (V : A -> Prop) :
  (forall db, av (body db) V) -> av (with_db body) V.
Proof.
  intros Hb. unfold with_db, get_db_enter, get_db_exit.
  eapply triple_bind; [apply session_local_av|]. intros db _.
  apply triple_finally; [apply Hb|apply close_av].
Qed.

Lemma endpoint_body_av (ep : endpoint) (b : body) (db : nat) :
  av (endpoint_body ep b db) (fun _ => True).
Proof. unfold endpoint_body, create_book, get_books, serialize_book, serialize_books. solve_av. Qed.

Lemma handle_av (ep : endpoint) (b : body) (w : world) : avail w -> avail (snd (handle ep b w)).
Proof.
  intros Hw. unfold handle.
  destruct (with_db_av _ _ (endpoint_body_av ep b) w Hw) as [H _]. fold (run_endpoint ep b) in H.
  destruct ep, b; try exact Hw; destruct (run_endpoint _ _ w); exact H.
Qed.

Lemma app_av (req : request) (w : world) : avail w -> avail (snd (app req w)).
Proof.
  intros Hw. unfold app. cbv zeta.
  destruct (find_full _ _) as [r|].
  - pose proof (handle_av (route_endpoint r) (req_body req) w Hw) as H.
    destruct (handle _ _ w) as [resp w']. destruct (decide _); exact H.
  - destruct (path_known _); [exact Hw|]. destruct (_ && _); exact Hw.
Qed.

Lemma run_requests_av (reqs : list request) (w : world) : avail w -> avail (snd (run_requests reqs w)).
Proof.
  revert w. induction reqs as [|req reqs IH]; intros w Hw; [exact Hw|]. cbn.
  pose proof (app_av req w Hw) as H1. destruct (app req w) as [resp w1].
  specialize (IH w1 H1). destruct (run_requests reqs w1) as [resps w2]. exact IH.
Qed.

(** ** The dates of the responses *)

(** A [BookResponse] whose date is a valid [datetime]. *)
Definition response_date_ok (b : BookResponse.t) : Prop :=
  Datetime.valid (BookResponse.published_date b) = true.

Definition payload_dates_ok (p : payload) : Prop :=
  match p with
  | PBook b => response_date_ok b
  | PBooks bs => Forall response_date_ok bs
  | _ => True
  end.

Lemma read_attrs_attrs (o : nat) : av (read_attrs o) attrs_ok.
Proof. unfold read_attrs. solve_av. Qed.

Lemma model_validate_attrs_date (a : Book.t) (r : BookResponse.t) :
  attrs_ok a -> BookResponse.model_validate_attrs a = inr r -> response_date_ok r.
Proof.
  intros (_ & _ & Hd) H. destruct a as [[i|] [t|] [au|] [p|]]; cbn in H; try discriminate.
  injection H as <-. exact Hd.
Qed.

Lemma collect_dates (i : nat) (attrs : list Book.t) (rs : list BookResponse.t) :
  Forall attrs_ok attrs -> collect i (map BookResponse.model_validate_attrs attrs) = inr rs ->
  Forall response_date_ok rs.
Proof.
  intros Ha. revert i rs. induction Ha as [|a attrs Ha Has IH]; intros i rs H; cbn in H.
  - injection H as <-. constructor.
  - destruct (BookResponse.model_validate_attrs a) as [e|r] eqn:Er;
      destruct (collect (S i) _) as [e'|rs'] eqn:Ec; try discriminate.
    injection H as <-. constructor; [exact (model_validate_attrs_date a r Ha Er)|exact (IH _ _ Ec)].
Qed.

Lemma serialize_book_dates (o : nat) : av (serialize_book o) response_date_ok.
Proof.
  unfold serialize_book. eapply triple_bind; [apply read_attrs_attrs|]. intros a Ha.
  destruct (BookResponse.model_validate_attrs a) as [e|r] eqn:Er; [apply triple_raise|].
  apply triple_ret. exact (model_validate_attrs_date a r Ha Er).
Qed.

Lemma serialize_books_dates (os : list nat) : av (serialize_books os) (Forall response_date_ok).
Proof.
  unfold serialize_books. eapply triple_bind; [apply triple_mmap, read_attrs_attrs|]. intros attrs Ha.
  destruct (collect 0 _) as [e|rs] eqn:Ec; [apply triple_raise|].
  apply triple_ret. exact (collect_dates 0 attrs rs Ha Ec).
Qed.

Lemma endpoint_body_dates (ep : endpoint) (b : body) (db : nat) :
  av (endpoint_body ep b db) payload_dates_ok.
Proof.
  unfold endpoint_body. destruct ep; [destruct (body_param b) as [errs|bc]; [apply triple_raise|]|].
  - eapply triple_bind; [unfold create_book; solve_av|]. intros o _.
    eapply triple_bind; [apply serialize_book_dates|]. intros r Hr. apply triple_ret. exact Hr.
  - eapply triple_bind; [apply query_all_av|]. intros os _.
    eapply triple_bind; [apply serialize_books_dates|]. intros rs Hrs. apply triple_ret. exact Hrs.
Qed.

Lemma validation_response_dates (errs : list verror) :
  payload_dates_ok (payload_of (validation_response errs)).
Proof. unfold validation_response. destruct (forallb _ _); exact I. Qed.

(** Every response of the application to a request on a world of the
    invariant carries valid dates. *)
Lemma app_dates (req : request) (w : world) :
  avail w -> payload_dates_ok (payload_of (fst (app req w))).
Proof.
  intros Hw. unfold app. cbv zeta.
  destruct (find_full _ _) as [r|]; [|destruct (path_known _); [exact I|]; destruct (_ && _); exact I].
  assert (H : payload_dates_ok (payload_of (fst (handle (route_endpoint r) (req_body req) w)))).
  { unfold handle. destruct (with_db_av _ _ (endpoint_body_dates (route_endpoint r) (req_body req)) w Hw)
      as [_ Hp]. fold (run_endpoint (route_endpoint r) (req_body req)) in Hp.
    assert (Hr : forall o w', run_endpoint (route_endpoint r) (req_body req) w = (o, w') ->
                 payload_dates_ok (payload_of (to_response o))).
    { intros o w' Ho. rewrite Ho in Hp. cbn in Hp.
      destruct o as [p|[]]; cbn; try exact I; [exact (Hp p eq_refl)|apply validation_response_dates]. }
    destruct (route_endpoint r), (req_body req); try exact I;
      destruct (run_endpoint _ _ w) as [o w']; exact (Hr o w' eq_refl). }
  destruct (handle _ _ w) as [resp w']. destruct (decide _); [exact I|exact H].
Qed.

Lemma run_requests_dates (reqs : list request) (w : world) :
  avail w -> Forall (fun r => payload_dates_ok (payload_of r)) (fst (run_requests reqs w)).
Proof.
  revert w. induction reqs as [|req reqs IH]; intros w Hw; [constructor|]. cbn.
  pose proof (app_dates req w Hw) as H0. pose proof (app_av req w Hw) as H1.
  destruct (app req w) as [resp w1]. specialize (IH w1 H1).
  destruct (run_requests reqs w1) as [resps w2]. constructor; assumption.
Qed.

(** ** Reading the table *)

(** A row [get_books] can load is read as attributes [BookResponse]
    accepts, with the row's rowid as [id]. *)
Lemma row_ok_read (r : row) :
  row_ok r -> exists a b, attrs_of_row r = Some a /\ BookResponse.model_validate_attrs a = inr b /\
                          BookResponse.id b = rowid r.
Proof.
  intros ([ti Ht] & [au Ha] & d & Hp & Hv).
  eexists _, (BookResponse.mk ti au (rowid r) d). unfold attrs_of_row.
  rewrite Hp, (Datetime.decode_encode_valid d Hv), Ht, Ha. split; [reflexivity|]. split; reflexivity.
Qed.

Lemma rows_ok_read (i : nat) (t : table) :
  rows_ok t -> exists attrs rs, Forall2 (fun r a => attrs_of_row r = Some a) t attrs /\
    collect i (map BookResponse.model_validate_attrs attrs) = inr rs /\
    map BookResponse.id rs = map rowid t.
Proof.
  intros Ht. revert i. induction Ht as [|r t Hr Ht IH]; intros i.
  - exists [], []. repeat constructor.
  - destruct (row_ok_read r Hr) as (a & b & Ha & Hb & Hid).
    destruct (IH (S i)) as (attrs & rs & Hf & Hc & Hids).
    exists (a :: attrs), (b :: rs). split; [now constructor|]. cbn. rewrite Hb, Hc.
    split; [reflexivity|]. cbn. now rewrite Hid, Hids.
Qed.

(** C12: after a start on a [test.db] that is new or holds a
    well-formed table of complete rows, whatever requests the application
    has served (any methods, paths and bodies, with failed INSERTs and
    invalid bodies among them), and whatever its random source, while
    [datetime.utcnow()] reads valid datetimes a GET on ["/books/"] is
    answered 200 with one book per committed row, in rowid order. *)
Theorem get_after_requests (disk : string -> option table) (clock : nat -> Datetime.t)
    (rand : nat -> Z) (reqs : list request) :
  (forall t, disk (db_path DATABASE_URL) = Some t -> table_wf t /\ rows_ok t) -> clock_ok clock ->
  let w := snd (run_requests reqs (startup disk clock rand)) in
  exists rs w', app get_request w = (mkResponse 200 (PBooks rs), w') /\
    map BookResponse.id rs = map rowid (w_db w).
Proof.
  intros Hd Hc w.
  pose proof (run_requests_ok reqs _ (world_ok_startup disk clock rand (fun t H => proj1 (Hd t H))))
    as [[Hinc _] _].
  pose proof (run_requests_av reqs _ (avail_startup disk clock rand (fun t H => proj2 (Hd t H)) Hc)) as Hav.
  fold w in Hinc, Hav.
  destruct (rows_ok_read 0 (w_db w) (avail_db w Hav)) as (attrs & rs & Hf & Hcol & Hids).
  destruct (run_get w NoBody attrs rs (increasing_NoDup _ Hinc) Hf Hcol) as [h Hrun].
  rewrite app_get, Hrun. eexists _, _. split; [reflexivity|exact Hids].
Qed.

(** The first start, then one POST. *)
Lemma get_after_requests_witness :
  (forall t, (fun _ : string => @None table) (db_path DATABASE_URL) = Some t -> table_wf t /\ rows_ok t) /\
  clock_ok (fun _ => Datetime.mk 2026 11 9 12 0 0 0) /\
  let w := snd (run_requests [mkRequest POST "/books/" (JsonBody (JObj [("title", JStr "Dune"); ("author", JStr "Herbert")]))]
                  (startup (fun _ => None) (fun _ => Datetime.mk 2026 11 9 12 0 0 0) (fun _ => 0%Z))) in
  exists rs w', app get_request w = (mkResponse 200 (PBooks rs), w') /\
    map BookResponse.id rs = map rowid (w_db w).
Proof.
  assert (Hd : forall t, (fun _ : string => @None table) (db_path DATABASE_URL) = Some t -> table_wf t /\ rows_ok t)
    by discriminate.
  assert (Hc : clock_ok (fun _ => Datetime.mk 2026 11 9 12 0 0 0)) by (intros n; reflexivity).
  exact (conj Hd (conj Hc (get_after_requests _ _ _ _ Hd Hc))).
Defined.

End Availability.
