(* ===== verification/Server.v ===== *)
(** * The server: requests in flight together

    The application runs under uvicorn (one worker by default) on one
    asyncio event loop.  A request that reaches a route with [get_db]
    passes through three phases, and the phases of different requests
    interleave:
    - enter: FastAPI's [solve_dependencies] runs the generator [get_db]
      (src/main.py lines 39-41) up to its [yield] in the threadpool
      ([contextmanager_in_threadpool]), an [await] during which other
      requests progress: [SessionLocal()] opens the request's session;
    - middle: back on the event loop, the body parameter is validated,
      the [async def] endpoint ([create_book], lines 57-63, or
      [get_books], lines 66-68) runs and its result is validated against
      the [response_model].  None of this awaits anything that suspends:
      the SQLAlchemy calls are synchronous and block the loop, so the
      middle phase of a request is atomic;
    - exit: leaving the request's exit stack resumes [get_db] in the
      threadpool, whose [finally] block closes the session (line 44), and
      the response leaves.
    A request no route takes, and a POST whose body is not JSON, is
    answered without [get_db], in one step.  [task_step] is one phase of
    one request; [step] is the server's transition relation: a new
    request arrives, or one request in flight takes its next phase. *)

From stdpp Require Import relations.
From S2P Require Import Prelude Datetime Json Schema Sqlite Orm Handlers App Refinement Invariant Availability.

Import Json Table Orm Handlers App Refinement Invariant Availability.

Module Server.
Local Open Scope py_scope.

(** Where a request is in its handling. *)
Inductive phase : Type :=
| Received                                   (** read, not yet started *)
| Entered (ep : endpoint) (db : nat)         (** [get_db] suspended at [yield db] *)
| Returned (o : outcome exc payload) (db : nat)  (** the endpoint and its validation are over *)
| Sent (r : response).                       (** the response has left *)

Record task : Type := mkTask {
  t_req : request;
  t_phase : phase
}.

Record config : Type := mkConfig {
  c_world : world;
  c_tasks : list task
}.

(** The endpoint whose dependencies a request reaches: a route matches
    its method and path, and its body is not a JSON decoding error of
    a route that reads a body. *)
Definition routed (req : request) : option endpoint :=
  match find_full (req_method req) (req_path req) with
  | Some r =>
      match route_endpoint r, req_body req with
      | EpCreateBook, MalformedJson _ _ => None
      | ep, _ => Some ep
      end
  | None => None
  end.

(** The response as it leaves the server: Starlette answers a HEAD on
    the GET route like the GET, and uvicorn's HTTP protocol writes no
    body for a HEAD request. *)
Definition finish (req : request) (resp : response) : response :=
  if decide (req_method req = HEAD) then mkResponse (status resp) PEmpty else resp.

(** The exit phase: [get_db] resumes with the outcome of the endpoint,
    and its [finally] block closes the session. *)
Definition exit_phase (o : outcome exc payload) (db : nat) : OrmM payload :=
  try_finally (fun w => (o, w)) (get_db_exit db).

(** One phase of one request. *)
Definition task_step (req : request) (ph : phase) (w : world) : option (phase * world) :=
  match ph with
  | Received =>
      match routed req with
      | Some ep =>
          match get_db_enter w with
          | (Ret db, w') => Some (Entered ep db, w')
          | (Raise e, w') => Some (Sent (finish req (to_response (Raise e))), w')
          end
      | None => let '(r, w') := app req w in Some (Sent r, w')
      end
  | Entered ep db =>
      let '(o, w') := endpoint_body ep (req_body req) db w in Some (Returned o db, w')
  | Returned o db =>
      let '(o', w') := exit_phase o db w in Some (Sent (finish req (to_response o')), w')
  | Sent _ => None
  end.

(** The server's transitions: a request arrives, or a request in flight
    takes its next phase; the others wait. *)
Inductive step : config -> config -> Prop :=
| step_arrive (c : config) (req : request) :
    step c (mkConfig (c_world c) (c_tasks c ++ [mkTask req Received]))
| step_run (c : config) (i : nat) (tk : task) (ph : phase) (w' : world) :
    c_tasks c !! i = Some tk ->
    task_step (t_req tk) (t_phase tk) (c_world c) = Some (ph, w') ->
    step c (mkConfig w' (<[i := mkTask (t_req tk) ph]> (c_tasks c))).

(** The server when the application has started. *)
Definition start (disk : string -> option table) (clock : nat -> Datetime.t) (rand : nat -> Z) : config :=
  mkConfig (startup disk clock rand) [].

(** A schedule: the transitions, in order. *)
Inductive event : Type := Arrive (req : request) | Run (i : nat).

Definition server_step (e : event) (c : config) : option config :=
  match e with
  | Arrive req => Some (mkConfig (c_world c) (c_tasks c ++ [mkTask req Received]))
  | Run i =>
      tk ← c_tasks c !! i;
      '(ph, w') ← task_step (t_req tk) (t_phase tk) (c_world c);
      Some (mkConfig w' (<[i := mkTask (t_req tk) ph]> (c_tasks c)))
  end.

Fixpoint run_events (es : list event) (c : config) : option config :=
  match es with
  | [] => Some c
  | e :: es' => c' ← server_step e c; run_events es' c'
  end.


(** ** One request alone *)

(** [SessionLocal()] opens the session after the last one. *)
Lemma get_db_enter_fresh (w : world) :
  get_db_enter w = (Ret (length (w_sessions w)), set_sessions (w_sessions w ++ [fresh_session]) w).
Proof. reflexivity. Qed.

(** A request that reaches [get_db] is answered by its endpoint's
    handler. *)
Lemma app_routed (req : request) (ep : endpoint) (w : world) :
  routed req = Some ep ->
  app req w = let '(o, w') := run_endpoint ep (req_body req) w in (finish req (to_response o), w').
Proof.
  unfold routed, app, finish. cbv zeta. destruct (find_full _ _) as [r|]; [|discriminate].
  intros Hr. unfold handle.
  destruct (route_endpoint r), (req_body req); invc Hr;
    destruct (run_endpoint _ _ w); destruct (decide _); reflexivity.
Qed.

(** A request that does not reach [get_db] changes nothing, and its
    response does not depend on the world. *)
Lemma app_unrouted (req : request) (w w2 : world) :
  routed req = None -> snd (app req w) = w /\ fst (app req w) = fst (app req w2).
Proof.
  unfold routed, app. cbv zeta. destruct (find_full _ _) as [r|].
  - unfold handle. destruct (route_endpoint r), (req_body req); try discriminate.
    intros _. destruct (decide _); split; reflexivity.
  - intros _. destruct (path_known _); [|destruct (_ && _)]; split; reflexivity.
Qed.


(** ** What the middle phase of a request depends on *)

(** Two worlds agree when they hold the same committed table, and the
    same clock and random source read at the same positions: the
    sessions and instances of other requests may differ. *)
Definition agree (w1 w2 : world) : Prop :=
  w_db w1 = w_db w2 /\ w_clock w1 = w_clock w2 /\ w_tick w1 = w_tick w2 /\
  w_rand w1 = w_rand w2 /\ w_draw w1 = w_draw w2.

#[export] Instance agree_equiv : Equivalence agree.
Proof.
  split.
  - intros w. repeat split.
  - intros w1 w2 (? & ? & ? & ? & ?). repeat split; congruence.
  - intros w1 w2 w3 (? & ? & ? & ? & ?) (? & ? & ? & ? & ?). repeat split; congruence.
Qed.

Lemma agree_mk (db : table) (h1 h2 : list obj) (ss1 ss2 : list session) (clk : nat -> Datetime.t)
    (tk : nat) (rnd : nat -> Z) (dr : nat) :
  agree (mkWorld db h1 ss1 clk tk rnd dr) (mkWorld db h2 ss2 clk tk rnd dr).
Proof. repeat split. Qed.

Lemma agree_set_sessions (ss : list session) (w : world) : agree (set_sessions ss w) w.
Proof. repeat split. Qed.

(** The middle phase of a request on its fresh session, over a
    well-formed table of complete rows with a clock that reads valid
    datetimes: its outcome, and the table, clock position and random
    draws after it, depend only on the table, the clock and the random
    source, not on the sessions and instances of other requests; and
    each run changes no session but its own. *)
Lemma body_agree (w1 w2 : world) (ss1 ss2 ss1' ss2' : list session) (ep : endpoint) (b : body) :
  w_sessions w1 = ss1 ++ fresh_session :: ss2 -> w_sessions w2 = ss1' ++ fresh_session :: ss2' ->
  agree w1 w2 -> table_wf (w_db w1) -> rows_ok (w_db w1) -> clock_ok (w_clock w1) ->
  fst (endpoint_body ep b (length ss1) w1) = fst (endpoint_body ep b (length ss1') w2) /\
  agree (snd (endpoint_body ep b (length ss1) w1)) (snd (endpoint_body ep b (length ss1') w2)) /\
  (exists S1, w_sessions (snd (endpoint_body ep b (length ss1) w1)) = ss1 ++ S1 :: ss2) /\
  (exists S2, w_sessions (snd (endpoint_body ep b (length ss1') w2)) = ss1' ++ S2 :: ss2').
Proof.
  intros H1 H2 Hag Hwf Hrows Hclk.
  destruct w1 as [db h1 s1 clk tk rnd dr], w2 as [db' h2 s2 clk' tk' rnd' dr'].
  destruct Hag as (Hd & Hc & Ht & Hr & Hk). cbn in Hd, Hc, Ht, Hr, Hk. subst db' clk' tk' rnd' dr'.
  destruct ep.
  - destruct (body_param b) as [errs|bc] eqn:Hb.
    + rewrite !(body_invalid _ _ b errs Hb). cbn. eauto 6 using agree_mk.
    + destruct (Table.insert rnd dr (Some (BookCreate.title bc)) (Some (BookCreate.author bc))
                  (Some (Datetime.encode (clk tk))) db) as [[e|[v t']] k'] eqn:Hins.
      * destruct (body_insert_error _ _ _ H1 b bc e k' Hb Hins) as (h & S1 & ->).
        destruct (body_insert_error _ _ _ H2 b bc e k' Hb Hins) as (h' & S2 & ->).
        cbn. eauto 6 using agree_mk.
      * destruct (insert_spec _ _ _ _ _ _ _ _ _ Hwf Hins) as (_ & _ & Hsel).
        rewrite (body_create _ _ _ H1 b bc v t' k' Hb (Hclk tk) Hins Hsel).
        rewrite (body_create _ _ _ H2 b bc v t' k' Hb (Hclk tk) Hins Hsel).
        cbn. eauto 6 using agree_mk.
  - destruct (rows_ok_read 0 db Hrows) as (attrs & rs & Hf & Hcol & _).
    pose proof (increasing_NoDup _ (proj1 Hwf)) as Hnd.
    destruct (body_get _ _ _ H1 b attrs rs Hnd Hf Hcol) as (h & S1 & ->).
    destruct (body_get _ _ _ H2 b attrs rs Hnd Hf Hcol) as (h' & S2 & ->).
    cbn. eauto 6 using agree_mk.
Qed.

(** [close] on an existing session changes no other session, and
    nothing that other requests read. *)
Lemma close_agree (s : nat) (w : world) :
  s < length (w_sessions w) ->
  fst (close s w) = Ret tt /\ agree (snd (close s w)) w /\
  w_sessions (snd (close s w)) = <[s := mkSession [] [] None true]> (w_sessions w).
Proof. intros Hs. destruct (close_spec s w Hs) as [h ->]. cbn. repeat split. Qed.


(** ** The invariants of the world through the phases *)

Section Phases.
Variable I : world -> Prop.
Hypothesis Henter : triple I get_db_enter (fun _ => True).
Hypothesis Hbody : forall ep b db, triple I (endpoint_body ep b db) (fun _ => True).
Hypothesis Hexit : forall db, triple I (get_db_exit db) (fun _ => True).
Hypothesis Happ : forall req w, I w -> I (snd (app req w)).

(** A property of the world that [SessionLocal()], the endpoints,
    [close] and the requests answered in one step keep is kept by every
    phase of every request. *)
Lemma task_step_preserves (req : request) (ph ph' : phase) (w w' : world) :
  I w -> task_step req ph w = Some (ph', w') -> I w'.
Proof.
  intros Hw. destruct ph as [|ep db|o db|r]; cbn [task_step]; [|intros H|intros H|discriminate].
  - destruct (routed req) as [ep|].
    + destruct (Henter w Hw) as [H1 _].
      destruct (get_db_enter w) as [[db|e] w1]; intros H; invc H; exact H1.
    + pose proof (Happ req w Hw) as H1. destruct (app req w); intros H; invc H; exact H1.
  - destruct (Hbody ep (req_body req) db w Hw) as [H1 _].
    destruct (endpoint_body _ _ _ w); invc H; exact H1.
  - assert (Hf : triple I (exit_phase o db) (fun _ => True)).
    { apply triple_finally; [intros w0 Hw0; split; easy|apply Hexit]. }
    destruct (Hf w Hw) as [H1 _]. destruct (exit_phase o db w); invc H; exact H1.
Qed.
End Phases.

Lemma task_step_ok (req : request) (ph ph' : phase) (w w' : world) :
  world_ok w -> task_step req ph w = Some (ph', w') -> world_ok w'.
Proof. apply task_step_preserves; auto using session_local_ok, endpoint_body_ok, close_ok, app_ok. Qed.

Lemma task_step_av (req : request) (ph ph' : phase) (w w' : world) :
  avail w -> task_step req ph w = Some (ph', w') -> avail w'.
Proof. apply task_step_preserves; auto using session_local_av, endpoint_body_av, close_av, app_av. Qed.

(** ** The sessions of the requests in flight *)

(** The session a request holds, from [SessionLocal()] to [close]. *)
Definition task_session (tk : task) : option nat :=
  match t_phase tk with
  | Entered _ db | Returned _ db => Some db
  | _ => None
  end.

(** The sessions are well kept: a request suspended at [yield] holds a
    session nothing has used yet, for the endpoint of its route; the
    session a request holds exists; no two requests hold the same
    session; and every session no request holds is closed. *)
Record sessions_wf (c : config) : Prop := {
  sw_ok : world_ok (c_world c);
  sw_avail : avail (c_world c);
  sw_entered : forall i tk ep s, c_tasks c !! i = Some tk -> t_phase tk = Entered ep s ->
    routed (t_req tk) = Some ep /\ w_sessions (c_world c) !! s = Some fresh_session;
  sw_held : forall i tk s, c_tasks c !! i = Some tk -> task_session tk = Some s ->
    s < length (w_sessions (c_world c));
  sw_unshared : forall i j tki tkj s, c_tasks c !! i = Some tki -> c_tasks c !! j = Some tkj ->
    task_session tki = Some s -> task_session tkj = Some s -> i = j;
  sw_released : forall s x, w_sessions (c_world c) !! s = Some x ->
    s_closed x = true \/ exists i tk, c_tasks c !! i = Some tk /\ task_session tk = Some s
}.

(** Split a lookup in a list of tasks updated at [i]. *)
Ltac task_lookup H :=
  match type of H with
  | <[?i := ?x]> ?ts !! ?j = Some _ =>
      let E := fresh "E" in
      destruct (decide (i = j)) as [E|E];
      [subst j; rewrite list_lookup_insert_eq in H by (eapply lookup_lt_Some; eassumption); invc H
      |rewrite list_lookup_insert_ne in H by exact E]
  end.

(** One request takes a phase: it may take a brand-new session, or keep
    or give up the one it holds; the other sessions are left alone. *)
Lemma sessions_wf_update (c : config) (i : nat) (tk : task) (ph : phase) (w' : world) :
  sessions_wf c -> c_tasks c !! i = Some tk -> world_ok w' -> avail w' ->
  length (w_sessions (c_world c)) <= length (w_sessions w') ->
  (forall s, task_session tk <> Some s -> task_session (mkTask (t_req tk) ph) <> Some s ->
     w_sessions w' !! s = w_sessions (c_world c) !! s) ->
  (forall s, task_session (mkTask (t_req tk) ph) = Some s ->
     (task_session tk = Some s \/ length (w_sessions (c_world c)) <= s) /\ s < length (w_sessions w')) ->
  (forall ep s, ph = Entered ep s -> routed (t_req tk) = Some ep /\ w_sessions w' !! s = Some fresh_session) ->
  (forall s x, task_session tk = Some s -> task_session (mkTask (t_req tk) ph) <> Some s ->
     w_sessions w' !! s = Some x -> s_closed x = true) ->
  sessions_wf (mkConfig w' (<[i := mkTask (t_req tk) ph]> (c_tasks c))).
Proof.
  intros [Hok Hav Hent Hheld Hun Hrel] Hi Hok' Hav' Hlen Hkeep Hown Hnew Hclosed.
  (* a session another request holds is not the one of [i], before or after *)
  assert (Hother : forall j tkj s, j <> i -> c_tasks c !! j = Some tkj -> task_session tkj = Some s ->
            task_session tk <> Some s /\ task_session (mkTask (t_req tk) ph) <> Some s).
  { intros j tkj s Hji Hj Hs. split; intros Hs'.
    - exact (Hji (Hun j i tkj tk s Hj Hi Hs Hs')).
    - destruct (Hown s Hs') as [[Ho|Ho] _]; [exact (Hji (Hun j i tkj tk s Hj Hi Hs Ho))|].
      pose proof (Hheld j tkj s Hj Hs). lia. }
  constructor; cbn; [exact Hok'|exact Hav'| | | |].
  - intros j tkj ep s Hj Hph. task_lookup Hj; [now apply Hnew|].
    destruct (Hent j tkj ep s Hj Hph) as [Hr Hs]. split; [exact Hr|].
    assert (Ht : task_session tkj = Some s) by (unfold task_session; now rewrite Hph).
    destruct (Hother j tkj s (not_eq_sym E) Hj Ht) as [H1 H2]. now rewrite Hkeep.
  - intros j tkj s Hj Hs. task_lookup Hj; [exact (proj2 (Hown s Hs))|].
    pose proof (Hheld j tkj s Hj Hs). lia.
  - intros j1 j2 tk1 tk2 s Hj1 Hj2 Hs1 Hs2. task_lookup Hj1; task_lookup Hj2; try reflexivity.
    + destruct (Hother j2 tk2 s (not_eq_sym E) Hj2 Hs2) as [_ []]. exact Hs1.
    + destruct (Hother j1 tk1 s (not_eq_sym E) Hj1 Hs1) as [_ []]. exact Hs2.
    + exact (Hun j1 j2 tk1 tk2 s Hj1 Hj2 Hs1 Hs2).
  - intros s x Hs.
    destruct (decide (task_session (mkTask (t_req tk) ph) = Some s)) as [Ho|Ho].
    { right. exists i, (mkTask (t_req tk) ph). split; [|exact Ho].
      apply list_lookup_insert_eq. eapply lookup_lt_Some. exact Hi. }
    destruct (decide (task_session tk = Some s)) as [Hi'|Hi']; [left; eauto|].
    rewrite (Hkeep s Hi' Ho) in Hs. destruct (Hrel s x Hs) as [Hc|(j & tkj & Hj & Hsj)]; [now left|].
    right. exists j, tkj. split; [|exact Hsj].
    rewrite list_lookup_insert_ne; [exact Hj|]. intros ->. congruence.
Qed.


(** ** Each phase *)

Lemma task_step_enter (req : request) (ep : endpoint) (w : world) :
  routed req = Some ep ->
  task_step req Received w =
  Some (Entered ep (length (w_sessions w)), set_sessions (w_sessions w ++ [fresh_session]) w).
Proof. intros Hr. cbn [task_step]. now rewrite Hr, get_db_enter_fresh. Qed.

Lemma task_step_unrouted (req : request) (w : world) :
  routed req = None -> task_step req Received w = Some (Sent (fst (app req w)), w).
Proof.
  intros Hr. cbn [task_step]. rewrite Hr.
  destruct (app_unrouted req w w Hr) as [Hw _]. destruct (app req w). cbn in *. now subst.
Qed.

(** The exit phase of a request holding an existing session sends the
    response of the endpoint's outcome. *)
Lemma task_step_exit (req : request) (o : outcome exc payload) (s : nat) (w : world) :
  s < length (w_sessions w) ->
  task_step req (Returned o s) w = Some (Sent (finish req (to_response o)), snd (close s w)).
Proof.
  intros Hs. destruct (close_agree s w Hs) as [Hc _].
  cbn [task_step]. unfold exit_phase, try_finally, get_db_exit.
  destruct (close s w) as [o' w']. cbn in Hc. now subst.
Qed.

(** The sessions are well kept in every configuration the server
    reaches from its start. *)
Lemma sessions_wf_start (disk : string -> option table) (clock : nat -> Datetime.t) (rand : nat -> Z) :
  (forall t, disk (db_path DATABASE_URL) = Some t -> table_wf t /\ rows_ok t) -> clock_ok clock ->
  sessions_wf (start disk clock rand).
Proof.
  intros Hd Hc. constructor; cbn; try (intros i; rewrite lookup_nil; discriminate).
  - apply world_ok_startup. intros t Ht. exact (proj1 (Hd t Ht)).
  - apply avail_startup; [intros t Ht; exact (proj2 (Hd t Ht))|exact Hc].
Qed.

Lemma sessions_wf_arrive (c : config) (req : request) :
  sessions_wf c -> sessions_wf (mkConfig (c_world c) (c_tasks c ++ [mkTask req Received])).
Proof.
  intros [Hok Hav Hent Hheld Hun Hrel]. constructor; cbn; [exact Hok|exact Hav| | | |].
  - intros i tk ep s Hi Hp. apply lookup_snoc_Some in Hi as [[_ Hi]|[_ <-]]; [|discriminate].
    exact (Hent i tk ep s Hi Hp).
  - intros i tk s Hi Hs. apply lookup_snoc_Some in Hi as [[_ Hi]|[_ <-]]; [|discriminate].
    exact (Hheld i tk s Hi Hs).
  - intros i j tki tkj s Hi Hj Hsi Hsj.
    apply lookup_snoc_Some in Hi as [[_ Hi]|[_ <-]]; [|discriminate].
    apply lookup_snoc_Some in Hj as [[_ Hj]|[_ <-]]; [|discriminate].
    exact (Hun i j tki tkj s Hi Hj Hsi Hsj).
  - intros s x Hs. destruct (Hrel s x Hs) as [H|(i & tk & Hi & Hts)]; [now left|right].
    exists i, tk. split; [|exact Hts]. rewrite lookup_app_l; [exact Hi|]. eapply lookup_lt_Some; exact Hi.
Qed.


(** One phase of request [i] keeps the sessions well kept. *)
Lemma sessions_wf_run (c : config) (i : nat) (tk : task) (ph : phase) (w' : world) :
  sessions_wf c -> c_tasks c !! i = Some tk ->
  task_step (t_req tk) (t_phase tk) (c_world c) = Some (ph, w') ->
  sessions_wf (mkConfig w' (<[i := mkTask (t_req tk) ph]> (c_tasks c))).
Proof.
  intros Hwf Hi Ht.
  pose proof (task_step_ok _ _ _ _ _ (sw_ok _ Hwf) Ht) as Hok.
  pose proof (task_step_av _ _ _ _ _ (sw_avail _ Hwf) Ht) as Hav.
  destruct c as [w ts]. cbn in *.
  destruct (t_phase tk) as [|ep s|o s|r] eqn:Hp.
  - destruct (routed (t_req tk)) as [ep|] eqn:Hr.
    + (* enter: a brand-new session *)
      rewrite (task_step_enter _ ep w Hr) in Ht. invc Ht.
      apply (sessions_wf_update (mkConfig w ts)); cbn; auto.
      * rewrite length_app. lia.
      * intros s' _ Hs'. apply lookup_snoc_ne. congruence.
      * intros s' [= <-]. rewrite length_app. cbn. lia.
      * intros ep' s' [= <- <-]. split; [exact Hr|apply lookup_snoc].
      * unfold task_session. rewrite Hp. discriminate.
    + (* a request answered in one step *)
      rewrite (task_step_unrouted _ w Hr) in Ht. injection Ht as <- <-.
      apply (sessions_wf_update (mkConfig w ts)); cbn; auto; unfold task_session; rewrite ?Hp; try discriminate.
  - (* middle: the request's own session only *)
    destruct (sw_entered _ Hwf i tk ep s Hi Hp) as [_ Hfresh]. cbn in Hfresh.
    destruct (lookup_split _ _ _ Hfresh) as [Hss Hlen].
    cbn [task_step] in Ht. rewrite <- Hlen in Ht.
    destruct (body_agree w w _ _ _ _ ep (req_body (t_req tk)) Hss Hss (reflexivity w)
                (world_ok_db w (sw_ok _ Hwf)) (avail_db w (sw_avail _ Hwf)) (proj2 (proj2 (proj2 (sw_avail _ Hwf)))))
      as (_ & _ & [S1 Hs1] & _).
    destruct (endpoint_body _ _ _ w) as [o w1] eqn:He. invc Ht. cbn in Hs1. rewrite Hlen.
    assert (Hins : w_sessions w' = <[s := S1]> (w_sessions w)).
    { rewrite Hs1, insert_take_drop; [reflexivity|]. eapply lookup_lt_Some; exact Hfresh. }
    apply (sessions_wf_update (mkConfig w ts)); cbn; auto; unfold task_session; rewrite ?Hp; try discriminate.
    + rewrite Hins, length_insert. lia.
    + intros s' H1 _. rewrite Hins. apply list_lookup_insert_ne. congruence.
    + intros s' [= <-]. split; [now left|]. rewrite Hins, length_insert. eapply lookup_lt_Some; exact Hfresh.
    + intros s' x Hs' Hne. now destruct Hne.
  - (* exit: the request's session is closed *)
    assert (Hs : s < length (w_sessions w)) by (apply (sw_held _ Hwf i tk); [exact Hi|unfold task_session; now rewrite Hp]).
    rewrite (task_step_exit _ o s w Hs) in Ht. invc Ht.
    destruct (close_agree s w Hs) as (_ & _ & Hcl).
    apply (sessions_wf_update (mkConfig w ts)); cbn; auto; unfold task_session; rewrite ?Hp; try discriminate.
    + rewrite Hcl, length_insert. lia.
    + intros s' H1 _. rewrite Hcl. apply list_lookup_insert_ne. congruence.
    + intros s' x [= <-] _. rewrite Hcl, list_lookup_insert_eq by exact Hs. now intros [= <-].
  - cbn in Ht. discriminate.
Qed.

Lemma sessions_wf_step (c c' : config) : sessions_wf c -> step c c' -> sessions_wf c'.
Proof.
  intros Hwf Hs. destruct Hs as [c req|c i tk ph w' Hi Ht].
  - now apply sessions_wf_arrive.
  - exact (sessions_wf_run c i tk ph w' Hwf Hi Ht).
Qed.


(** ** Serializability *)

(** The response a request has sent, or sends once its session is
    closed: the one of its endpoint's outcome. *)
Definition task_result (tk : task) : option response :=
  match t_phase tk with
  | Returned o _ => Some (finish (t_req tk) (to_response o))
  | Sent r => Some r
  | _ => None
  end.

(** The requests at the positions [order] of the tasks, and their
    responses. *)
Definition requests_at (ts : list task) (order : list nat) : list request :=
  omap (fun i => t_req <$> ts !! i) order.

Definition results_at (ts : list task) (order : list nat) : list response :=
  omap (fun i => ts !! i ≫= task_result) order.

(** The configuration [c] is the sequential run, from [w0], of the
    requests whose endpoint has run, in the order [order]: the sequential
    run answers each of them its response, and leaves the committed table,
    the clock and the random source where [c] has them. *)
Definition serial (w0 : world) (c : config) (order : list nat) : Prop :=
  NoDup order /\
  (forall i tk, c_tasks c !! i = Some tk -> (i ∈ order <-> is_Some (task_result tk))) /\
  (forall i, i ∈ order -> i < length (c_tasks c)) /\
  fst (run_requests (requests_at (c_tasks c) order) w0) = results_at (c_tasks c) order /\
  agree (snd (run_requests (requests_at (c_tasks c) order) w0)) (c_world c).

Lemma run_requests_snoc (reqs : list request) (req : request) (w : world) :
  run_requests (reqs ++ [req]) w =
  (fst (run_requests reqs w) ++ [fst (app req (snd (run_requests reqs w)))],
   snd (app req (snd (run_requests reqs w)))).
Proof.
  revert w. induction reqs as [|r reqs IH]; intros w; cbn.
  - destruct (app req w); reflexivity.
  - destruct (app r w) as [resp w1]. rewrite IH. destruct (run_requests reqs w1); reflexivity.
Qed.

Section Update.
Variables (ts : list task) (i : nat) (tk : task) (ph : phase).
Hypothesis Hi : ts !! i = Some tk.

Lemma requests_at_update (order : list nat) :
  requests_at (<[i := mkTask (t_req tk) ph]> ts) order = requests_at ts order.
Proof.
  apply omap_ext_elem. intros j _. destruct (decide (i = j)) as [<-|E].
  - rewrite list_lookup_insert_eq, Hi by (eapply lookup_lt_Some; exact Hi). reflexivity.
  - now rewrite list_lookup_insert_ne.
Qed.

Lemma results_at_update (order : list nat) :
  (i ∈ order -> task_result (mkTask (t_req tk) ph) = task_result tk) ->
  results_at (<[i := mkTask (t_req tk) ph]> ts) order = results_at ts order.
Proof.
  intros Hr. apply omap_ext_elem. intros j Hj. destruct (decide (i = j)) as [<-|E].
  - rewrite list_lookup_insert_eq, Hi by (eapply lookup_lt_Some; exact Hi). cbn. exact (Hr Hj).
  - now rewrite list_lookup_insert_ne.
Qed.

Lemma requests_at_snoc (order : list nat) :
  requests_at ts (order ++ [i]) = requests_at ts order ++ [t_req tk].
Proof. unfold requests_at. rewrite omap_app. cbn [omap list_omap]. now rewrite Hi. Qed.
End Update.

Lemma results_at_snoc (ts : list task) (order : list nat) (i : nat) (tk : task) (r : response) :
  ts !! i = Some tk -> task_result tk = Some r ->
  results_at ts (order ++ [i]) = results_at ts order ++ [r].
Proof.
  intros Hi Hr. unfold results_at. rewrite omap_app. cbn [omap list_omap]. rewrite Hi.
  change (Some tk ≫= task_result) with (task_result tk). now rewrite Hr.
Qed.

Lemma serial_start (w0 : world) : serial w0 (mkConfig w0 []) [].
Proof.
  split; [constructor|]. split; [intros i tk Hi; cbn in Hi; discriminate|].
  split; [intros i Hi; apply elem_of_nil in Hi as []|]. split; reflexivity.
Qed.

Lemma serial_arrive (w0 : world) (c : config) (order : list nat) (req : request) :
  serial w0 c order -> serial w0 (mkConfig (c_world c) (c_tasks c ++ [mkTask req Received])) order.
Proof.
  intros (Hnd & Hdone & Hrange & Hrun & Hag). unfold serial. cbn.
  assert (Hl : forall j, j ∈ order -> (c_tasks c ++ [mkTask req Received]) !! j = c_tasks c !! j)
    by (intros j Hj; apply lookup_app_l, Hrange, Hj).
  assert (Hq : requests_at (c_tasks c ++ [mkTask req Received]) order = requests_at (c_tasks c) order)
    by (apply omap_ext_elem; intros j Hj; now rewrite Hl).
  assert (Hs : results_at (c_tasks c ++ [mkTask req Received]) order = results_at (c_tasks c) order)
    by (apply omap_ext_elem; intros j Hj; now rewrite Hl).
  rewrite Hq, Hs. split; [exact Hnd|]. split; [|split; [|split; [exact Hrun|exact Hag]]].
  - intros j tk Hj. apply lookup_snoc_Some in Hj as [[_ Hj]|[-> <-]]; [exact (Hdone j tk Hj)|].
    split; [intros Hin; specialize (Hrange _ Hin); lia|intros [? [=]]].
  - intros j Hj. rewrite length_app. specialize (Hrange j Hj). lia.
Qed.

(** A phase that neither runs an endpoint nor changes its result, and
    changes nothing other requests read. *)
Lemma serial_same (w0 : world) (c : config) (order : list nat) (i : nat) (tk : task) (ph : phase) (w' : world) :
  serial w0 c order -> c_tasks c !! i = Some tk ->
  task_result (mkTask (t_req tk) ph) = task_result tk -> agree w' (c_world c) ->
  serial w0 (mkConfig w' (<[i := mkTask (t_req tk) ph]> (c_tasks c))) order.
Proof.
  intros (Hnd & Hdone & Hrange & Hrun & Hag) Hi Hr Hw. unfold serial. cbn.
  rewrite requests_at_update, results_at_update by auto.
  split; [exact Hnd|]. split; [|split; [|split; [exact Hrun|now rewrite Hag, Hw]]].
  - intros j tkj Hj. task_lookup Hj; [rewrite Hr; exact (Hdone i tk Hi)|exact (Hdone j tkj Hj)].
  - intros j Hj. rewrite length_insert. exact (Hrange j Hj).
Qed.

(** A phase that answers request [i] the response [r] that the
    request, run alone on any world that agrees with [c], answers. *)
Lemma serial_snoc (w0 : world) (c : config) (order : list nat) (i : nat) (tk : task) (ph : phase)
    (w' : world) (r : response) :
  serial w0 c order -> c_tasks c !! i = Some tk ->
  task_result tk = None -> task_result (mkTask (t_req tk) ph) = Some r ->
  (forall ws, agree ws (c_world c) -> fst (app (t_req tk) ws) = r /\ agree (snd (app (t_req tk) ws)) w') ->
  serial w0 (mkConfig w' (<[i := mkTask (t_req tk) ph]> (c_tasks c))) (order ++ [i]).
Proof.
  intros (Hnd & Hdone & Hrange & Hrun & Hag) Hi Hr0 Hr Happ. unfold serial. cbn.
  assert (Hni : i ∉ order) by (intros Hin; apply (Hdone i tk Hi) in Hin as [? Hs]; congruence).
  assert (Hlt : i < length (c_tasks c)) by (eapply lookup_lt_Some; exact Hi).
  set (ts' := <[i := mkTask (t_req tk) ph]> (c_tasks c)).
  assert (Hi' : ts' !! i = Some (mkTask (t_req tk) ph)) by (now apply list_lookup_insert_eq).
  rewrite (requests_at_snoc ts' i _ Hi' order), (results_at_snoc ts' order i _ r Hi' Hr).
  unfold ts'. rewrite requests_at_update, results_at_update by (auto; intros Hin; contradiction).
  rewrite run_requests_snoc. cbn [t_req].
  destruct (Happ _ Hag) as [Hresp Hw]. rewrite Hresp, Hrun.
  split; [apply list.NoDup_app; split; [exact Hnd|]; split; [intros x Hx ->%list_elem_of_singleton; contradiction|apply NoDup_singleton]|].
  split; [|split; [|split; [reflexivity|exact Hw]]].
  - intros j tkj Hj. rewrite elem_of_app, list_elem_of_singleton.
    task_lookup Hj; [rewrite Hr; split; [intros _; eauto|intros _; now right]|].
    rewrite (Hdone j tkj Hj). split; [intros [H|H]; [exact H|congruence]|now left].
  - intros j Hj. rewrite length_insert. apply elem_of_app in Hj as [Hj| ->%list_elem_of_singleton];
      [exact (Hrange j Hj)|exact Hlt].
Qed.


(** A request whose middle phase runs on its fresh session answers, when
    it runs alone on any world that agrees, the response its exit phase
    sends, and leaves a world that agrees with the one after its middle
    phase. *)
Lemma app_middle (w ws : world) (ss1 ss2 : list session) (req : request) (ep : endpoint) :
  routed req = Some ep -> w_sessions w = ss1 ++ fresh_session :: ss2 -> agree ws w ->
  table_wf (w_db w) -> rows_ok (w_db w) -> clock_ok (w_clock w) ->
  fst (app req ws) = finish req (to_response (fst (endpoint_body ep (req_body req) (length ss1) w))) /\
  agree (snd (app req ws)) (snd (endpoint_body ep (req_body req) (length ss1) w)).
Proof.
  intros Hr Hss Hag Hwf Hrows Hclk.
  rewrite (app_routed req ep ws Hr), run_endpoint_split.
  set (w2 := set_sessions (w_sessions ws ++ [fresh_session]) ws).
  assert (Hag2 : agree w w2) by (unfold w2; rewrite agree_set_sessions; symmetry; exact Hag).
  destruct (body_agree w w2 ss1 ss2 (w_sessions ws) [] ep (req_body req) Hss eq_refl Hag2 Hwf Hrows Hclk)
    as (Ho & Hw & _ & [S2 Hs2]).
  unfold try_finally.
  destruct (endpoint_body ep (req_body req) (length (w_sessions ws)) w2) as [o w3]. cbn in Ho, Hw, Hs2.
  destruct (close_agree (length (w_sessions ws)) w3) as (Hc & Hcag & _);
    [rewrite Hs2, length_app; cbn; lia|].
  destruct (close _ w3) as [o' w4]. cbn in Hc, Hcag. subst o'. cbn.
  rewrite Ho. split; [reflexivity|]. rewrite Hcag. symmetry. exact Hw.
Qed.

Lemma task_result_phase (tk : task) (ph : phase) :
  t_phase tk = ph -> task_result tk = task_result (mkTask (t_req tk) ph).
Proof. intros <-. reflexivity. Qed.

(** One phase of request [i] keeps the configuration a sequential run:
    of the same requests if it runs no endpoint, of one more if it does. *)
Lemma serial_run (w0 : world) (c : config) (order : list nat) (i : nat) (tk : task) (ph : phase) (w' : world) :
  sessions_wf c -> serial w0 c order -> c_tasks c !! i = Some tk ->
  task_step (t_req tk) (t_phase tk) (c_world c) = Some (ph, w') ->
  exists order', serial w0 (mkConfig w' (<[i := mkTask (t_req tk) ph]> (c_tasks c))) order'.
Proof.
  intros Hwf Hser Hi Ht. destruct (t_phase tk) as [|ep s|o s|r] eqn:Hp.
  - destruct (routed (t_req tk)) as [ep|] eqn:Hr.
    + rewrite (task_step_enter _ ep _ Hr) in Ht. invc Ht. exists order.
      apply (serial_same _ _ _ _ _ _ _ Hser Hi); [now rewrite (task_result_phase tk _ Hp)|].
      apply agree_set_sessions.
    + rewrite (task_step_unrouted _ _ Hr) in Ht. invc Ht. exists (order ++ [i]).
      apply (serial_snoc _ _ _ _ _ _ _ (fst (app (t_req tk) (c_world c))) Hser Hi); [now rewrite (task_result_phase tk _ Hp)|reflexivity|].
      intros ws Hws. destruct (app_unrouted (t_req tk) ws (c_world c) Hr) as [-> ->]. now split.
  - destruct (sw_entered _ Hwf i tk ep s Hi Hp) as [Hr Hfresh].
    destruct (lookup_split _ _ _ Hfresh) as [Hss Hlen].
    cbn [task_step] in Ht. rewrite <- Hlen in Ht.
    pose proof (fun ws => app_middle (c_world c) ws _ _ (t_req tk) ep Hr Hss) as Hmid.
    destruct (endpoint_body _ _ _ _) as [o w1] eqn:He. invc Ht. exists (order ++ [i]).
    apply (serial_snoc _ _ _ _ _ _ _ (finish (t_req tk) (to_response o)) Hser Hi); [now rewrite (task_result_phase tk _ Hp)|reflexivity|].
    intros ws Hws.
    apply Hmid; [exact Hws|apply world_ok_db, (sw_ok _ Hwf)|apply avail_db, (sw_avail _ Hwf)|apply (sw_avail _ Hwf)].
  - assert (Hs : s < length (w_sessions (c_world c)))
      by (apply (sw_held _ Hwf i tk); [exact Hi|unfold task_session; now rewrite Hp]).
    rewrite (task_step_exit _ o s _ Hs) in Ht. invc Ht. exists order.
    apply (serial_same _ _ _ _ _ _ _ Hser Hi); [now rewrite (task_result_phase tk _ Hp)|].
    apply (close_agree s _ Hs).
  - discriminate Ht.
Qed.

(** Every configuration the server reaches keeps its sessions well and
    is a sequential run of the requests whose endpoint has run. *)
Lemma reachable_inv (disk : string -> option table) (clock : nat -> Datetime.t) (rand : nat -> Z) (c : config) :
  (forall t, disk (db_path DATABASE_URL) = Some t -> table_wf t /\ rows_ok t) -> clock_ok clock ->
  rtc step (start disk clock rand) c ->
  sessions_wf c /\ exists order, serial (startup disk clock rand) c order.
Proof.
  intros Hd Hc Hreach. revert c Hreach.
  apply (rtc_ind_r (fun c => sessions_wf c /\ exists order, serial (startup disk clock rand) c order)).
  - split; [exact (sessions_wf_start disk clock rand Hd Hc)|]. exists []. apply serial_start.
  - intros c1 c2 _ Hstep [Hwf [order Hser]]. split; [exact (sessions_wf_step c1 c2 Hwf Hstep)|].
    destruct Hstep as [c req|c i tk ph w' Hi Ht].
    + exists order. now apply serial_arrive.
    + exact (serial_run _ c order i tk ph w' Hwf Hser Hi Ht).
Qed.

(** ** Schedules and transitions *)

Lemma server_step_step (e : event) (c c' : config) : server_step e c = Some c' -> step c c'.
Proof.
  destruct e as [req|i]; cbn; intros H.
  - invc H. apply step_arrive.
  - destruct (c_tasks c !! i) as [tk|] eqn:Hi; [|discriminate]. cbn in H.
    destruct (task_step _ _ _) as [[ph w']|] eqn:Ht; [|discriminate]. invc H.
    eapply step_run; eassumption.
Qed.

Lemma run_events_rtc (es : list event) (c c' : config) : run_events es c = Some c' -> rtc step c c'.
Proof.
  revert c. induction es as [|e es IH]; intros c H; cbn in H.
  - invc H. apply rtc_refl.
  - destruct (server_step e c) as [c1|] eqn:He; [|discriminate].
    eapply rtc_l; [exact (server_step_step _ _ _ He)|exact (IH _ H)].
Qed.

(** ** Properties of the server *)

(** C6: serializability.  Started on a [test.db] that is new or holds a
    well-formed table of complete rows, with a clock that reads valid
    datetimes, every configuration the server reaches, whatever the
    requests and however their phases interleave, is a sequential run:
    there is an order of the requests whose endpoint has run (exactly
    those) such that [app] run on these requests one after the other from
    the start answers each of them the response it sent or sends, and
    leaves the committed table, the clock and the random source where the
    server has them. *)
Theorem serializable (disk : string -> option table) (clock : nat -> Datetime.t) (rand : nat -> Z)
    (c : config) :
  (forall t, disk (db_path DATABASE_URL) = Some t -> table_wf t /\ rows_ok t) -> clock_ok clock ->
  rtc step (start disk clock rand) c ->
  exists order, NoDup order /\
    (forall i tk, c_tasks c !! i = Some tk -> (i ∈ order <-> is_Some (task_result tk))) /\
    fst (run_requests (requests_at (c_tasks c) order) (startup disk clock rand)) = results_at (c_tasks c) order /\
    agree (snd (run_requests (requests_at (c_tasks c) order) (startup disk clock rand))) (c_world c).
Proof.
  intros Hd Hc Hreach. destruct (reachable_inv disk clock rand c Hd Hc Hreach) as [_ [order Hser]].
  destruct Hser as (Hnd & Hdone & _ & Hrun & Hag). exists order. auto.
Qed.

(** C16: no two requests in flight hold the same session, and a session
    that is not closed is held by a request in flight, in every
    configuration the server reaches. *)
Theorem sessions_unshared (disk : string -> option table) (clock : nat -> Datetime.t) (rand : nat -> Z)
    (c : config) :
  (forall t, disk (db_path DATABASE_URL) = Some t -> table_wf t /\ rows_ok t) -> clock_ok clock ->
  rtc step (start disk clock rand) c ->
  (forall i j tki tkj s, c_tasks c !! i = Some tki -> c_tasks c !! j = Some tkj ->
     task_session tki = Some s -> task_session tkj = Some s -> i = j) /\
  (forall s x, w_sessions (c_world c) !! s = Some x -> s_closed x = false ->
     exists i tk, c_tasks c !! i = Some tk /\ task_session tk = Some s).
Proof.
  intros Hd Hc Hreach. destruct (reachable_inv disk clock rand c Hd Hc Hreach) as [Hwf _].
  split; [exact (sw_unshared _ Hwf)|].
  intros s x Hs Hopen. destruct (sw_released _ Hwf s x Hs) as [Hcl|Hown]; [congruence|exact Hown].
Qed.

(** C17: once every request the server has received is answered, every
    session [get_db] opened is closed: the release holds under any
    interleaving, on the success and on the error paths. *)
Theorem quiescent_sessions_closed (disk : string -> option table) (clock : nat -> Datetime.t)
    (rand : nat -> Z) (c : config) :
  (forall t, disk (db_path DATABASE_URL) = Some t -> table_wf t /\ rows_ok t) -> clock_ok clock ->
  rtc step (start disk clock rand) c ->
  Forall (fun tk => exists r, t_phase tk = Sent r) (c_tasks c) ->
  Forall (fun x => s_closed x = true) (w_sessions (c_world c)).
Proof.
  intros Hd Hc Hreach Hsent. destruct (reachable_inv disk clock rand c Hd Hc Hreach) as [Hwf _].
  apply Forall_lookup. intros s x Hs.
  destruct (sw_released _ Hwf s x Hs) as [Hcl|(i & tk & Hi & Hts)]; [exact Hcl|].
  rewrite Forall_lookup in Hsent. destruct (Hsent i tk Hi) as [r Hr].
  unfold task_session in Hts. rewrite Hr in Hts. discriminate.
Qed.

(** ** Two interleavings of a POST and a GET *)

(** A POST of Dune arrives, then a GET; both enter [get_db], the POST
    first.  In [get_first] the GET's middle phase runs before the
    POST's, in [post_first] after it. *)
Definition post_get_arrive : list event := [Arrive (post_request dune_body); Arrive get_request; Run 0; Run 1].
Definition get_first : list event := post_get_arrive ++ [Run 1; Run 0; Run 0; Run 1].
Definition post_first : list event := post_get_arrive ++ [Run 0; Run 1; Run 0; Run 1].

Definition demo_start : config := start (fun _ => None) (fun _ => d0) (fun _ => 0%Z).

Definition run_demo (es : list event) : config := default demo_start (run_events es demo_start).

(** The responses the server has sent, in task order. *)
Definition sent (c : config) : list (option response) :=
  map (fun tk => match t_phase tk with Sent r => Some r | _ => None end) (c_tasks c).

Definition dune_response : BookResponse.t := BookResponse.mk "Dune" "Herbert" 1 d0.

(** The server gives no ordering between a create and a list in flight
    together: with the POST's session opened first in both, the GET
    answers the empty list when its endpoint runs first, and the list
    with the new book when it runs second. *)
Example post_get_interleavings :
  run_events get_first demo_start = Some (run_demo get_first) /\
  sent (run_demo get_first) = [Some (mkResponse 200 (PBook dune_response)); Some (mkResponse 200 (PBooks []))] /\
  run_events post_first demo_start = Some (run_demo post_first) /\
  sent (run_demo post_first) =
    [Some (mkResponse 200 (PBook dune_response)); Some (mkResponse 200 (PBooks [dune_response]))] /\
  map s_closed (w_sessions (c_world (run_demo get_first))) = [true; true] /\
  map s_closed (w_sessions (c_world (run_demo post_first))) = [true; true].
Proof. vm_compute. repeat split. Qed.

Lemma demo_reachable : rtc step demo_start (run_demo get_first).
Proof. apply (run_events_rtc get_first). vm_compute. reflexivity. Qed.

Lemma demo_clock_ok : clock_ok (fun _ : nat => d0).
Proof. intros n. reflexivity. Qed.

Lemma serializable_witness :
  exists order, NoDup order /\
    (forall i tk, c_tasks (run_demo get_first) !! i = Some tk -> (i ∈ order <-> is_Some (task_result tk))) /\
    fst (run_requests (requests_at (c_tasks (run_demo get_first)) order) (startup (fun _ => None) (fun _ => d0) (fun _ => 0%Z)))
      = results_at (c_tasks (run_demo get_first)) order /\
    agree (snd (run_requests (requests_at (c_tasks (run_demo get_first)) order)
                  (startup (fun _ => None) (fun _ => d0) (fun _ => 0%Z)))) (c_world (run_demo get_first)).
Proof.
  apply (serializable (fun _ => None) (fun _ => d0) (fun _ => 0%Z) (run_demo get_first));
    [intros t Ht; discriminate|exact demo_clock_ok|exact demo_reachable].
Defined.

Lemma sessions_unshared_witness :
  (forall i j tki tkj s, c_tasks (run_demo get_first) !! i = Some tki -> c_tasks (run_demo get_first) !! j = Some tkj ->
     task_session tki = Some s -> task_session tkj = Some s -> i = j) /\
  (forall s x, w_sessions (c_world (run_demo get_first)) !! s = Some x -> s_closed x = false ->
     exists i tk, c_tasks (run_demo get_first) !! i = Some tk /\ task_session tk = Some s).
Proof.
  apply (sessions_unshared (fun _ => None) (fun _ => d0) (fun _ => 0%Z) (run_demo get_first));
    [intros t Ht; discriminate|exact demo_clock_ok|exact demo_reachable].
Defined.

Lemma quiescent_sessions_closed_witness :
  Forall (fun x => s_closed x = true) (w_sessions (c_world (run_demo get_first))).
Proof.
  apply (quiescent_sessions_closed (fun _ => None) (fun _ => d0) (fun _ => 0%Z) (run_demo get_first));
    [intros t Ht; discriminate|exact demo_clock_ok|exact demo_reachable|].
  vm_compute. repeat constructor; eexists; reflexivity.
Defined.

End Server.
