(* ===== verification/Render.v ===== *)
(** * The bytes of the responses, and what a client reads from them

    After [serialize_response] has validated the endpoint's result
    against the [response_model], FastAPI turns it into JSON data in
    pydantic's ["json"] mode and Starlette's [JSONResponse] writes it
    with [json.dumps] ([JsonText.dumps]).  A [BookResponse] (src/main.py
    lines 47-54) becomes an object whose members come in the order of the
    model's fields: the inherited [title] and [author], then [id] and
    [published_date]; the date is written by pydantic as ISO 8601, like
    [datetime.isoformat]: [YYYY-MM-DDTHH:MM:SS], with [.ffffff] only
    when the microseconds are not 0, and no UTC offset since the value is
    naive.  The other bodies: [{"detail": [...]}] for a 422, one object
    per validation error with pydantic's keys [type], [loc], [msg],
    [input] (and [ctx] for a JSON decoding error);
    [{"detail": ...}] for the 404 and 405 of FastAPI's
    [http_exception_handler]; the plain text [Internal Server Error] of
    Starlette's [ServerErrorMiddleware] for a 500; nothing for a 307
    redirect or the answer to a HEAD.

    The client side ([client_book], [client_books]) reads the body with
    [json.loads] and the fields with [datetime.fromisoformat]: the
    response shape the spec announces ([{id: int, title: string, author:
    string, published_date: ISO-8601 timestamp}]), and [client_errors]
    reads the locations and types of a 422.  The theorems show that a
    client reads back exactly the book the store created or lists, and
    the errors of an invalid body: the rendering loses nothing; and give
    the exact bytes of the spec's scenario and of a missing title. *)

From S2P Require Import Prelude Datetime Json JsonText Schema Sqlite Spec Orm Handlers App Refinement Invariant Availability.
From Stdlib Require Import Ascii.

Import Json Table Orm App Refinement Availability.

Module Render.
Local Open Scope Z_scope.

(** ** The server side *)

(** pydantic's text of a naive [datetime] (as [datetime.isoformat]). *)
Definition isoformat (d : Datetime.t) : string :=
  Datetime.format_int 4 (Datetime.year d) +:+ String "-" (
  Datetime.format_int 2 (Datetime.month d) +:+ String "-" (
  Datetime.format_int 2 (Datetime.day d) +:+ String "T" (
  Datetime.format_int 2 (Datetime.hour d) +:+ String ":" (
  Datetime.format_int 2 (Datetime.minute d) +:+ String ":" (
  Datetime.format_int 2 (Datetime.second d) +:+
  (if Z.eqb (Datetime.microsecond d) 0 then EmptyString
   else String "." (Datetime.format_int 6 (Datetime.microsecond d)))))))).

(** [BookResponse] in pydantic's ["json"] mode: its fields in
    declaration order, [BookCreate]'s first. *)
Definition book_json (b : BookResponse.t) : json :=
  JObj [("title", JStr (BookResponse.title b)); ("author", JStr (BookResponse.author b));
        ("id", JNum (BookResponse.id b));
        ("published_date", JStr (isoformat (BookResponse.published_date b)))].

(** pydantic's name and message of an error type. *)
Definition type_name (t : error_type) : string :=
  match t with
  | Missing => "missing"
  | StringType => "string_type"
  | IntType => "int_type"
  | DatetimeType => "datetime_type"
  | ModelAttributesType => "model_attributes_type"
  | JsonInvalid => "json_invalid"
  end.

Definition error_msg (t : error_type) : string :=
  match t with
  | Missing => "Field required"
  | StringType => "Input should be a valid string"
  | IntType => "Input should be a valid integer"
  | DatetimeType => "Input should be a valid datetime"
  | ModelAttributesType => "Input should be a valid dictionary or object to extract fields from"
  | JsonInvalid => "JSON decode error"
  end.

Definition loc_json (l : loc_item) : json :=
  match l with LKey k => JStr k | LIdx i => JNum (Z.of_nat i) end.

(** [jsonable_encoder] on an input: a JSON value as it is, raw bytes
    decoded to [str]; an ORM instance has no JSON form. *)
Definition input_json (i : py_input) : option json :=
  match i with PyJson v => Some v | PyBytes raw => Some (JStr raw) | PyObject => None end.

(** One entry of a 422 body: the keys of the error dict in pydantic's
    order, [ctx] only for a JSON decoding error. *)
Definition error_json (e : verror) : option json :=
  v ← input_json (input e);
  Some (JObj ([("type", JStr (type_name (err_type e))); ("loc", JArr (map loc_json (loc e)));
               ("msg", JStr (error_msg (err_type e))); ("input", v)] ++
              match ctx_error e with Some m => [("ctx", JObj [("error", JStr m)])] | None => [] end)).

(** The body of a response; [None] only for errors whose input has no
    JSON form, which no 422 carries. *)
Definition body_bytes (r : response) : option (list ascii) :=
  match payload_of r with
  | PBook b => Some (JsonText.dumps (book_json b))
  | PBooks bs => Some (JsonText.dumps (JArr (map book_json bs)))
  | PDetail d =>
      if Z.eqb (status r) 500 then Some (String.list_ascii_of_string d)
      else Some (JsonText.dumps (JObj [("detail", JStr d)]))
  | PRedirect _ | PEmpty => Some []
  | PErrors errs => es ← mapM error_json errs; Some (JsonText.dumps (JObj [("detail", JArr es)]))
  end.

(** ** The client side *)

(** [datetime.fromisoformat] on the layouts [isoformat] writes: the
    fraction is optional. *)
Definition fromisoformat (s : string) : option Datetime.t :=
  '(y, s) ← Datetime.read_digits 4 0 s; s ← Datetime.expect "-" s;
  '(mo, s) ← Datetime.read_digits 2 0 s; s ← Datetime.expect "-" s;
  '(dd, s) ← Datetime.read_digits 2 0 s; s ← Datetime.skip_sep s;
  '(h, s) ← Datetime.read_digits 2 0 s; s ← Datetime.expect ":" s;
  '(mi, s) ← Datetime.read_digits 2 0 s; s ← Datetime.expect ":" s;
  '(se, s) ← Datetime.read_digits 2 0 s;
  '(us, s) ← match s with
             | EmptyString => Some (0, EmptyString)
             | String _ _ => s ← Datetime.expect "." s; Datetime.read_digits 6 0 s
             end;
  match s with
  | EmptyString =>
      let d := Datetime.mk y mo dd h mi se us in if Datetime.valid d then Some d else None
  | String _ _ => None
  end.

Definition str_member (ms : list (string * json)) (k : string) : option string :=
  match obj_get ms k with Some (JStr s) => Some s | _ => None end.

Definition int_member (ms : list (string * json)) (k : string) : option Z :=
  match obj_get ms k with Some (JNum n) => Some n | _ => None end.

(** A book of the response shape, read from decoded JSON. *)
Definition read_book (j : json) : option BookResponse.t :=
  match j with
  | JObj ms =>
      t ← str_member ms "title"; a ← str_member ms "author"; i ← int_member ms "id";
      p ← str_member ms "published_date"; d ← fromisoformat p;
      Some (BookResponse.mk t a i d)
  | _ => None
  end.

Definition read_books (j : json) : option (list BookResponse.t) :=
  match j with JArr items => mapM read_book items | _ => None end.

Definition type_of_name (s : string) : option error_type :=
  if String.eqb s "missing" then Some Missing
  else if String.eqb s "string_type" then Some StringType
  else if String.eqb s "int_type" then Some IntType
  else if String.eqb s "datetime_type" then Some DatetimeType
  else if String.eqb s "model_attributes_type" then Some ModelAttributesType
  else if String.eqb s "json_invalid" then Some JsonInvalid
  else None.

Definition read_loc (j : json) : option loc_item :=
  match j with
  | JStr k => Some (LKey k)
  | JNum n => if (0 <=? n)%Z then Some (LIdx (Z.to_nat n)) else None
  | _ => None
  end.

(** The location and the type of an error entry, read from decoded JSON. *)
Definition read_error (j : json) : option (list loc_item * error_type) :=
  match j with
  | JObj ms =>
      n ← str_member ms "type"; t ← type_of_name n;
      l ← match obj_get ms "loc" with Some (JArr ls) => mapM read_loc ls | _ => None end;
      Some (l, t)
  | _ => None
  end.

(** What a client reads from the body of a response. *)
Definition client_book (r : response) : option BookResponse.t :=
  bs ← body_bytes r; j ← JsonText.loads bs; read_book j.

Definition client_books (r : response) : option (list BookResponse.t) :=
  bs ← body_bytes r; j ← JsonText.loads bs; read_books j.

(** The locations and types of the errors of a 422 body. *)
Definition client_errors (r : response) : option (list (list loc_item * error_type)) :=
  bs ← body_bytes r; j ← JsonText.loads bs;
  match j with
  | JObj ms => match obj_get ms "detail" with Some (JArr es) => mapM read_error es | _ => None end
  | _ => None
  end.

(** The bytes of a JSON string of plain bytes. *)
Definition quoted (s : string) : list ascii := JsonText.dq :: String.list_ascii_of_string s ++ [JsonText.dq].

(** The body the spec's scenario expects for the book Dune, on the
    date [d], with the members in the order the code writes them. *)
Definition dune_text (d : Datetime.t) : list ascii :=
  "{"%char :: quoted "title" ++ ":"%char :: quoted "Dune" ++ ","%char ::
  quoted "author" ++ ":"%char :: quoted "Herbert" ++ ","%char ::
  quoted "id" ++ ":"%char :: "1"%char :: ","%char ::
  quoted "published_date" ++ ":"%char :: quoted (isoformat d) ++ ["}"%char].

(** The body of the 422 to a POST whose body has an [author] [a] and no
    [title]. *)
Definition missing_title_text (a : string) : list ascii :=
  let raw := String.list_ascii_of_string in
  raw "{" ++ quoted "detail" ++ raw ":[{" ++ quoted "type" ++ raw ":" ++ quoted "missing" ++
  raw "," ++ quoted "loc" ++ raw ":[" ++ quoted "body" ++ raw "," ++ quoted "title" ++
  raw "]," ++ quoted "msg" ++ raw ":" ++ quoted "Field required" ++ raw "," ++ quoted "input" ++
  raw ":{" ++ quoted "author" ++ raw ":" ++ quoted a ++ raw "}}]}".

(** ** The date *)

(** The round trip of the date on the wire: [fromisoformat] reads back
    the text pydantic writes for a valid [datetime], with or without its
    fraction. *)
Lemma fromisoformat_isoformat (d : Datetime.t) :
  Datetime.valid d = true -> fromisoformat (isoformat d) = Some d.
Proof.
  intros Hv. pose proof (Datetime.valid_bounds d Hv) as Hb.
  destruct d as [y mo dd h mi se us]; cbn [Datetime.year Datetime.month Datetime.day
    Datetime.hour Datetime.minute Datetime.second Datetime.microsecond] in Hb |- *.
  pose proof (Datetime.days_in_month_le y mo ltac:(lia)).
  unfold isoformat; cbn [Datetime.year Datetime.month Datetime.day
    Datetime.hour Datetime.minute Datetime.second Datetime.microsecond].
  rewrite !Datetime.format_int_fixed by (cbn; lia).
  unfold fromisoformat.
  repeat (first [rewrite Datetime.read_digits_fixed by (cbn; lia) | rewrite decide_True by reflexivity];
          cbn -[Datetime.read_digits Datetime.fixed Datetime.valid]).
  destruct (Z.eqb_spec us 0) as [->|Hus]; cbn -[Datetime.read_digits Datetime.fixed Datetime.valid].
  - rewrite !Z.mul_0_l, !Z.add_0_l, Hv. reflexivity.
  - change (Datetime.fixed 6 us) with (Datetime.fixed 6 us +:+ EmptyString).
    rewrite decide_True by reflexivity. cbn -[Datetime.read_digits Datetime.fixed Datetime.valid].
    rewrite Datetime.read_digits_fixed by (cbn; lia).
    cbn -[Datetime.valid]. rewrite !Z.mul_0_l, !Z.add_0_l, Hv. reflexivity.
Qed.

Lemma digit_plain (k : Z) : 0 <= k < 10 -> JsonText.plain (Datetime.digit k) = true.
Proof.
  intros Hk. assert (k = 0 \/ k = 1 \/ k = 2 \/ k = 3 \/ k = 4 \/ k = 5 \/ k = 6 \/ k = 7 \/
                     k = 8 \/ k = 9) as Hc by lia.
  repeat destruct Hc as [->|Hc]; try reflexivity. subst. reflexivity.
Qed.

Lemma fixed_plain (w : nat) (n : Z) :
  0 <= n < 10 ^ Z.of_nat w ->
  Forall (fun c => JsonText.plain c = true) (String.list_ascii_of_string (Datetime.fixed w n)).
Proof.
  revert n. induction w as [|w IH]; intros n Hn; cbn [Datetime.fixed String.list_ascii_of_string]; [constructor|].
  rewrite Datetime.pow10_succ in Hn. pose proof (Datetime.pow10_pos w). constructor.
  - apply digit_plain. split; [apply Z.div_pos; lia|apply Z.div_lt_upper_bound; lia].
  - apply IH. apply Z.mod_pos_bound. lia.
Qed.

(** The ISO text of a valid date needs no escape in JSON. *)
Lemma isoformat_plain (d : Datetime.t) :
  Datetime.valid d = true -> Forall (fun c => JsonText.plain c = true) (String.list_ascii_of_string (isoformat d)).
Proof.
  intros Hv. pose proof (Datetime.valid_bounds d Hv) as Hb.
  destruct d as [y mo dd h mi se us]; cbn [Datetime.year Datetime.month Datetime.day
    Datetime.hour Datetime.minute Datetime.second Datetime.microsecond] in Hb |- *.
  pose proof (Datetime.days_in_month_le y mo ltac:(lia)).
  unfold isoformat; cbn [Datetime.year Datetime.month Datetime.day
    Datetime.hour Datetime.minute Datetime.second Datetime.microsecond].
  rewrite !Datetime.format_int_fixed by (cbn; lia).
  repeat first
    [ rewrite list_ascii_of_string_app; apply Forall_app; split; [apply fixed_plain; cbn; lia|]
    | progress cbn [String.list_ascii_of_string]; constructor; [reflexivity|] ].
  destruct (Z.eqb us 0); cbn [String.list_ascii_of_string]; [constructor|].
  constructor; [reflexivity|]. apply fixed_plain. cbn; lia.
Qed.

(** ** A book, read back *)

Lemma read_book_json (b : BookResponse.t) : response_date_ok b -> read_book (book_json b) = Some b.
Proof.
  intros Hd. destruct b as [t a i d]. unfold response_date_ok in Hd. cbn in Hd.
  cbn -[fromisoformat isoformat]. rewrite (fromisoformat_isoformat d Hd). reflexivity.
Qed.

Lemma read_books_json (bs : list BookResponse.t) :
  Forall response_date_ok bs -> read_books (JArr (map book_json bs)) = Some bs.
Proof.
  intros Hbs. apply (mapM_fmap_Forall_Some read_book book_json).
  eapply Forall_impl; [exact read_book_json|exact Hbs].
Qed.

(** The body of a response carrying one book is read back as that book. *)
Lemma client_book_of (r : response) (b : BookResponse.t) :
  payload_of r = PBook b -> response_date_ok b -> client_book r = Some b.
Proof.
  intros Hp Hd. unfold client_book, body_bytes. rewrite Hp.
  cbn -[JsonText.loads JsonText.dumps read_book book_json]. rewrite JsonText.loads_dumps.
  exact (read_book_json b Hd).
Qed.

Lemma client_books_of (r : response) (bs : list BookResponse.t) :
  payload_of r = PBooks bs -> Forall response_date_ok bs -> client_books r = Some bs.
Proof.
  intros Hp Hbs. unfold client_books, body_bytes. rewrite Hp.
  cbn -[JsonText.loads JsonText.dumps read_books book_json]. rewrite JsonText.loads_dumps.
  exact (read_books_json bs Hbs).
Qed.

(** What a client reads from a response is what it holds. *)
Definition wire_ok (r : response) : Prop :=
  match payload_of r with
  | PBook b => client_book r = Some b
  | PBooks bs => client_books r = Some bs
  | _ => True
  end.

Lemma wire_ok_dates (r : response) : payload_dates_ok (payload_of r) -> wire_ok r.
Proof.
  unfold wire_ok. destruct (payload_of r) eqn:Hp; try easy; cbn; intros H.
  - exact (client_book_of r b Hp H).
  - exact (client_books_of r bs Hp H).
Qed.

Lemma response_of_book_date (b : Spec.book) :
  Datetime.valid (Spec.published_date b) = true -> response_date_ok (response_of_book b).
Proof. intros H. exact H. Qed.

(** ** The errors, read back *)

Lemma type_of_name_type_name (t : error_type) : type_of_name (type_name t) = Some t.
Proof. destruct t; reflexivity. Qed.

Lemma read_loc_json (l : loc_item) : read_loc (loc_json l) = Some l.
Proof.
  destruct l as [k|i]; cbn; [reflexivity|].
  destruct (Z.leb_spec 0 (Z.of_nat i)); [|lia]. now rewrite Nat2Z.id.
Qed.

(** An error whose input has a JSON form. *)
Definition input_ok (e : verror) : Prop := is_Some (input_json (input e)).

Lemma read_error_json (e : verror) (j : json) :
  error_json e = Some j -> read_error j = Some (loc e, err_type e).
Proof.
  unfold error_json. destruct (input_json (input e)) as [v|]; [|discriminate]. cbn. intros [= <-].
  assert (Hl : mapM read_loc (map loc_json (loc e)) = Some (loc e))
    by (apply (mapM_fmap_Some read_loc loc_json); exact read_loc_json).
  destruct (ctx_error e); cbn -[type_name type_of_name mapM];
    rewrite type_of_name_type_name; cbn -[mapM]; rewrite Hl; reflexivity.
Qed.

Lemma errors_json_read (errs : list verror) :
  Forall input_ok errs -> exists es, mapM error_json errs = Some es /\
    mapM read_error es = Some (map (fun e => (loc e, err_type e)) errs).
Proof.
  induction 1 as [|e errs [v Hv] _ (es & Hes & Hrd)]; [exists []; split; reflexivity|].
  destruct (error_json e) as [j|] eqn:Ej; [|unfold error_json in Ej; rewrite Hv in Ej; discriminate].
  exists (j :: es). cbn. rewrite Ej, Hes. cbn. rewrite (read_error_json e j Ej), Hrd. split; reflexivity.
Qed.

(** The body of a response carrying errors whose inputs are JSON data
    is read back as their locations and types. *)
Lemma client_errors_of (r : response) (errs : list verror) :
  payload_of r = PErrors errs -> Forall input_ok errs ->
  client_errors r = Some (map (fun e => (loc e, err_type e)) errs).
Proof.
  intros Hp Hin. destruct (errors_json_read errs Hin) as (es & Hes & Hrd).
  unfold client_errors, body_bytes. rewrite Hp, Hes.
  cbn -[JsonText.loads JsonText.dumps mapM]. rewrite JsonText.loads_dumps. exact Hrd.
Qed.

Lemma relocate_input_ok (l : loc_item) (errs : list verror) :
  Forall input_ok errs -> Forall input_ok (map (relocate l) errs).
Proof. intros H. apply Forall_map. exact H. Qed.

Lemma str_field_inputs (m : list (string * json)) (name : string) (errs : list verror) :
  str_field m name = inl errs -> Forall input_ok errs.
Proof.
  unfold str_field. destruct (obj_get m name) as [v|]; [destruct (validate_str v)|];
    intros H; inversion H; repeat constructor; eexists; reflexivity.
Qed.

(** Every error the body parameter reports has a JSON form. *)
Lemma body_param_inputs (b : body) (errs : list verror) :
  body_param b = inl errs -> Forall input_ok errs.
Proof.
  destruct b as [|pos msg|[| | | |items|m]|raw]; cbn; intros H; inversion H;
    try (repeat constructor; eexists; reflexivity).
  unfold BookCreate.model_validate in H.
  destruct (str_field m "title") as [e1|] eqn:E1, (str_field m "author") as [e2|] eqn:E2;
    inversion H; apply relocate_input_ok;
    try apply Forall_app; try split; eauto using str_field_inputs.
Qed.

(** ** The responses of the application *)

(** C13: the wire format loses nothing: after a start on a [test.db]
    that is new or holds complete rows, with [datetime.utcnow()] reading
    valid datetimes, every response the application sends over any
    sequence of requests that carries a [BookResponse] or a list of them
    is read back by a client ([json.loads], then [fromisoformat] on the
    date) as exactly the books the response holds: titles and authors
    with any bytes, ids, and dates to the microsecond. *)
Theorem responses_read_back (disk : string -> option table) (clock : nat -> Datetime.t)
    (rand : nat -> Z) (reqs : list request) :
  (forall t, disk (db_path DATABASE_URL) = Some t -> rows_ok t) -> clock_ok clock ->
  Forall wire_ok (fst (run_requests reqs (startup disk clock rand))).
Proof.
  intros Hd Hc. eapply Forall_impl; [exact wire_ok_dates|].
  apply run_requests_dates, avail_startup; assumption.
Qed.

(** C14: on a world that implements a store [s], a POST with a valid
    body and then a GET are answered with bodies from which a client
    reads the book [Spec.create] adds (the next id, the title and author
    sent, the clock reading as date), and then the books of [s] followed
    by it, in this order. *)
Theorem wire_refines (w : world) (s : Spec.store) (b : body) (bc : BookCreate.t) :
  refines w s -> body_param b = inr bc -> Spec.next_id s <= MAX_ROWID ->
  Datetime.valid (w_clock w (w_tick w)) = true ->
  let bk := Spec.mk (Spec.next_id s) (BookCreate.title bc) (BookCreate.author bc) (w_clock w (w_tick w)) in
  exists r1 r2 w', run_requests [post_request b; get_request] w = ([r1; r2], w') /\
    status r1 = 200 /\ client_book r1 = Some (response_of_book bk) /\
    status r2 = 200 /\ client_books r2 = Some (map response_of_book (Spec.list_books s ++ [bk])) /\
    refines w' (s ++ [bk]).
Proof.
  intros Href Hb Hbound Hv bk.
  destruct (create_list_step w s b bc Href Hb Hbound Hv) as [_ (w' & Hrun & Href')].
  pose proof Href as (_ & _ & _ & Hdates).
  eexists _, _, w'. split; [exact Hrun|]. split; [reflexivity|].
  split; [apply client_book_of with (1 := eq_refl); exact Hv|]. split; [reflexivity|].
  split; [|exact Href']. apply client_books_of; [unfold Spec.list_books; rewrite map_app; reflexivity|].
  unfold Spec.list_books. apply Forall_map. apply Forall_app. split.
  - eapply Forall_impl; [exact response_of_book_date|exact Hdates].
  - constructor; [exact Hv|constructor].
Qed.

(** C29: the bytes of the spec's scenario: from the state the
    application starts in, with a first clock reading that is a valid
    [datetime], POST [{"title":"Dune","author":"Herbert"}] is answered
    with exactly the bytes [{"title":"Dune","author":"Herbert","id":1,
    "published_date":"<ISO date>"}] and the GET after it with the same
    object in an array: the members come in the order of
    [BookResponse]'s fields, not in the order of the spec's example. *)
Theorem dune_wire (clock : nat -> Datetime.t) (rand : nat -> Z) :
  Datetime.valid (clock 0%nat) = true ->
  exists r1 r2 w', run_requests [post_request dune_body; get_request] (init_world clock rand) = ([r1; r2], w') /\
    body_bytes r1 = Some (dune_text (clock 0%nat)) /\
    body_bytes r2 = Some ("["%char :: dune_text (clock 0%nat) ++ ["]"%char]).
Proof.
  intros Hv.
  destruct (create_list_step (init_world clock rand) [] dune_body (BookCreate.mk "Dune" "Herbert"))
    as [_ (w' & Hrun & _)]; [now apply refines_nil|reflexivity|unfold Spec.next_id, MAX_ROWID; simpl; lia|exact Hv|].
  do 3 eexists. split; [exact Hrun|].
  cbn -[isoformat JsonText.dumps_str].
  rewrite (JsonText.dumps_str_plain (isoformat _)) by (apply isoformat_plain; exact Hv).
  split; reflexivity.
Qed.


(** C15: the 422 on the wire: on any world, a POST whose body does not
    validate against [BookCreate] (a missing or non-string field, a
    value that is not an object, no body or [null], JSON that does not
    parse, a body that is not JSON), with errors whose inputs encode, is
    answered 422 with a body from which a client reads exactly the
    locations and types of the errors [body_param] reports, in order. *)
Theorem invalid_body_read_back (w : world) (b : body) (errs : list verror) :
  body_param b = inl errs -> forallb input_encodable errs = true ->
  status (fst (app (post_request b) w)) = 422 /\
  client_errors (fst (app (post_request b) w)) = Some (map (fun e => (loc e, err_type e)) errs).
Proof.
  intros Hb Henc. destruct (app_post_invalid w b errs Hb) as (Hr & _).
  rewrite Hr. unfold validation_response. rewrite Henc. split; [reflexivity|].
  apply client_errors_of; [reflexivity|exact (body_param_inputs b errs Hb)].
Qed.

(** C31: a POST whose body is not JSON and whose bytes are not UTF-8 is
    answered 500 with the plain text [Internal Server Error], not 422:
    the validation error carries the raw bytes as its input, and
    [jsonable_encoder] raises decoding them. *)
Theorem non_utf8_body_500 (w : world) (raw : string) :
  JsonText.utf8_valid (String.list_ascii_of_string raw) = false ->
  fst (app (post_request (OtherBody raw)) w) = mkResponse 500 (PDetail "Internal Server Error") /\
  body_bytes (fst (app (post_request (OtherBody raw)) w)) =
    Some (String.list_ascii_of_string "Internal Server Error").
Proof.
  intros Hu. destruct (app_post_invalid w (OtherBody raw) _ eq_refl) as (Hr & _).
  rewrite Hr. unfold validation_response. cbn. rewrite Hu. split; reflexivity.
Qed.

(** C30: the bytes of the spec's missing-field case: on any world, a
    POST of [{"author": a}] (for an author of plain bytes) is answered
    with exactly [{"detail":[{"type":"missing","loc":["body","title"],
    "msg":"Field required","input":{"author":a}}]}]. *)
Theorem missing_title_bytes (w : world) (a : string) :
  Forall (fun c => JsonText.plain c = true) (String.list_ascii_of_string a) ->
  body_bytes (fst (app (post_request (JsonBody (JObj [("author", JStr a)]))) w)) =
    Some (missing_title_text a).
Proof.
  intros Ha. destruct (app_post_invalid w (JsonBody (JObj [("author", JStr a)])) _ eq_refl) as (Hr & _).
  rewrite Hr. cbn -[JsonText.dumps_str]. rewrite (JsonText.dumps_str_plain a Ha).
  unfold missing_title_text, quoted. cbn. repeat (rewrite <- app_assoc; cbn). reflexivity.
Qed.

(** ** Witnesses *)

Lemma responses_read_back_witness :
  Forall wire_ok (fst (run_requests [post_request dune_body; get_request; mkRequest HEAD "/books/" NoBody]
                         (startup (fun _ => None) (fun _ => d0) (fun _ => 0)))).
Proof.
  apply responses_read_back; [discriminate|]. intros n. reflexivity.
Defined.

Lemma wire_refines_witness :
  let bk := Spec.mk (Spec.next_id []) "Dune" "Herbert" (w_clock w0 (w_tick w0)) in
  exists r1 r2 w', run_requests [post_request dune_body; get_request] w0 = ([r1; r2], w') /\
    status r1 = 200 /\ client_book r1 = Some (response_of_book bk) /\
    status r2 = 200 /\ client_books r2 = Some (map response_of_book (Spec.list_books [] ++ [bk])) /\
    refines w' ([] ++ [bk]).
Proof.
  exact (wire_refines w0 [] dune_body dune_create w0_refines eq_refl
           ltac:(unfold Spec.next_id, MAX_ROWID; simpl; lia) eq_refl).
Defined.

Lemma dune_wire_witness :
  exists r1 r2 w', run_requests [post_request dune_body; get_request] (init_world (fun _ => d0) (fun _ => 0)) =
    ([r1; r2], w') /\
    body_bytes r1 = Some (dune_text d0) /\ body_bytes r2 = Some ("["%char :: dune_text d0 ++ ["]"%char]).
Proof. exact (dune_wire (fun _ => d0) (fun _ => 0) eq_refl). Defined.

Lemma invalid_body_read_back_witness :
  status (fst (app (post_request (JsonBody (JObj [("title", JNum 3)]))) w0)) = 422 /\
  client_errors (fst (app (post_request (JsonBody (JObj [("title", JNum 3)]))) w0)) =
    Some [([LKey "body"; LKey "title"], StringType); ([LKey "body"; LKey "author"], Missing)].
Proof. exact (invalid_body_read_back w0 (JsonBody (JObj [("title", JNum 3)])) _ eq_refl eq_refl). Defined.

Lemma non_utf8_body_500_witness :
  fst (app (post_request (OtherBody (String (Ascii.ascii_of_nat 255) EmptyString))) w0) =
    mkResponse 500 (PDetail "Internal Server Error") /\
  body_bytes (fst (app (post_request (OtherBody (String (Ascii.ascii_of_nat 255) EmptyString))) w0)) =
    Some (String.list_ascii_of_string "Internal Server Error").
Proof. apply non_utf8_body_500. reflexivity. Defined.

Lemma missing_title_bytes_witness :
  body_bytes (fst (app (post_request (JsonBody (JObj [("author", JStr "Herbert")]))) w0)) =
    Some (missing_title_text "Herbert").
Proof. apply missing_title_bytes. repeat constructor. Defined.

End Render.
