(* ===== verification/Service.v ===== *)
(** * The whole service implements the abstract book store

    [Refinement] relates one request to one operation of [Spec] on a
    world that implements a store.  This file closes the two gaps that
    leaves:
    - every world the application reaches from startup, whatever the
      requests it served, implements a store: the committed [books]
      table is the table of the books [store_of] reads from it (the
      invariants of [Invariant] and [Availability] give exactly the
      conditions of [refines]);
    - every request, not only the well-formed POST and GET, is answered
      as the abstract service [answers] allows: a valid POST creates the
      book [Spec.create] adds, dated with the clock's reading at the
      current tick (the count of readings taken so far), a GET lists the store, a HEAD answers an
      empty 200, an invalid body is answered by the validation handler
      (422, or 500 when its errors cannot be encoded) and a request no
      route takes a 404, 405 or 307, the last three with the store
      unchanged.
    The abstract service is a labelled transition system in the style of
    [Spec]'s store: a request and its response label a step from a store
    to a store and the tick to the tick after, and [serves] strings
    steps along a sequence of requests.
    The theorem [service_refines] says that the responses the
    application sends for any sequence of requests, from a start on a
    [test.db] that is new or holds complete rows, are a run of the
    abstract service from the store [test.db] holds, as long as the ids
    stay below [2^63-1]. *)

From S2P Require Import Prelude Datetime Json Schema Sqlite Spec Orm Handlers App Refinement Invariant Responses Availability Server.

Import Json Table Orm Handlers App Refinement Invariant Responses Availability Server.

Module Service.
Local Open Scope Z_scope.

(** ** The abstraction of a table *)

(** The book a complete row holds: the date is the stored text, parsed. *)
Definition book_of_row (r : row) : option Spec.book :=
  match col_title r, col_author r, col_published r with
  | Some ti, Some au, Some txt => d ← Datetime.decode txt; Some (Spec.mk (rowid r) ti au d)
  | _, _, _ => None
  end.

Definition store_of (t : table) : Spec.store := omap book_of_row t.

(** ** The abstract service *)

(** What the abstract service may answer to [req] in the store [s] when
    [n] clock readings have been taken, with the store and the number of
    readings after.  Only a created book takes a reading, the [n]-th one:
    [create_book] calls [datetime.utcnow] once (src/main.py:56). *)
Inductive answers (clock : nat -> Datetime.t) (n : nat) (s : Spec.store) :
    request -> response -> Spec.store -> nat -> Prop :=
| answers_create (b : body) (bc : BookCreate.t) :
    body_param b = inr bc ->
    answers clock n s (post_request b)
      (mkResponse 200 (PBook (response_of_book (fst (Spec.create s (BookCreate.title bc) (BookCreate.author bc) (clock n))))))
      (snd (Spec.create s (BookCreate.title bc) (BookCreate.author bc) (clock n))) (S n)
| answers_invalid (b : body) (errs : list verror) :
    body_param b = inl errs ->
    answers clock n s (post_request b) (validation_response errs) s n
| answers_list (b : body) :
    answers clock n s (mkRequest GET "/books/" b)
      (mkResponse 200 (PBooks (map response_of_book (Spec.list_books s)))) s n
| answers_head (b : body) :
    answers clock n s (mkRequest HEAD "/books/" b) (mkResponse 200 PEmpty) s n
| answers_unrouted (req : request) (r : response) :
    find_full (req_method req) (req_path req) = None ->
    (status r = 404 \/ status r = 405 \/ status r = 307) ->
    answers clock n s req r s n.

(** A run of the abstract service against [clock]: each request answered
    in turn, the readings numbered from [n] on. *)
Inductive serves (clock : nat -> Datetime.t) : nat -> Spec.store -> list request -> list response -> Prop :=
| serves_nil (n : nat) (s : Spec.store) : serves clock n s [] []
| serves_cons (n n' : nat) (s s' : Spec.store) (req : request) (r : response)
    (reqs : list request) (rs : list response) :
    answers clock n s req r s' n' -> serves clock n' s' reqs rs ->
    serves clock n s (req :: reqs) (r :: rs).

(** ** The abstraction of a reachable world *)

Lemma book_of_row_ok (r : row) :
  row_ok r -> exists b, book_of_row r = Some b /\ row_of_book b = r /\
    Spec.id b = rowid r /\ Datetime.valid (Spec.published_date b) = true.
Proof.
  intros ([ti Ht] & [au Ha] & d & Hp & Hv). destruct r as [v ti' au' p]; cbn in *; subst.
  exists (Spec.mk v ti au d). unfold book_of_row. cbn [col_title col_author col_published rowid].
  rewrite (Datetime.decode_encode_valid d Hv).
  repeat split; exact Hv.
Qed.

Lemma store_of_rows (t : table) :
  rows_ok t -> map row_of_book (store_of t) = t /\ map Spec.id (store_of t) = map rowid t /\
    Forall (fun b => Datetime.valid (Spec.published_date b) = true) (store_of t).
Proof.
  induction 1 as [|r t Hr _ IH]; [repeat constructor|].
  destruct (book_of_row_ok r Hr) as (b & Hb & Hrow & Hid & Hv). destruct IH as (H1 & H2 & H3).
  unfold store_of. cbn. rewrite Hb. cbn. fold (store_of t).
  split; [now rewrite Hrow, H1|]. split; [now rewrite Hid, H2|]. now constructor.
Qed.

(** A well-formed table of complete rows is the table of its books. *)
Lemma store_of_refines (w : world) :
  table_wf (w_db w) -> rows_ok (w_db w) -> refines w (store_of (w_db w)).
Proof.
  intros [Hinc Hrange] Hrows. destruct (store_of_rows _ Hrows) as (H1 & H2 & H3).
  split; [now rewrite H1|]. split; [split|split; [|exact H3]].
  - rewrite H2. exact Hinc.
  - rewrite <- H1 in Hrange. apply Forall_map in Hrange.
    eapply Forall_impl; [|exact Hrange]. cbn. intros b Hb; lia.
  - rewrite <- H1 in Hrange. apply Forall_map in Hrange.
    eapply Forall_impl; [|exact Hrange]. cbn. intros b Hb; lia.
Qed.

(** ** One request *)

(** [refines] looks only at the committed table. *)
Lemma refines_db (w w' : world) (s : Spec.store) : w_db w' = w_db w -> refines w s -> refines w' s.
Proof. unfold refines. intros ->. exact id. Qed.

(** A GET or a HEAD on ["/books/"], whatever its body. *)
Lemma app_list (w : world) (s : Spec.store) (m : method) (b : body) :
  refines w s -> m = GET \/ m = HEAD ->
  exists w', app (mkRequest m "/books/" b) w =
    (mkResponse 200 (if decide (m = HEAD) then PEmpty else PBooks (map response_of_book (Spec.list_books s))), w') /\
    refines w' s /\ w_clock w' = w_clock w /\ w_tick w' = w_tick w.
Proof.
  intros Href Hm. destruct (list_step w s Href) as (w' & Hget & Href' & Hclk & Htick & _).
  rewrite app_get in Hget.
  rewrite (app_routed _ EpGetBooks w) by (destruct Hm as [-> | ->]; destruct b; reflexivity).
  change (run_endpoint EpGetBooks (req_body (mkRequest m "/books/" b))) with (run_endpoint EpGetBooks NoBody).
  destruct (run_endpoint EpGetBooks NoBody w) as [o w1]. injection Hget as Ho <-.
  exists w1. unfold finish. cbn [req_method]. rewrite Ho.
  destruct (decide (m = HEAD)); split; try reflexivity; (split; [assumption|split; assumption]).
Qed.

(** Every request, on a world that implements [s], is answered as the
    abstract service allows, and the world after implements the store
    after; the clock is untouched. *)
Lemma app_answers (w : world) (s : Spec.store) (req : request) :
  refines w s -> Datetime.valid (w_clock w (w_tick w)) = true -> Spec.next_id s <= MAX_ROWID ->
  exists s', answers (w_clock w) (w_tick w) s req (fst (app req w)) s' (w_tick (snd (app req w))) /\
    refines (snd (app req w)) s' /\ w_clock (snd (app req w)) = w_clock w.
Proof.
  intros Href Hclk Hbound. destruct req as [m p b].
  destruct (find_full m p) as [r|] eqn:Hf.
  - destruct (find_full_endpoint m p r Hf) as [-> [[_ ->]|[_ Hm]]].
    + change (mkRequest POST "/books/" b) with (post_request b).
      destruct (body_param b) as [errs|bc] eqn:Hb.
      * destruct (app_post_invalid w b errs Hb) as (Hs & Hdb & Hc & Ht).
        exists s. rewrite Hs, Ht. split; [exact (answers_invalid _ _ _ b errs Hb)|]. split; [|exact Hc].
        exact (refines_db _ _ _ Hdb Href).
      * pose proof (create_step w s b bc Href Hb Hbound Hclk) as Hc.
        destruct (Spec.create s _ _ _) as [bk s'] eqn:Ecr. destruct Hc as (w' & Happ & Href' & Hc & Ht & _).
        rewrite Happ. exists s'. cbn [fst snd]. rewrite Ht. split; [|split; assumption].
        pose proof (answers_create (w_clock w) (w_tick w) s b bc Hb) as Ha. rewrite Ecr in Ha. exact Ha.
    + destruct (app_list w s m b Href Hm) as (w' & -> & Href' & Hc & Ht). exists s. cbn [fst snd].
      rewrite Ht. split; [|split; assumption].
      destruct Hm as [-> | ->]; cbn; constructor.
  - exists s. unfold app. cbn [req_method req_path req_body]. rewrite Hf.
    destruct (path_known p); [|destruct (_ && _)]; cbn;
      (split; [apply answers_unrouted; [exact Hf|cbn; auto]|split; [exact Href|reflexivity]]).
Qed.

(** A step of the abstract service adds at most one id, the next. *)
Lemma answers_max_id (clock : nat -> Datetime.t) (n n' : nat) (s s' : Spec.store) (req : request) (r : response) :
  answers clock n s req r s' n' -> Spec.max_id s' <= Spec.max_id s + 1.
Proof.
  destruct 1; cbn; try lia. rewrite max_id_snoc. cbn. unfold Spec.next_id.
  pose proof (Spec.max_id_nonneg s). lia.
Qed.

(** ** Runs *)

Lemma run_serves (reqs : list request) (w : world) (s : Spec.store) :
  refines w s -> clock_ok (w_clock w) -> Spec.max_id s + Z.of_nat (length reqs) <= MAX_ROWID ->
  serves (w_clock w) (w_tick w) s reqs (fst (run_requests reqs w)).
Proof.
  revert w s. induction reqs as [|req reqs IH]; intros w s Href Hclk Hbound; [constructor|].
  cbn [length] in Hbound. rewrite Nat2Z.inj_succ in Hbound.
  destruct (app_answers w s req Href (Hclk _) ltac:(unfold Spec.next_id; lia)) as (s' & Ha & Href' & Hc).
  cbn [run_requests]. destruct (app req w) as [resp w1] eqn:E. cbn in Ha, Href', Hc.
  pose proof (IH w1 s' Href' ltac:(rewrite Hc; exact Hclk)
                ltac:(pose proof (answers_max_id _ _ _ _ _ _ _ Ha); lia)) as Hrest.
  rewrite Hc in Hrest. destruct (run_requests reqs w1) as [resps w2]. cbn in Hrest |- *.
  exact (serves_cons _ _ _ s s' req resp reqs resps Ha Hrest).
Qed.

(** The invariants of a world reached from startup. *)
Lemma reachable_tables (disk : string -> option table) (clock : nat -> Datetime.t) (rand : nat -> Z)
    (reqs : list request) :
  (forall t, disk (db_path DATABASE_URL) = Some t -> table_wf t /\ rows_ok t) -> clock_ok clock ->
  table_wf (w_db (snd (run_requests reqs (startup disk clock rand)))) /\
  rows_ok (w_db (snd (run_requests reqs (startup disk clock rand)))).
Proof.
  intros Hd Hc. split.
  - apply world_ok_db, run_requests_ok, world_ok_startup. intros t H. exact (proj1 (Hd t H)).
  - apply avail_db, run_requests_av, avail_startup; [|exact Hc]. intros t H. exact (proj2 (Hd t H)).
Qed.

(** C10: the abstraction holds on every reachable world: from a start
    on a [test.db] that is new or holds a well-formed table of complete
    rows, with [datetime.utcnow()] reading valid datetimes, after any
    sequence of requests the world implements the store of the books
    its committed table holds: ids increasing, positive and below
    [2^63-1], every date valid, and the table exactly their rows. *)
Theorem reachable_refines (disk : string -> option table) (clock : nat -> Datetime.t) (rand : nat -> Z)
    (reqs : list request) :
  (forall t, disk (db_path DATABASE_URL) = Some t -> table_wf t /\ rows_ok t) -> clock_ok clock ->
  let w := snd (run_requests reqs (startup disk clock rand)) in refines w (store_of (w_db w)).
Proof.
  intros Hd Hc w. destruct (reachable_tables disk clock rand reqs Hd Hc) as [H1 H2].
  exact (store_of_refines w H1 H2).
Qed.

(** C3: the service refines the abstract book store: from a start on a
    [test.db] that is new or holds a well-formed table of complete rows,
    with [datetime.utcnow()] reading valid datetimes, the responses the
    application sends to any sequence of requests (any methods, paths
    and bodies) are a run of the abstract service from the store
    [test.db] holds, with the clock's readings numbered from 0: each
    valid POST creates the next book dated with the clock's next reading
    (the k-th book created is dated [clock k]), each GET lists the store, each HEAD is an empty 200,
    each invalid body the validation handler's answer and each request no route takes a 404, 405
    or 307 that change nothing, as long as the ids stay below
    [2^63-1]. *)
Theorem service_refines (disk : string -> option table) (clock : nat -> Datetime.t) (rand : nat -> Z)
    (reqs : list request) :
  (forall t, disk (db_path DATABASE_URL) = Some t -> table_wf t /\ rows_ok t) -> clock_ok clock ->
  Spec.max_id (store_of (w_db (startup disk clock rand))) + Z.of_nat (length reqs) <= MAX_ROWID ->
  serves clock 0 (store_of (w_db (startup disk clock rand))) reqs (fst (run_requests reqs (startup disk clock rand))).
Proof.
  intros Hd Hc Hbound. apply (run_serves reqs (startup disk clock rand)); [|exact Hc|exact Hbound].
  destruct (reachable_tables disk clock rand [] Hd Hc) as [H1 H2].
  exact (store_of_refines _ H1 H2).
Qed.

(** ** Witnesses *)

Definition demo_requests : list request :=
  [post_request dune_body; get_request; mkRequest HEAD "/books/" NoBody;
   post_request NoBody; mkRequest GET "/books" NoBody; mkRequest PUT "/books/" NoBody].

Lemma disk_none_ok :
  forall t, (fun _ : string => @None table) (db_path DATABASE_URL) = Some t -> table_wf t /\ rows_ok t.
Proof. discriminate. Qed.

Lemma reachable_refines_witness :
  let w := snd (run_requests demo_requests (startup (fun _ => None) (fun _ => d0) (fun _ => 0))) in
  refines w (store_of (w_db w)).
Proof. exact (reachable_refines (fun _ => None) (fun _ => d0) (fun _ => 0) demo_requests disk_none_ok (fun _ => eq_refl)). Defined.

Lemma service_refines_witness :
  serves (fun _ => d0) 0 (store_of (w_db (startup (fun _ => None) (fun _ => d0) (fun _ => 0)))) demo_requests
    (fst (run_requests demo_requests (startup (fun _ => None) (fun _ => d0) (fun _ => 0)))).
Proof.
  exact (service_refines (fun _ => None) (fun _ => d0) (fun _ => 0) demo_requests disk_none_ok (fun _ => eq_refl)
           ltac:(vm_compute; discriminate)).
Defined.

End Service.
